(** * final_clean.py: the record normalization and merge pipeline

    A shallow embedding of the functions of [final_clean.py] that transform
    the constituent table ([clean_and_prepare_data], [UM_donor], [replace],
    [fill_missing_values], [create_affiliation_columns], [merged_df_edits],
    [collect_addresses_to_geocode]) and the properties of the specification
    that concern them.

    Conventions of the embedding.
    - A Python [str] is a [string] of code points below 256 (the Latin-1
      range), one character for a code point; texts with other code points
      are outside the embedding.
    - A Python [float] is an IEEE 754 binary64 number, [spec_float] with
      precision 53 and maximal exponent 1024.
    - A pandas [DataFrame] is its index and its ordered list of labelled
      columns; a column ([Series]) carries its dtype name, its categories
      (for a categorical column) and its cells.
    - A function that can raise returns [res]; a function that also logs
      returns [M], which pairs the records logged so far with the outcome.
    - pandas is the one of the 1.x and 2.x releases: an in-place [fillna] on
      [df[column]] updates the frame. *)

From Stdlib Require Import ZArith String Ascii List SpecFloat.
From stdpp Require Import base gmap sets list strings pretty.

Open Scope string_scope.
Open Scope list_scope.
Open Scope Z_scope.

(** ** Python values, exceptions and logging *)

Module Py.

(** The cells of a table: [None], [NaT], booleans, integers, floats (the
    float NaN is [S754_nan]), strings, time stamps (nanoseconds since the
    epoch), and the list of tokens held by the ['Affiliation List'] column. *)
Inductive value :=
  | VNone
  | VNaT
  | VBool (b : bool)
  | VInt (n : Z)
  | VFloat (f : spec_float)
  | VStr (s : string)
  | VTimestamp (ns : Z)
  | VList (l : list string).

#[export] Instance value_inhabited : Inhabited value := populate VNone.

#[export] Instance spec_float_eq_dec : EqDecision spec_float.
Proof. solve_decision. Defined.

#[export] Instance value_eq_dec : EqDecision value.
Proof. solve_decision. Defined.

Inductive exn :=
  | KeyError (labels : list string)
  | AttributeError (name : string)
  | TypeError (msg : string)
  | ValueError (msg : string).

Inductive res (A : Type) :=
  | Ok (a : A)
  | Raise (e : exn).
Arguments Ok {A} a.
Arguments Raise {A} e.

#[export] Instance res_ret : MRet res := fun A a => Ok a.
#[export] Instance res_bind : MBind res := fun A B f m =>
  match m with
  | Ok a => f a
  | Raise e => Raise e
  end.

(** [[f(x) for x in xs]], stopping at the first exception. *)
Fixpoint map_res {A B} (f : A -> res B) (xs : list A) : res (list B) :=
  match xs with
  | [] => Ok []
  | x :: xs' => y ← f x; ys ← map_res f xs'; mret (y :: ys)
  end.

Inductive level := INFO | WARNING | ERROR.

Definition log_record : Type := level * string.

(** A computation that logs and may raise. *)
Definition M (A : Type) : Type := list log_record * res A.

#[export] Instance M_ret : MRet M := fun A a => ([], Ok a).
#[export] Instance M_bind : MBind M := fun A B f m =>
  match m with
  | (l, Ok a) => let '(l', r) := f a in (l ++ l', r)
  | (l, Raise e) => (l, Raise e)
  end.

Definition lift {A} (r : res A) : M A := ([], r).
Definition logging_info (msg : string) : M unit := ([(INFO, msg)], Ok tt).
Definition logging_error (msg : string) : M unit := ([(ERROR, msg)], Ok tt).

(** *** Strings *)

Definition nl : ascii := ascii_of_nat 10.
Definition NL : string := String nl EmptyString.

(** [s.replace(a, b)] for one-character [a] and [b]. *)
Fixpoint str_replace (a b : ascii) (s : string) : string :=
  match s with
  | EmptyString => EmptyString
  | String c s' => String (if decide (c = a) then b else c) (str_replace a b s')
  end.

(** [s.replace(a, '')] for a one-character [a]. *)
Fixpoint str_remove (a : ascii) (s : string) : string :=
  match s with
  | EmptyString => EmptyString
  | String c s' =>
      if decide (c = a) then str_remove a s' else String c (str_remove a s')
  end.

(** [s.split(sep)] for a one-character [sep]: one more piece than there are
    separators, empty pieces kept. *)
Fixpoint str_split (sep : ascii) (s : string) : list string :=
  match s with
  | EmptyString => [EmptyString]
  | String c s' =>
      if decide (c = sep) then EmptyString :: str_split sep s'
      else match str_split sep s' with
           | [] => [String c EmptyString]
           | p :: ps => String c p :: ps
           end
  end.

(** [sep.join(ps)]. *)
Fixpoint str_join (sep : ascii) (ps : list string) : string :=
  match ps with
  | [] => EmptyString
  | [p] => p
  | p :: ps' => p +:+ String sep (str_join sep ps')
  end.

(** [str.isspace] on a code point below 256: tab, line feed, vertical tab,
    form feed, carriage return, the separators 28 to 31, space, next line
    (133) and no-break space (160). *)
Definition is_space (c : ascii) : bool :=
  let n := nat_of_ascii c in
  ((9 <=? n) && (n <=? 13) || (28 <=? n) && (n <=? 32)
   || (n =? 133) || (n =? 160))%nat.

Fixpoint lstrip_chars (s : list ascii) : list ascii :=
  match s with
  | c :: s' => if is_space c then lstrip_chars s' else s
  | [] => []
  end.

(** [s.strip()]. *)
Definition str_strip (s : string) : string :=
  string_of_list_ascii
    (rev (lstrip_chars (rev (lstrip_chars (list_ascii_of_string s))))).

(** The whitespace [float] drops around a number: the whitespace of C
    (tab to carriage return, and space) and the whitespace above 127, which
    it reads as a space; the separators 28 to 31 are no whitespace for
    it. *)
Definition is_float_space (c : ascii) : bool :=
  let n := nat_of_ascii c in
  ((9 <=? n) && (n <=? 13) || (n =? 32) || (n =? 133) || (n =? 160))%nat.

Fixpoint float_lstrip (s : list ascii) : list ascii :=
  match s with
  | c :: s' => if is_float_space c then float_lstrip s' else s
  | [] => []
  end.

Definition float_strip (s : string) : list ascii :=
  rev (float_lstrip (rev (float_lstrip (list_ascii_of_string s)))).

(** *** Floats *)

Definition prec : Z := 53.
Definition emax : Z := 1024.

Definition float_zero : spec_float := S754_zero false.

Definition is_nan (f : spec_float) : bool :=
  match f with S754_nan => true | _ => false end.

Definition is_digit (c : ascii) : bool :=
  let n := nat_of_ascii c in ((48 <=? n) && (n <=? 57))%nat.

Definition digit_val (c : ascii) : Z := Z.of_nat (nat_of_ascii c) - 48.

Definition underscore : ascii := "_"%char.

(** The rest of a [digitpart ::= digit (["_"] digit)*] after its first
    digit: the number read so far, how many digits it has, what is left. *)
Fixpoint digits_loop (acc : Z) (n : Z) (s : list ascii) : Z * Z * list ascii :=
  match s with
  | c :: s' =>
      if is_digit c then digits_loop (10 * acc + digit_val c) (n + 1) s'
      else if decide (c = underscore) then
        match s' with
        | d :: s'' =>
            if is_digit d then digits_loop (10 * acc + digit_val d) (n + 1) s''
            else (acc, n, s)
        | [] => (acc, n, s)
        end
      else (acc, n, s)
  | [] => (acc, n, s)
  end.

Definition digitpart (acc : Z) (s : list ascii) : option (Z * Z * list ascii) :=
  match s with
  | c :: s' => if is_digit c then Some (digits_loop (10 * acc + digit_val c) 1 s') else None
  | [] => None
  end.

(** [number ::= [digitpart] "." digitpart | digitpart ["."]]: the digits as
    one integer, the number of digits after the point, what is left. *)
Definition number (s : list ascii) : option (Z * Z * list ascii) :=
  match digitpart 0 s with
  | Some (m, _, r1) =>
      match r1 with
      | "."%char :: r2 =>
          match digitpart m r2 with
          | Some (m', k, r3) => Some (m', k, r3)
          | None => Some (m, 0, r2)
          end
      | _ => Some (m, 0, r1)
      end
  | None =>
      match s with
      | "."%char :: r2 => digitpart 0 r2
      | _ => None
      end
  end.

Definition sign (s : list ascii) : bool * list ascii :=
  match s with
  | "+"%char :: r => (false, r)
  | "-"%char :: r => (true, r)
  | _ => (false, s)
  end.

(** [exponent ::= ("e" | "E") [sign] digitpart], up to the end of the text;
    no exponent is the exponent 0. *)
Definition exponent (s : list ascii) : option Z :=
  match s with
  | [] => Some 0
  | c :: r =>
      if bool_decide (c = "e"%char) || bool_decide (c = "E"%char) then
        let '(neg, r') := sign r in
        match digitpart 0 r' with
        | Some (e, _, []) => Some (if neg then - e else e)
        | _ => None
        end
      else None
  end.

(** The binary64 number nearest to [m * 10 ^ e] (ties to even). *)
Definition float_of_decimal (neg : bool) (m : Z) (e : Z) : spec_float :=
  match m with
  | Zpos p =>
      if 0 <=? e then binary_normalize prec emax (cond_Zopp neg (m * 10 ^ e)) 0 neg
      else SFdiv prec emax (S754_finite neg p 0)
                           (S754_finite false (Z.to_pos (10 ^ (- e))) 0)
  | _ => S754_zero neg
  end.

Definition lower (c : ascii) : ascii :=
  let n := nat_of_ascii c in
  if ((65 <=? n) && (n <=? 90))%nat then ascii_of_nat (n + 32) else c.

(** [float(s)] on a string: surrounding whitespace is dropped, then
    [[sign] (floatnumber | "inf" | "infinity" | "nan")], letters in either
    case.  [None] stands for the [ValueError] raised on any other text. *)
Definition float_of_str (s : string) : option spec_float :=
  let '(neg, body) := sign (float_strip s) in
  let word := string_of_list_ascii (lower <$> body) in
  if bool_decide (word = "inf") || bool_decide (word = "infinity") then Some (S754_infinity neg)
  else if decide (word = "nan") then Some S754_nan
  else
    match number body with
    | Some (m, k, r) =>
        match exponent r with
        | Some e => Some (float_of_decimal neg m (e - k))
        | None => None
        end
    | None => None
    end.

(** [float(n)] for an integer: the nearest binary64 number. *)
Definition float_of_int (n : Z) : spec_float := binary_normalize prec emax n 0 false.

(** *** Null tests *)

(** [pd.isna] / [pd.isnull] on a cell: [None], [NaT] and the float NaN.  A
    list is no null cell for [Series.isnull]; the functions below that test
    a single cell with [pd.isna] read columns of the input files, which hold
    no lists. *)
Definition isna (v : value) : bool :=
  match v with
  | VNone | VNaT => true
  | VFloat f => is_nan f
  | _ => false
  end.

Definition notna (v : value) : bool := negb (isna v).

End Py.
Export Py.

(** ** The part of pandas the pipeline uses *)

Module Pandas.

(** A column: the name of its dtype ([str(s.dtype)]), the categories of a
    categorical column, and its cells from the first row to the last. *)
Record Series := mkSeries {
  dtype : string;
  categories : list value;
  values : list value
}.

(** A table: the labels of its rows and its labelled columns in order.  A
    frame read from a file has one cell per row in every column and no
    label twice; a label is looked up from the left. *)
Record DataFrame := mkDataFrame {
  index : list Z;
  columns : list (string * Series)
}.

(** What Python and pandas do outside this repository, left open: how a
    value is rendered in an f-string, the dtype pandas infers for a column
    built from Python objects, the numeric coercion of the ['Age'] column,
    the equality under which [drop_duplicates] takes two keys for the same
    (the properties of de-duplication ask that it is an equivalence), and
    what [fillna] makes of the dtype of a column: the dtype the column has
    when its null cells hold the value (a float32 column filled with a text
    is an object column), or the exception raised when the column cannot
    hold it ([TypeError] for a column of nullable integers filled with a
    text, or a categorical column without the category). *)
Class Library := {
  py_str : value -> string;
  infer_dtype : list value -> string;
  to_numeric_coerce : Series -> Series;
  astype_int : Series -> res Series;
  same_key : value -> value -> bool;
  fillna_dtype : Series -> value -> res string
}.

Section WithLibrary.
Context `{!Library}.

(** An integer or a float, as numpy holds them in an array of numbers. *)
Definition numeric_cell (v : value) : bool :=
  match v with
  | VInt n => (- 2 ^ 63 <=? n) && (n <? 2 ^ 64)
  | VFloat _ => true
  | _ => false
  end.

Definition float_cell (v : value) : bool :=
  match v with
  | VFloat _ => true
  | _ => false
  end.

(** The cells pandas makes of the objects a function returned for a column
    ([Series.map], [DataFrame.apply]): integers and floats together become
    the cells of a float64 column, each integer its float; any other
    objects are held as they are. *)
Definition inferred (vs : list value) (v : value) : value :=
  if forallb numeric_cell vs && existsb float_cell vs
  then match v with VInt n => VFloat (float_of_int n) | _ => v end
  else v.

Definition infer_cells (vs : list value) : list value := inferred vs <$> vs.

Definition new_series (vs : list value) : Series :=
  {| dtype := infer_dtype vs; categories := []; values := infer_cells vs |}.

(** [df.columns] *)
Definition names (df : DataFrame) : list string := (columns df).*1.

(** [c in df.columns] *)
Definition has_column (c : string) (df : DataFrame) : bool :=
  bool_decide (c ∈ names df).

Fixpoint lookup_col (c : string) (cols : list (string * Series)) : option Series :=
  match cols with
  | [] => None
  | (c', s) :: cols' => if decide (c' = c) then Some s else lookup_col c cols'
  end.

(** [df[c]] *)
Definition getitem (df : DataFrame) (c : string) : res Series :=
  match lookup_col c (columns df) with
  | Some s => Ok s
  | None => Raise (KeyError [c])
  end.

Fixpoint assign_col (c : string) (s : Series) (cols : list (string * Series))
  : list (string * Series) :=
  match cols with
  | [] => [(c, s)]
  | (c', s') :: cols' =>
      if decide (c' = c) then (c, s) :: cols' else (c', s') :: assign_col c s cols'
  end.

(** [df[c] = s]: the column is replaced where it stands, or added last. *)
Definition setitem (df : DataFrame) (c : string) (s : Series) : DataFrame :=
  {| index := index df; columns := assign_col c s (columns df) |}.

(** [df[c] = v] for a scalar [v]: one cell per row. *)
Definition setitem_scalar (df : DataFrame) (c : string) (v : value) : DataFrame :=
  setitem df c (new_series (replicate (length (index df)) v)).

(** [df.drop(columns=labels)]: with the default [errors='raise'], a
    [KeyError] naming the labels that are not columns. *)
Definition drop (labels : list string) (df : DataFrame) : res DataFrame :=
  match filter (fun l => l ∉ names df) labels with
  | [] => Ok {| index := index df;
                columns := filter (fun cs => cs.1 ∉ labels) (columns df) |}
  | missing => Raise (KeyError missing)
  end.

(** [df.rename(columns=mapping)]: labels outside the mapping are kept. *)
Definition rename (mapping : gmap string string) (df : DataFrame) : DataFrame :=
  {| index := index df;
     columns := (fun cs => (default cs.1 (mapping !! cs.1), cs.2)) <$> columns df |}.

(** [s.map(f)] and [s.apply(f)] *)
Definition series_map (f : value -> res value) (s : Series) : res Series :=
  vs ← map_res f (values s); mret (new_series vs).

(** [s.map(f, na_action='ignore')]: a null cell is passed on as it is. *)
Definition series_map_ignore_na (f : value -> value) (s : Series) : Series :=
  new_series ((fun v => if isna v then v else f v) <$> values s).

(** [s.isnull().any()] *)
Definition isnull_any (s : Series) : bool := existsb isna (values s).

(** [s.fillna(v)]: the null cells become [v], when the column can hold
    it. *)
Definition fillna (v : value) (s : Series) : res Series :=
  dtype' ← fillna_dtype s v;
  mret {| dtype := dtype'; categories := categories s;
          values := (fun x => if isna x then v else x) <$> values s |}.

(** [s.cat.add_categories(c)] *)
Definition add_categories (c : value) (s : Series) : Series :=
  {| dtype := dtype s; categories := categories s ++ [c]; values := values s |}.

(** A row as [iterrows] and [apply(axis=1)] hand it over: the cells of the
    row under the labels of their columns. *)
Definition Row : Type := list (string * value).

Definition row_at (df : DataFrame) (i : nat) : Row :=
  (fun cs => (cs.1, values cs.2 !!! i)) <$> columns df.

(** [df.iterrows()] *)
Definition iterrows (df : DataFrame) : list (Z * Row) :=
  imap (fun i label => (label, row_at df i)) (index df).

Fixpoint lookup_cell (c : string) (row : Row) : option value :=
  match row with
  | [] => None
  | (c', v) :: row' => if decide (c' = c) then Some v else lookup_cell c row'
  end.

(** [row[c]], for a label that the row has once or not at all.  (For a
    label that two columns share pandas gives the Series of the two cells,
    on which [pd.isna(...) or ...] raises [ValueError]; here the first cell
    is read, and the properties of the selection of rows are stated for
    tables with distinct column labels.) *)
Definition row_getitem (row : Row) (c : string) : res value :=
  match lookup_cell c row with
  | Some v => Ok v
  | None => Raise (KeyError [c])
  end.

(** [row.c] *)
Definition row_getattr (row : Row) (c : string) : res value :=
  match lookup_cell c row with
  | Some v => Ok v
  | None => Raise (AttributeError c)
  end.

(** [df.apply(f, axis=1)] *)
Definition apply_rows (f : Row -> res value) (df : DataFrame) : res Series :=
  vs ← map_res f (iterrows df).*2; mret (new_series vs).

(** [s.duplicated(keep='first')]: a cell is marked when an earlier cell
    holds the same key. *)
Fixpoint duplicated_from (seen : list value) (keys : list value) : list bool :=
  match keys with
  | [] => []
  | k :: keys' => existsb (same_key k) seen :: duplicated_from (seen ++ [k]) keys'
  end.

Definition duplicated (keys : list value) : list bool := duplicated_from [] keys.

(** [xs[mask]]: the elements whose mark is set. *)
Fixpoint select {A} (mask : list bool) (xs : list A) : list A :=
  match mask, xs with
  | b :: mask', x :: xs' => if b then x :: select mask' xs' else select mask' xs'
  | _, _ => []
  end.

Definition select_rows (mask : list bool) (df : DataFrame) : DataFrame :=
  {| index := select mask (index df);
     columns := (fun cs =>
       (cs.1, {| dtype := dtype cs.2; categories := categories cs.2;
                 values := select mask (values cs.2) |})) <$> columns df |}.

(** [df.drop_duplicates(subset=c, keep='first')] *)
Definition drop_duplicates (c : string) (df : DataFrame) : res DataFrame :=
  s ← getitem df c;
  mret (select_rows (negb <$> duplicated (values s)) df).

End WithLibrary.
End Pandas.
Export Pandas.

(** ** final_clean.py *)

Module FinalClean.
Section WithLibrary.
Context `{!Library}.

Definition ISR_RECOGNITION : string :=
  "Institute for Social Research" +:+ NL +:+ "Lifetime Recognition".
Definition UM_RECOGNITION : string := "UM-Wide" +:+ NL +:+ "Lifetime Recognition".

(** The columns that [clean_and_prepare_data] drops. *)
Definition DROPPED_COLUMNS : list string :=
  ["Other Country.1"; "Other Major Gift Region.1"; "Other Primary Metro.1";
   "Other Zip.1"; "Other State.1"; "Other City.1"; "Other Address.1";
   "Other Address Incomplete?.1"; "Other Type.1"; "Other Country";
   "Other Major Gift Region"; "Other Primary Metro"; "Other Zip"; "Other State";
   "Other City"; "Other Address"; "Other Address Is Primary?";
   "Other Address Incomplete?"; "Other Type"; "Home Address Incomplete?";
   "Home Address Is Primary?"; "Work Country"; "Work Primary Metro Area";
   "Work Major Gift Region"; "Work Phone"; "Work County"; "Work Zip"; "Work State";
   "Work City"; "Work Address"; "Work Address Is Primary?"; "Work Address Incomplete?";
   "Career Level"; "Full Name"; "Title"; "First Name"; "Last/Name/Org Name";
   "Committee Name"; "Committee Role"; "Former Commitee Name"; "Former Committee Role";
   "Spouse LookupID"; "Formal Mailing Name (Joint/Individual)";
   "Informal Mailing Name (Joint/Individual)"; "Payments Received";
   "Expectancies (Balance Due)"; "Commitments (Balance Due)";
   "# of Recognition Transactions"; "Number of Years of Recognition"; "One-Time Gifts";
   "Commitments"; "Expectancies"; "A.6"; "A.7"; "A.5"; "A.4"; "A.8";
   "Payments Received.1"; "A.9"; "Commitments (Balance Due).1"; "A.10";
   "Expectancies (Balance Due).1"; "A.11"; "Last Amount"; "Last Designation";
   "# of Recognition Transactions.1"; "Number of Years of Recognition.1";
   " Campaign Recognition"; "A.12"; "One-Time Gifts.1"; "Commitments.1"; "A.13";
   "A.14"; "Expectancies.1"; "A.15"; "Last Visit/Introduction by"; "Interaction Type";
   "Job Category"; "Home Phone"; "Monteith Society"; "Primary Capacity Rating Type";
   "Primary Capacity Rating Date"; "Primary Inclination Rating Type";
   "Primary Inclination Rating Date"; "Gift Officer Field Rating";
   "Gift Officer Field Rating Date"; "Research Rating"; "Research Rating Date";
   "Capacity Verified Rating"; "Capacity Verified Rating Date";
   "Capacity Unverified Rating"; "Capacity Unverified Rating Date";
   "Blackbaud Hard Asset"; "Blackbaud Hard Asset Date"; "Wealth-X Net Worth";
   "Wealth-X Net Worth Date"; "Windfall Data Net Worth";
   "Windfall Data Net Worth Date"; "Target Analytics Net Worth";
   "Target Analytics Net Worth Date"; "PDA UM Inclination"; "UM AG Propensity";
   "Med Primary Manager"].

Definition HOME_FIELDS : list string :=
  ["Home Address"; "Home City"; "Home State"; "Home Zip"; "Home Country"].

(** [f"{row['Home Address']}, {row['Home City']}, {row['Home State']}
    {row['Home Zip']}, {row['Home Country']}"] *)
Definition format_address (row : Row) : res string :=
  a ← row_getitem row "Home Address";
  c ← row_getitem row "Home City";
  s ← row_getitem row "Home State";
  z ← row_getitem row "Home Zip";
  n ← row_getitem row "Home Country";
  mret (py_str a +:+ ", " +:+ py_str c +:+ ", " +:+ py_str s +:+ " "
        +:+ py_str z +:+ ", " +:+ py_str n).

(** [UM_donor] *)
Definition UM_donor (row : Row) : res value :=
  status ← row_getattr row "donor_status";
  take ← (if isna status
          then um ← row_getitem row UM_RECOGNITION; mret (negb (isna um))
          else mret false);
  if take : bool then mret (VStr "UM Donor") else row_getattr row "donor_status".

(** [replace]: [float] raises [ValueError] on a text that is no number. *)
Definition replace (num : value) : res value :=
  if isna num then mret (VInt 0)
  else match num with
       | VStr s =>
           let text := str_remove "$" (str_remove "," s) in
           match float_of_str text with
           | Some f => mret (VFloat f)
           | None => Raise (ValueError text)
           end
       | VBool _ | VInt _ | VFloat _ => mret num
       | _ => mret (VInt 0)
       end.

(** The two statements of [clean_and_prepare_data] on the coordinate
    columns. *)
Definition coordinate_columns (df : DataFrame) : DataFrame :=
  let df :=
    if negb (has_column "Latitude" df) || negb (has_column "Longitude" df)
    then setitem_scalar (setitem_scalar df "Latitude" VNone) "Longitude" VNone
    else df in
  if has_column "latitude" df && has_column "longitude" df
  then rename {[ "latitude" := "Latitude"; "longitude" := "Longitude" ]} df
  else df.

(** The statements of [clean_and_prepare_data] after the check of ['LID']. *)
Definition normalize_columns (df : DataFrame) : res DataFrame :=
  let df := coordinate_columns df in
  address ← apply_rows (fun x => a ← format_address x; mret (VStr a)) df;
  let df := setitem df "Primary Address" address in
  isr ← getitem df ISR_RECOGNITION;
  let df := setitem df "donor_status"
              (series_map_ignore_na (fun _ => VStr "ISR Donor") isr) in
  status ← apply_rows UM_donor df;
  let df := setitem df "donor_status" status in
  status ← getitem df "donor_status";
  status ← fillna (VStr "Non Donor") status;
  let df := setitem df "donor_status" status in
  isr ← getitem df ISR_RECOGNITION;
  isr_numeric ← series_map replace isr;
  let df := setitem df "Institute for Social Research Lifetime Recognition Numeric"
              isr_numeric in
  um ← getitem df UM_RECOGNITION;
  um_numeric ← series_map replace um;
  let df := setitem df "UM-Wide Lifetime Recognition Numeric" um_numeric in
  age ← getitem df "Age";
  age ← fillna (VInt 0) (to_numeric_coerce age);
  age ← astype_int age;
  mret (setitem df "Age" age).

(** [clean_and_prepare_data] *)
Definition clean_and_prepare_data (df : DataFrame) : M DataFrame :=
  logging_info "Starting cleaning and preparing data.";;
  df ← lift (drop DROPPED_COLUMNS df);
  df ← (if has_column "Constituent LookupID" df
        then mret (rename {[ "Constituent LookupID" := "LID" ]} df)
        else logging_error "Column 'Constituent LookupID' not found in DataFrame.";;
             mret df);
  if negb (has_column "LID" df)
  then mret (rename {[ "Constituent LookupID" := "LID" ]} df)
  else lift (normalize_columns df).

(** [pd.Timestamp('1900-01-01')]: 25567 days before the epoch. *)
Definition TIMESTAMP_1900 : value := VTimestamp (- 25567 * 86400 * 1000000000).

Definition NOT_AVAILABLE : value := VStr "Not Available".

Definition fill_values : gmap string value :=
  {[ "object" := NOT_AVAILABLE;
     "float64" := VFloat float_zero;
     "int64" := VInt 0;
     "datetime64[ns]" := TIMESTAMP_1900;
     "bool" := VBool false;
     "category" := NOT_AVAILABLE ]}.

(** [fill_values.get(dtype, 'Not Available')] *)
Definition fill_value_of (dtype : string) : value :=
  default NOT_AVAILABLE (fill_values !! dtype).

(** The body of the loop of [fill_missing_values]. *)
Definition fill_column (df : DataFrame) (column : string) : M DataFrame :=
  s ← lift (getitem df column);
  let dtype := dtype s in
  if isnull_any s then
    let fill_value := fill_value_of dtype in
    df ← (if bool_decide (dtype = "category")
             && negb (bool_decide (NOT_AVAILABLE ∈ categories s))
          then s ← lift (getitem df column);
               mret (setitem df column (add_categories NOT_AVAILABLE s))
          else mret df);
    s ← lift (getitem df column);
    s ← lift (fillna fill_value s);
    let df := setitem df column s in
    logging_info ("Filled missing values in " +:+ column +:+ " with "
                  +:+ py_str fill_value);;
    mret df
  else
    logging_info ("No missing values to fill in " +:+ column);;
    mret df.

(** [for x in xs: a = f(a, x)] *)
Fixpoint for_each {A B} (f : A -> B -> M A) (a : A) (xs : list B) : M A :=
  match xs with
  | [] => mret a
  | x :: xs' => a' ← f a x; for_each f a' xs'
  end.

(** [fill_missing_values] *)
Definition fill_missing_values (df : DataFrame) : M DataFrame :=
  for_each fill_column df (names df).

(** [clean_affiliations], the function local to
    [create_affiliation_columns]; [list(set(...))] lists the set in an order
    of its own. *)
Definition clean_affiliations (affiliation : value) : res value :=
  if isna affiliation then mret (VList [])
  else match affiliation with
       | VStr s =>
           let tokens : gset string :=
             list_to_set (str_split "," (str_replace nl "," s)) in
           mret (VList (elements tokens))
       | VTimestamp _ => Raise (ValueError "replace")
       | _ => Raise (AttributeError "replace")
       end.

(** [all_affiliations.update(affil_list)] *)
Definition update (all_affiliations : gset string) (affil_list : value)
  : res (gset string) :=
  match affil_list with
  | VList l => mret (all_affiliations ∪ list_to_set l)
  | _ => Raise (TypeError "update")
  end.

(** [affil in x] *)
Definition contains (affil : string) (x : value) : res value :=
  match x with
  | VList l => mret (VBool (bool_decide (affil ∈ l)))
  | _ => Raise (TypeError "in")
  end.

Fixpoint fold_res {A B} (f : A -> B -> res A) (a : A) (xs : list B) : res A :=
  match xs with
  | [] => mret a
  | x :: xs' => a' ← f a x; fold_res f a' xs'
  end.

Definition AFFILIATION_PREFIX : string := "Affiliation: ".

(** [df[f'Affiliation: {affil}'] = df['Affiliation List'].apply(lambda x:
    affil in x)] *)
Definition add_affiliation_column (df : DataFrame) (affil : string) : res DataFrame :=
  lists ← getitem df "Affiliation List";
  flags ← series_map (contains affil) lists;
  mret (setitem df (AFFILIATION_PREFIX +:+ affil) flags).

(** [create_affiliation_columns] *)
Definition create_affiliation_columns (df : DataFrame) : M (DataFrame * gset string) :=
  if negb (has_column "Constituent Affiliation" df) then
    logging_error "Constituent Affiliation column missing.";;
    mret (df, ∅)
  else
    lift (raw ← getitem df "Constituent Affiliation";
          lists ← series_map clean_affiliations raw;
          let df := setitem df "Affiliation List" lists in
          lists ← getitem df "Affiliation List";
          all_affiliations ← fold_res update ∅ (values lists);
          df ← fold_res add_affiliation_column df (elements all_affiliations);
          mret (df, all_affiliations)).

(** The new names of the two columns [merged_df_edits] renames. *)
Definition RECOGNITION_DATES : gmap string string :=
  {[ "Date of Last Recognition Transaction" :=
       "Date of Last UM Recognition Transaction";
     "Date of Last Recognition Transaction.1" :=
       "Date of Last ISR Recognition Transaction" ]}.

(** [merged_df_edits] *)
Definition merged_df_edits (merged_df : DataFrame) : res DataFrame :=
  let merged_df := rename RECOGNITION_DATES merged_df in
  drop_duplicates "LID" merged_df.

(** [row[field].strip()] *)
Definition cell_strip (v : value) : res string :=
  match v with
  | VStr s => mret (str_strip s)
  | _ => Raise (AttributeError "strip")
  end.

(** [pd.notna(row[field]) and row[field].strip() != ""] *)
Definition field_filled (row : Row) (field : string) : res bool :=
  v ← row_getitem row field;
  if notna v
  then v ← row_getitem row field; s ← cell_strip v; mret (negb (bool_decide (s = "")))
  else mret false.

(** [all(p(x) for x in xs)]: the first false ends the evaluation. *)
Fixpoint all_res {A} (p : A -> res bool) (xs : list A) : res bool :=
  match xs with
  | [] => mret true
  | x :: xs' => b ← p x; if b : bool then all_res p xs' else mret false
  end.

(** The body of the loop of [collect_addresses_to_geocode]. *)
Definition collect_row (addresses_to_geocode : gmap Z string) (item : Z * Row)
  : res (gmap Z string) :=
  let '(index, row) := item in
  latitude ← row_getitem row "Latitude";
  missing ← (if isna latitude then mret true
             else longitude ← row_getitem row "Longitude"; mret (isna longitude));
  if missing : bool then
    address ← format_address row;
    filled ← all_res (field_filled row) HOME_FIELDS;
    if filled : bool
    then mret (<[index := address]> addresses_to_geocode)
    else mret addresses_to_geocode
  else mret addresses_to_geocode.

(** [collect_addresses_to_geocode] *)
Definition collect_addresses_to_geocode (df : DataFrame) : res (gmap Z string) :=
  fold_res collect_row ∅ (iterrows df).

End WithLibrary.
End FinalClean.
Export FinalClean.

(** ** What the specification says, in the terms of the embedding *)

Module Spec.

(** The donor status of a row from its two lifetime-recognition cells. *)
Definition donor_status_of (isr um : value) : value :=
  if notna isr then VStr "ISR Donor"
  else if notna um then VStr "UM Donor"
  else VStr "Non Donor".

(** The tokens of an affiliation cell: newlines become commas, the text is
    cut at the commas, and the pieces form a set; a null cell has none. *)
Definition affiliation_tokens (v : value) : gset string :=
  match v with
  | VStr s => list_to_set (str_split "," (str_replace nl "," s))
  | _ => ∅
  end.

(** The tokens of all the cells of a column. *)
Definition all_tokens (vs : list value) : gset string :=
  ⋃ (affiliation_tokens <$> vs).

(** The cell of the ['Affiliation List'] column for an affiliation cell. *)
Definition token_list (v : value) : value := VList (elements (affiliation_tokens v)).

(** The column of the flags of a token. *)
Definition membership_flags (t : string) (vs : list value) : list value :=
  (fun v => VBool (bool_decide (t ∈ affiliation_tokens v))) <$> vs.

(** The character occurs in the text. *)
Fixpoint has_char (c : ascii) (s : string) : bool :=
  match s with
  | EmptyString => false
  | String c' s' => bool_decide (c' = c) || has_char c s'
  end.

(** A cell is text or null. *)
Definition text_or_null (v : value) : bool :=
  match v with
  | VStr _ => true
  | _ => isna v
  end.

(** A cell is non-null and non-blank after trimming whitespace. *)
Definition non_blank (v : value) : bool :=
  match v with
  | VStr s => negb (bool_decide (str_strip s = ""))
  | _ => notna v
  end.

Definition null_cell (row : Row) (c : string) : bool :=
  match lookup_cell c row with
  | Some v => isna v
  | None => false
  end.

Definition non_blank_cell (row : Row) (c : string) : bool :=
  match lookup_cell c row with
  | Some v => non_blank v
  | None => false
  end.

(** A row has the cells the selection reads, the home ones text or null. *)
Definition readable (row : Row) : Prop :=
  is_Some (lookup_cell "Latitude" row) /\ is_Some (lookup_cell "Longitude" row) /\
  Forall (fun field => exists v, lookup_cell field row = Some v /\ text_or_null v = true)
         HOME_FIELDS.

(** The row needs geocoding. *)
Definition needs_geocoding (row : Row) : bool :=
  (null_cell row "Latitude" || null_cell row "Longitude")
  && forallb (non_blank_cell row) HOME_FIELDS.

(** The columns the normalization reads. *)
Definition READ_COLUMNS : list string :=
  ISR_RECOGNITION :: UM_RECOGNITION :: "Age" :: HOME_FIELDS.

(** The labels the normalization drops, renames or sets before it reads. *)
Definition MOVED_COLUMNS : list string :=
  ["Constituent LookupID"; "LID"; "Latitude"; "Longitude"; "latitude"; "longitude"]
  ++ DROPPED_COLUMNS.

(** [replace] returns on the cell. *)
Definition parses (v : value) : Prop := exists r, replace v = Ok r.

(** The two records [clean_and_prepare_data] can log. *)
Definition START : log_record := (INFO, "Starting cleaning and preparing data.").
Definition NO_LOOKUP_ID : log_record :=
  (ERROR, "Column 'Constituent LookupID' not found in DataFrame.").

(** A cell holds a number ([bool] is a subclass of [int]). *)
Definition is_number (v : value) : bool :=
  match v with
  | VBool _ | VInt _ | VFloat _ => true
  | _ => false
  end.

(** A currency text without its thousands separators and currency signs. *)
Definition currency_digits (s : string) : string := str_remove "$" (str_remove "," s).

(** 1234.5 is 2469 / 2. *)
Definition float_1234_5 : spec_float := S754_finite false (2469 * 2 ^ 41) (-42).

(** The cell the Missing-Value Filler leaves in place of [v] in a column of
    the given dtype. *)
Definition filled_cell (dtype : string) (v : value) : value :=
  if isna v then fill_value_of dtype else v.

(** The column the Missing-Value Filler fills: a categorical column has
    the category of the default. *)
Definition prepared (s : Series) : Series :=
  if bool_decide (dtype s = "category")
     && negb (bool_decide (NOT_AVAILABLE ∈ categories s))
  then add_categories NOT_AVAILABLE s else s.

(** The column the Missing-Value Filler leaves in place of [s], when the
    column can hold the default of its dtype. *)
Definition filled_series `{!Library} (s : Series) : res Series :=
  if isnull_any s then fillna (fill_value_of (dtype s)) (prepared s) else Ok s.

(** A labelled column after the Missing-Value Filler. *)
Definition filled_column `{!Library} (cs : string * Series)
  : res (string * Series) :=
  s ← filled_series cs.2; mret (cs.1, s).

(** The position in [mask] of its [j]-th set mark. *)
Fixpoint nth_set (mask : list bool) (j : nat) : option nat :=
  match mask with
  | [] => None
  | true :: mask' =>
      match j with
      | O => Some O
      | S j' => S <$> nth_set mask' j'
      end
  | false :: mask' => S <$> nth_set mask' j
  end.

End Spec.
Export Spec.

(** ** A library to run the model with *)

Module Sample.

Definition sample_str (v : value) : string :=
  match v with
  | VNone => "None"
  | VNaT => "NaT"
  | VBool true => "True"
  | VBool false => "False"
  | VInt n => pretty n
  | VFloat S754_nan => "nan"
  | VFloat (S754_infinity false) => "inf"
  | VFloat (S754_infinity true) => "-inf"
  | VFloat (S754_zero false) => "0.0"
  | VFloat (S754_zero true) => "-0.0"
  | VFloat (S754_finite s m e) =>
      (if s then "-" else "") +:+ pretty (Zpos m) +:+ "*2**" +:+ pretty e
  | VStr s => s
  | VTimestamp ns => "Timestamp(" +:+ pretty ns +:+ ")"
  | VList l => "[" +:+ str_join "," l +:+ "]"
  end.

Definition sample_dtype (vs : list value) : string :=
  if forallb (fun v => match v with VBool _ => true | _ => false end) vs then "bool"
  else if forallb (fun v => match v with VInt _ => true | _ => false end) vs then "int64"
  else if forallb (fun v => match v with VInt _ | VFloat _ => true | _ => false end) vs
  then "float64"
  else "object".

Definition sample_numeric (v : value) : value :=
  match v with
  | VBool _ | VInt _ | VFloat _ => v
  | VStr s => match float_of_str s with Some f => VFloat f | None => VFloat S754_nan end
  | _ => VFloat S754_nan
  end.

(** An integer as int64 holds it: modulo 2^64, from -2^63. *)
Definition wrap_int64 (n : Z) : Z := (n + 2 ^ 63) mod 2 ^ 64 - 2 ^ 63.

Definition sample_int (v : value) : res value :=
  match v with
  | VInt n => Ok (VInt (wrap_int64 n))
  | VBool b => Ok (VInt (if b then 1 else 0))
  | VFloat (S754_zero _) => Ok (VInt 0)
  | VFloat (S754_finite s m e) =>
      Ok (VInt (wrap_int64
                  (cond_Zopp s (if 0 <=? e then Zpos m * 2 ^ e else Zpos m / 2 ^ (- e)))))
  | _ => Raise (ValueError "astype")
  end.

(** The dtypes that hold a value as it is. *)
Definition sample_holds (dtype : string) (v : value) : bool :=
  if bool_decide (dtype = "object") then true
  else if bool_decide (dtype = "float64")
  then match v with VInt _ | VFloat _ => true | _ => false end
  else if bool_decide (dtype = "int64") || bool_decide (dtype = "Int64")
  then match v with VInt _ => true | _ => false end
  else if bool_decide (dtype = "datetime64[ns]")
  then match v with VTimestamp _ => true | _ => false end
  else if bool_decide (dtype = "bool") || bool_decide (dtype = "boolean")
  then match v with VBool _ => true | _ => false end
  else false.

(** [fillna]: a categorical column needs the category, a column of
    nullable integers or booleans refuses another kind of value, any other
    column that cannot hold the value becomes an object column. *)
Definition sample_fillna (s : Series) (v : value) : res string :=
  if bool_decide (dtype s = "category")
  then if bool_decide (v ∈ categories s) then Ok "category"
       else Raise (TypeError "Cannot setitem on a Categorical with a new category")
  else if sample_holds (dtype s) v then Ok (dtype s)
  else if bool_decide (dtype s = "Int64") || bool_decide (dtype s = "boolean")
  then Raise (TypeError ("Invalid value '" +:+ sample_str v +:+ "' for dtype "
                         +:+ dtype s))
  else Ok "object".

#[export] Instance sample_library : Library := {|
  py_str := sample_str;
  infer_dtype := sample_dtype;
  to_numeric_coerce := fun s =>
    {| dtype := "float64"; categories := []; values := sample_numeric <$> values s |};
  astype_int := fun s =>
    vs ← map_res sample_int (values s);
    mret {| dtype := "int64"; categories := []; values := vs |};
  same_key := fun x y => bool_decide (x = y);
  fillna_dtype := sample_fillna
|}.

Definition object_column (vs : list value) : Series :=
  {| dtype := "object"; categories := []; values := vs |}.

(** Two constituents of an export whose unused columns are already gone. *)
Definition constituents : DataFrame :=
  {| index := [0; 1; 2];
     columns :=
       [("Constituent LookupID", object_column [VStr "L1"; VStr "L2"; VStr "L3"]);
        ("Home Address", object_column [VStr "426 Thompson St"; VStr " "; VNone]);
        ("Home City", object_column [VStr "Ann Arbor"; VStr "Detroit"; VStr "Flint"]);
        ("Home State", object_column [VStr "MI"; VStr "MI"; VStr "MI"]);
        ("Home Zip", object_column [VStr "48104"; VStr "48201"; VStr "48502"]);
        ("Home Country", object_column [VStr "USA"; VStr "USA"; VStr "USA"]);
        (ISR_RECOGNITION, object_column [VStr "$1,234.50"; VNone; VNone]);
        (UM_RECOGNITION, object_column [VStr "$10"; VStr "$2,000"; VNone]);
        ("Age", object_column [VInt 61; VStr "n/a"; VNone]);
        ("Constituent Affiliation",
           object_column [VStr ("Alumni" +:+ NL +:+ "Donor,Parent"); VStr "A, B"; VNone])] |}.

(** The same export before the unused columns are dropped. *)
Definition raw_export : DataFrame :=
  {| index := index constituents;
     columns := ((fun c => (c, object_column [VNone; VNone; VNone])) <$> DROPPED_COLUMNS)
                ++ columns constituents |}.

(** The export without one of the columns that are only dropped. *)
Definition export_without_manager : DataFrame :=
  {| index := index raw_export;
     columns := filter (fun cs => cs.1 <> "Med Primary Manager") (columns raw_export) |}.

(** An export without identifier column. *)
Definition anonymous_export : DataFrame :=
  {| index := index raw_export;
     columns := ((fun c => (c, object_column [VNone; VNone; VNone])) <$> DROPPED_COLUMNS)
                ++ tail (columns constituents) |}.

(** An export without identifier column whose unused columns are already
    gone. *)
Definition anonymous_rows : DataFrame :=
  {| index := index constituents; columns := tail (columns constituents) |}.

(** Three constituents on their way to the geocoder: one without
    coordinates, one with coordinates, one without coordinates and without
    city. *)
Definition located : DataFrame :=
  {| index := [0; 1; 2];
     columns :=
       [("Latitude", object_column [VNone; VFloat float_1234_5; VNone]);
        ("Longitude", object_column [VNone; VFloat float_1234_5; VNone]);
        ("Home Address",
           object_column [VStr "426 Thompson St"; VStr "1 Main St"; VStr "2 Main St"]);
        ("Home City", object_column [VStr "Ann Arbor"; VStr "Detroit"; VStr "  "]);
        ("Home State", object_column [VStr "MI"; VStr "MI"; VStr "MI"]);
        ("Home Zip", object_column [VStr "48104"; VStr "48201"; VStr "48502"]);
        ("Home Country", object_column [VStr "USA"; VStr "USA"; VStr "USA"])] |}.

(** Two constituents whose affiliations differ by a space. *)
Definition affiliated : DataFrame :=
  {| index := [0; 1];
     columns := [("Constituent Affiliation", object_column [VStr "A, B"; VStr "B"])] |}.

(** Three rows for two constituents. *)
Definition merged : DataFrame :=
  {| index := [0; 1; 2];
     columns :=
       [("LID", object_column [VStr "L1"; VStr "L2"; VStr "L1"]);
        ("Age", object_column [VInt 61; VInt 40; VInt 16]);
        ("Date of Last Recognition Transaction",
           object_column [VStr "2023-05-01"; VNone; VStr "2024-01-15"])] |}.

(** Two constituents with numbers for identifiers, one of them missing. *)
Definition numbered : DataFrame :=
  {| index := [0; 1];
     columns :=
       [("LID", {| dtype := "float64"; categories := [];
                   values := [VFloat float_zero; VFloat S754_nan] |});
        ("Age", {| dtype := "int64"; categories := [];
                   values := [VInt 61; VInt 40] |})] |}.

(** A table with a column of each dtype of the fill policy, the categorical
    one without the category of the default. *)
Definition typed_table : DataFrame :=
  {| index := [0; 1];
     columns :=
       [("name", object_column [VStr "Ada"; VNone]);
        ("gift", {| dtype := "float64"; categories := [];
                    values := [VFloat S754_nan; VFloat float_1234_5] |});
        ("count", {| dtype := "int64"; categories := []; values := [VInt 3; VInt 4] |});
        ("since", {| dtype := "datetime64[ns]"; categories := [];
                     values := [VNaT; VTimestamp 0] |});
        ("active", {| dtype := "bool"; categories := [];
                      values := [VBool true; VBool false] |});
        ("tier", {| dtype := "category"; categories := [VStr "gold"];
                    values := [VStr "gold"; VFloat S754_nan] |});
        ("other", {| dtype := "float32"; categories := [];
                     values := [VFloat S754_nan; VFloat float_zero] |})] |}.

(** A table with a column of nullable integers, one of them missing. *)
Definition nullable_ages : DataFrame :=
  {| index := [0; 1];
     columns :=
       [("LID", object_column [VStr "L1"; VStr "L2"]);
        ("Age", {| dtype := "Int64"; categories := [];
                   values := [VInt 61; VNone] |})] |}.

End Sample.
Export Sample.

(** ** The rest of final_clean.py: geocoding, interests, output files *)

Module Collaborators.

(** What [geocode(address, as_featureset=False)[0]] comes to: the call or
    the indexing of an empty list of results raises, or there is a first
    result, with or without its ['location'] and the ['y'] and ['x'] of
    it. *)
Inductive geocoded :=
  | GeocodeRaises (e : string)
  | GeocodeResult (location : option (option value * option value)).

(** The ArcGIS service: the connection [GIS(api_key=...)] and [geocode]. *)
Class Geocoder := {
  GIS : string -> res unit;
  geocode : string -> geocoded
}.

(** The test a [dict] makes of a key it holds against a key it is asked
    for: the same object, or equal.  (Python's equality of cells is
    symmetric and transitive; NaN and NaT are not equal to themselves, and
    two of them are the same key only as the same object, which the cells
    of the model do not tell.) *)
Class Hashing := {
  key_eq : value -> value -> bool
}.

(** What pandas makes of a cell written with [df.at]: the cell a column of
    a dtype, with its categories, holds for a value (a float64 column holds
    the float of an integer), or the message of the exception it raises (a
    categorical column without the category, a dtype that cannot hold the
    value); and the column with one more row that has no value yet. *)
Class Setting := {
  stored : string -> list value -> value -> string + value;
  enlarged : Series -> Series
}.

End Collaborators.
Export Collaborators.

Module Output.
Section WithLibrary.
Context `{!Library} `{!Geocoder} `{!Hashing} `{!Setting}.

Definition logging_warning (msg : string) : M unit := ([(WARNING, msg)], Ok tt).

(** *** Writing coordinates back *)

(** The cells of a column after [df.at[label, c] = v]: the cell of every
    row labelled [label] is [v]. *)
Fixpoint at_cells (label : Z) (v : value) (idx : list Z) (vs : list value)
  : list value :=
  match idx, vs with
  | k :: idx', x :: vs' =>
      (if decide (k = label) then v else x) :: at_cells label v idx' vs'
  | _, _ => vs
  end.

Definition NAN : value := VFloat S754_nan.

(** The frame with [cell] in column [c] of the rows labelled [label]. *)
Definition at_write (df : DataFrame) (label : Z) (c : string) (cell : value)
  : DataFrame :=
  {| index := index df;
     columns := (fun cs =>
       if decide (cs.1 = c)
       then (cs.1, {| dtype := dtype cs.2; categories := categories cs.2;
                      values := at_cells label cell (index df) (values cs.2) |})
       else cs) <$> columns df |}.

(** [df.at[label, c] = v], for a column that keeps its dtype when the cell
    is written (as the object and float64 columns do that the pipeline has
    for the coordinates): the new frame, or the message of the exception.
    A label that is not there is added first as a last row, a column that
    is not there as a column of NaN. *)
Definition at_set (df : DataFrame) (label : Z) (c : string) (v : value)
  : string + DataFrame :=
  let df :=
    if bool_decide (label ∈ index df) then df
    else {| index := index df ++ [label];
            columns := (fun cs => (cs.1, enlarged cs.2)) <$> columns df |} in
  let df := if has_column c df then df else setitem_scalar df c NAN in
  match lookup_col c (columns df) with
  | None => inr df
  | Some s =>
      match stored (dtype s) (categories s) v with
      | inl e => inl e
      | inr cell => inr (at_write df label c cell)
      end
  end.

(** The body of the loop of [batch_geocode_addresses]: the [try] with its
    [except Exception], without the progress bar.  The latitude is written
    before the longitude is read from the result. *)
Definition geocode_address (df : DataFrame) (item : Z * string) : M DataFrame :=
  let '(index, address) := item in
  let failed (df : DataFrame) (e : string) : M DataFrame :=
    logging_error ("Geocoding failed for " +:+ address +:+ ": " +:+ e);; mret df in
  match geocode address with
  | GeocodeRaises e => failed df e
  | GeocodeResult None => failed df "'location'"
  | GeocodeResult (Some (None, _)) => failed df "'y'"
  | GeocodeResult (Some (Some y, x)) =>
      match at_set df index "Latitude" y with
      | inl e => failed df e
      | inr df =>
          match x with
          | None => failed df "'x'"
          | Some x =>
              match at_set df index "Longitude" x with
              | inl e => failed df e
              | inr df => mret df
              end
          end
      end
  end.

(** [batch_geocode_addresses], on the items of [addresses_to_geocode] in the
    order the dictionary yields them; the frame it changes in place is
    returned. *)
Definition batch_geocode_addresses (addresses_to_geocode : list (Z * string))
    (api_key : string) (df : DataFrame) : M DataFrame :=
  lift (GIS api_key);;
  for_each geocode_address df addresses_to_geocode.

(** *** Interests *)

(** A [dict] with cells for keys: its items in the order of insertion. *)
Fixpoint dict_get {V} (k : value) (d : list (value * V)) : option V :=
  match d with
  | [] => None
  | (k', v) :: d' => if key_eq k' k then Some v else dict_get k d'
  end.

(** [d[k] = v]: the value of a key that is there is replaced, a new key
    comes last. *)
Fixpoint dict_set {V} (k : value) (v : V) (d : list (value * V)) : list (value * V) :=
  match d with
  | [] => [(k, v)]
  | (k', v') :: d' =>
      if key_eq k' k then (k', v) :: d' else (k', v') :: dict_set k v d'
  end.

(** The pair [(interest_subc, int_level)]. *)
Definition interest_entry : Type := value * value.

(** The interests of a constituent: category to entry. *)
Definition interests : Type := list (value * interest_entry).

(** [hash(k)]: a list cannot be a key. *)
Definition hash_key (k : value) : res unit :=
  match k with
  | VList _ => Raise (TypeError "unhashable type: 'list'")
  | _ => Ok tt
  end.

(** [make_int_dic] *)
Definition make_int_dic (row : Row) (dic : list (value * interests))
  : res (list (value * interests)) :=
  id ← row_getitem row "LID";
  interest_cat ← row_getitem row "Interest Category";
  interest_subc ← row_getitem row "Interest Subcategory";
  int_level ← row_getitem row "Interest Level";
  hash_key id;;
  let dic := match dict_get id dic with
             | Some _ => dic
             | None => dict_set id [] dic
             end in
  hash_key interest_cat;;
  mret (dict_set id
          (dict_set interest_cat (interest_subc, int_level)
             (default [] (dict_get id dic))) dic).

(** [add_int_data]: the interests of the constituent, or the string
    ['No Known Interests']. *)
Definition add_int_data (id : value) (interest_dic : list (value * interests))
  : res (interests + value) :=
  hash_key id;;
  mret match dict_get id interest_dic with
       | Some d => inl d
       | None => inr (VStr "No Known Interests")
       end.

(** [handle_interest_data], from the table read from the interest file to
    the dictionary. *)
Definition interest_dictionary (interest_df : DataFrame)
  : res (list (value * interests)) :=
  let interest_df := rename {[ "Constituent LookupID" := "LID" ]} interest_df in
  fold_res (fun dic item => make_int_dic item.2 dic) [] (iterrows interest_df).

(** [main_df['LID'].apply(lambda id: add_int_data(id, interest_dic))]: the
    cells of the ['Interests'] column. *)
Definition interests_column (main_df : DataFrame)
    (interest_dic : list (value * interests)) : res (list (interests + value)) :=
  lids ← getitem main_df "LID";
  map_res (fun id => add_int_data id interest_dic) (values lids).

(** *** The affiliation files *)

(** [s.startswith(p)] *)
Fixpoint starts_with (p s : string) : bool :=
  match p, s with
  | EmptyString, _ => true
  | String a p', String b s' => bool_decide (a = b) && starts_with p' s'
  | String _ _, EmptyString => false
  end.

(** [s.replace(old, new)] for a non-empty [old], from the left and without
    overlap; [skip] characters of a replaced occurrence are still to pass. *)
Fixpoint replace_from (old new : string) (skip : nat) (s : string) : string :=
  match s with
  | EmptyString => EmptyString
  | String c s' =>
      match skip with
      | S n => replace_from old new n s'
      | O =>
          if starts_with old s
          then new +:+ replace_from old new (String.length old - 1) s'
          else String c (replace_from old new 0 s')
      end
  end.

Definition str_replace_all (old new s : string) : string := replace_from old new 0 s.

(** The affiliations [main] reads off the columns of the processed table:
    [columns[columns.str.startswith('Affiliation: ')]], each with
    ['Affiliation: '] replaced by nothing. *)
Definition main_affiliations (processed_data : DataFrame) : list string :=
  (fun affil => str_replace_all AFFILIATION_PREFIX "" affil)
    <$> filter (fun c => starts_with AFFILIATION_PREFIX c = true) (names processed_data).

(** [f'{affil.replace(" ", "_").replace("/", "-")}-layer.csv'] *)
Definition file_name (affil : string) : string :=
  str_replace "/" "-" (str_replace " " "_" affil) +:+ "-layer.csv".

Fixpoint ends_with_slash (s : string) : bool :=
  match s with
  | EmptyString => false
  | String c EmptyString => bool_decide (c = "/"%char)
  | String _ s' => ends_with_slash s'
  end.

(** [os.path.join(a, b)] on a POSIX system. *)
Definition path_join (a b : string) : string :=
  if starts_with "/" b then b
  else if bool_decide (a = "") || ends_with_slash a then a +:+ b
  else a +:+ "/" +:+ b.

(** What [to_csv(path, index=False)] leaves in a file: the labels and the
    cells of the columns. *)
Definition csv : Type := list (string * list value).

Definition to_csv (df : DataFrame) : csv := (fun cs => (cs.1, values cs.2)) <$> columns df.

(** [df.empty]: no row or no column. *)
Definition empty (df : DataFrame) : bool :=
  bool_decide (index df = []) || bool_decide (columns df = []).

(** [df[key]] for a column [key] of booleans: the rows whose cell is
    [True].  (A key with other cells pandas refuses, or reads as a list of
    labels.) *)
Definition getitem_mask (df : DataFrame) (key : Series) : res DataFrame :=
  mask ← map_res (fun v => match v with
                           | VBool b => Ok b
                           | _ => Raise (KeyError [py_str v])
                           end) (values key);
  mret (select_rows mask df).

(** The body of the loop of [save_affiliation_files]; the files of the
    output directory are a map from paths. *)
Definition save_affiliation_file (processed_data : DataFrame) (output_dir : string)
    (files : gmap string csv) (affil : string) : M (gmap string csv) :=
  let column_name := AFFILIATION_PREFIX +:+ affil in
  if has_column column_name processed_data then
    sub_df ← lift (key ← getitem processed_data column_name;
                   getitem_mask processed_data key);
    if negb (empty sub_df) then
      let filename := file_name affil in
      let files := <[path_join output_dir filename := to_csv sub_df]> files in
      logging_info ("Affiliation file for " +:+ affil +:+ " created.");;
      mret files
    else mret files
  else
    logging_warning ("Column " +:+ column_name +:+ " does not exist in the DataFrame.");;
    mret files.

(** [save_affiliation_files] *)
Definition save_affiliation_files (processed_data : DataFrame)
    (affiliations : list string) (output_dir : string) (files : gmap string csv)
  : M (gmap string csv) :=
  for_each (save_affiliation_file processed_data output_dir) files affiliations.

End WithLibrary.
End Output.
Export Output.

(** ** More of the specification's vocabulary *)

Module SpecMore.

(** The columns [clean_and_prepare_data] sets. *)
Definition SET_COLUMNS : list string :=
  ["Latitude"; "Longitude"; "Primary Address"; "donor_status";
   "Institute for Social Research Lifetime Recognition Numeric";
   "UM-Wide Lifetime Recognition Numeric"; "Age"].

(** Between two frames only cells of the coordinate columns differ, and
    only in rows with one of the labels. *)
Definition coordinates_only (labels : list Z) (df out : DataFrame) : Prop :=
  index out = index df /\
  names out = names df /\
  (forall c, c <> "Latitude" -> c <> "Longitude" ->
     lookup_col c (columns out) = lookup_col c (columns df)) /\
  (forall c s, lookup_col c (columns df) = Some s ->
     exists s', lookup_col c (columns out) = Some s' /\
       dtype s' = dtype s /\ categories s' = categories s /\
       length (values s') = length (values s) /\
       forall i label, index df !! i = Some label -> label ∉ labels ->
         values s' !! i = values s !! i).

(** The coordinates of a row after its address went to the geocoder, from
    the coordinates [old] it had: both as they were when the lookup fails,
    has no latitude, or the latitude is refused by its column; the new
    latitude beside the old longitude when the result has no longitude, or
    the longitude is refused. *)
Definition geocoded_cells `{!Geocoder} `{!Setting} (lat lon : Series)
    (address : string) (old : value * value) : value * value :=
  match geocode address with
  | GeocodeResult (Some (Some y, x)) =>
      match stored (dtype lat) (categories lat) y with
      | inl _ => old
      | inr cy =>
          match x with
          | None => (cy, old.2)
          | Some x =>
              match stored (dtype lon) (categories lon) x with
              | inl _ => (cy, old.2)
              | inr cx => (cy, cx)
              end
          end
      end
  | _ => old
  end.

(** The cells of an interest row that [make_int_dic] reads: the
    constituent, the category, and the pair of subcategory and level. *)
Definition interest_row (row : Row) : option (value * value * (value * value)) :=
  id ← lookup_cell "LID" row;
  interest_cat ← lookup_cell "Interest Category" row;
  interest_subc ← lookup_cell "Interest Subcategory" row;
  int_level ← lookup_cell "Interest Level" row;
  Some (id, interest_cat, (interest_subc, int_level)).

(** What a row of the interest file says of a constituent and a category:
    its subcategory and level, when the row is about them. *)
Definition interest_of `{!Hashing} (id cat : value) (row : Row)
  : option (value * value) :=
  match interest_row row with
  | Some (k, c, e) => if key_eq k id && key_eq c cat then Some e else None
  | None => None
  end.

(** A row of the interest file has the four cells, with a constituent and a
    category that can be keys and are equal to themselves. *)
Definition keyed `{!Hashing} (row : Row) : Prop :=
  exists k c e,
    interest_row row = Some (k, c, e) /\
    hash_key k = Ok tt /\ hash_key c = Ok tt /\
    key_eq k k = true /\ key_eq c c = true.

(** The rows of the interest file under the labels [handle_interest_data]
    reads them with. *)
Definition interest_rows `{!Library} (interest_df : DataFrame) : list Row :=
  (iterrows (rename {[ "Constituent LookupID" := "LID" ]} interest_df)).*2.

(** [p in s] *)
Fixpoint occurs (p s : string) : bool :=
  starts_with p s ||
  match s with
  | EmptyString => false
  | String _ s' => occurs p s'
  end.

(** The file [save_affiliation_files] writes for an affiliation: the rows
    of the table flagged [True] in the column of the affiliation, when the
    column is there and flags a row. *)
Definition affiliation_file (processed_data : DataFrame) (affil : string)
  : option csv :=
  key ← lookup_col (AFFILIATION_PREFIX +:+ affil) (columns processed_data);
  let sub_df :=
    select_rows ((fun v => bool_decide (v = VBool true)) <$> values key)
                processed_data in
  if empty sub_df then None else Some (to_csv sub_df).

(** The cells of a column are booleans. *)
Definition flags (key : Series) : Prop :=
  Forall (fun v => exists b, v = VBool b) (values key).

(** Every column has a cell for every row. *)
Definition rectangular (df : DataFrame) : Prop :=
  Forall (fun cs => length (values cs.2) = length (index df)) (columns df).

End SpecMore.
Export SpecMore.

(** ** More tables to run the model on *)

Module SampleMore.

(** The table [clean_and_prepare_data] makes of the export. *)
Definition normalized_export : DataFrame :=
  match (clean_and_prepare_data raw_export).2 with
  | Ok df => df
  | Raise _ => raw_export
  end.


End SampleMore.
Export SampleMore.

Module SampleGeocoding.

(** A constituent without coordinates whose zip code is a number. *)
Definition numeric_zip : DataFrame :=
  {| index := [7];
     columns :=
       [("Latitude", object_column [VNone]);
        ("Longitude", object_column [VNone]);
        ("Home Address", object_column [VStr "426 Thompson St"]);
        ("Home City", object_column [VStr "Ann Arbor"]);
        ("Home State", object_column [VStr "MI"]);
        ("Home Zip", object_column [VInt 48104]);
        ("Home Country", object_column [VStr "USA"])] |}.

End SampleGeocoding.
Export SampleGeocoding.

(** ** Services to run the model with *)

Module SampleServices.

Definition THOMPSON : string := "426 Thompson St, Ann Arbor, MI 48104, USA".
Definition MAIN : string := "1 Main St, Detroit, MI 48201, USA".

(** A geocoder that knows one address, answers another without ['x'], and
    finds nothing else. *)
#[export] Instance sample_geocoder : Geocoder := {|
  GIS := fun _ => Ok tt;
  geocode := fun address =>
    if bool_decide (address = THOMPSON)
    then GeocodeResult (Some (Some (VFloat float_1234_5), Some (VFloat float_zero)))
    else if bool_decide (address = MAIN)
    then GeocodeResult (Some (Some (VFloat float_1234_5), None))
    else GeocodeRaises "list index out of range"
|}.

(** Equality of cells; the NaN of the cells is one object. *)
#[export] Instance sample_hashing : Hashing := {|
  key_eq := fun x y => bool_decide (x = y)
|}.

#[export] Instance sample_setting : Setting := {|
  stored := fun dtype categories v =>
    if bool_decide (dtype = "category") && negb (bool_decide (v ∈ categories))
    then inl "Cannot setitem on a Categorical with a new category"
    else if bool_decide (dtype = "float64")
    then match v with
         | VInt n => inr (VFloat (binary_normalize prec emax n 0 false))
         | VFloat _ => inr v
         | _ => inl "Invalid value for dtype float64"
         end
    else inr v;
  enlarged := fun s =>
    {| dtype := dtype s; categories := categories s;
       values := values s ++ [VFloat S754_nan] |}
|}.

(** The interest file: two interests of one constituent in one category,
    one of another. *)
Definition interest_file : DataFrame :=
  {| index := [0; 1; 2];
     columns :=
       [("Constituent LookupID", object_column [VStr "L1"; VStr "L2"; VStr "L1"]);
        ("Interest Category", object_column [VStr "Health"; VStr "Arts"; VStr "Health"]);
        ("Interest Subcategory",
           object_column [VStr "Aging"; VStr "Music"; VStr "Nutrition"]);
        ("Interest Level", object_column [VStr "High"; VStr "Low"; VStr "Medium"])] |}.

(** A constituent with interests on file and one without. *)
Definition interested : DataFrame :=
  {| index := [0; 1];
     columns := [("LID", object_column [VStr "L1"; VStr "L3"])] |}.

(** A processed table with three affiliations, one of them of nobody. *)
Definition flagged : DataFrame :=
  {| index := [0; 1; 2];
     columns :=
       [("LID", object_column [VStr "L1"; VStr "L2"; VStr "L3"]);
        ("Affiliation: Alumni",
           {| dtype := "bool"; categories := [];
              values := [VBool true; VBool false; VBool true] |});
        ("Affiliation: Big Donor",
           {| dtype := "bool"; categories := [];
              values := [VBool false; VBool false; VBool false] |});
        ("Affiliation: A/B",
           {| dtype := "bool"; categories := [];
              values := [VBool false; VBool true; VBool false] |})] |}.

End SampleServices.
Export SampleServices.

(** ** Properties *)

(** *** Currency parsing *)

(** C3, as the code has it: [replace] returns 0 for a null input and for a
    time stamp, which is neither text nor a number; for a text it drops the
    commas and dollar signs and returns [float] of the rest, which raises
    [ValueError] when the rest is not a number; a number is returned as it
    is.  [replace("$1,234.50")] is 1234.5, [replace(None)] is 0 and
    [replace(42)] is 42. *)
Theorem replace_currency (num : value) :
  (isna num = true -> replace num = Ok (VInt 0)) /\
  (forall s, num = VStr s ->
     replace num = match float_of_str (currency_digits s) with
                   | Some f => Ok (VFloat f)
                   | None => Raise (ValueError (currency_digits s))
                   end) /\
  (isna num = false -> is_number num = true -> replace num = Ok num) /\
  (forall ns, num = VTimestamp ns -> replace num = Ok (VInt 0)) /\
  replace (VStr "$1,234.50") = Ok (VFloat float_1234_5) /\
  replace VNone = Ok (VInt 0) /\
  replace (VInt 42) = Ok (VInt 42).
Proof.
  repeat split.
  - intros Hna. unfold replace. by rewrite Hna.
  - intros s ->. reflexivity.
  - intros Hna Hnum. unfold replace. rewrite Hna.
    destruct num; simpl in Hnum; done.
  - by intros ns ->.
Qed.

Lemma replace_currency_witness :
  replace (VTimestamp 0) = Ok (VInt 0) /\ replace (VBool true) = Ok (VBool true).
Proof.
  split.
  - exact (proj1 (proj2 (proj2 (proj2 (replace_currency (VTimestamp 0))))) 0 eq_refl).
  - exact (proj1 (proj2 (proj2 (replace_currency (VBool true)))) eq_refl eq_refl).
Defined.

(** C3 as the specification words it fails: a text that is no number is not
    turned into 0, [float] raises [ValueError] on it. *)
Lemma replace_unparseable_raises :
  float_of_str (currency_digits "N/A") = None /\
  replace (VStr "N/A") = Raise (ValueError "N/A") /\
  replace (VStr "N/A") <> Ok (VInt 0).
Proof. repeat split. discriminate. Qed.

(** *** Exceptions and tables: basic facts *)

Section Facts.
Context `{!Library}.

Lemma bind_Ok {A B} (m : res A) (f : A -> res B) (b : B) :
  m ≫= f = Ok b -> exists a, m = Ok a /\ f a = Ok b.
Proof. destruct m as [a|e]; simpl; [eauto | discriminate]. Qed.

Lemma map_res_Ok {A B} (f : A -> res B) (xs : list A) (ys : list B) :
  map_res f xs = Ok ys -> Forall2 (fun x y => f x = Ok y) xs ys.
Proof.
  revert ys. induction xs as [|x xs IH]; intros ys Hmap; simpl in Hmap.
  - injection Hmap as <-. constructor.
  - apply bind_Ok in Hmap as (y & Hy & Hmap).
    apply bind_Ok in Hmap as (ys' & Hys & Hmap).
    injection Hmap as <-. constructor; auto.
Qed.

Lemma map_res_total {A B} (f : A -> res B) (g : A -> B) (xs : list A) :
  Forall (fun x => f x = Ok (g x)) xs -> map_res f xs = Ok (g <$> xs).
Proof.
  induction 1 as [|x xs Hx _ IH]; simpl; [done|].
  by rewrite Hx, IH.
Qed.

Lemma map_res_Raise {A B} (f : A -> res B) (xs : list A) :
  Exists (fun x => exists e, f x = Raise e) xs -> exists e, map_res f xs = Raise e.
Proof.
  induction 1 as [x xs [e Hx]|x xs _ [e IH]]; simpl.
  - rewrite Hx. by exists e.
  - destruct (f x) as [y|e']; simpl; [|by exists e'].
    rewrite IH. by exists e.
Qed.

Lemma lookup_col_Some c cols s : lookup_col c cols = Some s -> (c, s) ∈ cols.
Proof.
  induction cols as [|[c' s'] cols IH]; simpl; [done|].
  destruct (decide (c' = c)) as [->|Hne].
  - intros [= ->]. left.
  - intros Hs. right. auto.
Qed.

Lemma lookup_col_None c cols : lookup_col c cols = None <-> c ∉ cols.*1.
Proof.
  induction cols as [|[c' s'] cols IH]; simpl.
  - split; [intros _; apply not_elem_of_nil | done].
  - rewrite not_elem_of_cons. destruct (decide (c' = c)) as [->|Hne].
    + split; [done | intros [? _]; done].
    + rewrite IH. split; [intros ?; split; [congruence | done] | intros [_ ?]; done].
Qed.

Lemma lookup_col_elem c cols : c ∈ cols.*1 -> exists s, lookup_col c cols = Some s.
Proof.
  intros Hin. destruct (lookup_col c cols) as [s|] eqn:Hs; [eauto|].
  by apply lookup_col_None in Hs.
Qed.

Lemma lookup_assign_eq c s cols : lookup_col c (assign_col c s cols) = Some s.
Proof.
  induction cols as [|[c' s'] cols IH]; simpl.
  - by rewrite decide_True.
  - destruct (decide (c' = c)) as [->|Hne]; simpl.
    + by rewrite decide_True.
    + by rewrite decide_False.
Qed.

Lemma lookup_assign_ne c c' s cols :
  c <> c' -> lookup_col c' (assign_col c s cols) = lookup_col c' cols.
Proof.
  intros Hne. induction cols as [|[c0 s0] cols IH]; simpl.
  - by rewrite decide_False.
  - destruct (decide (c0 = c)) as [->|Hne0]; simpl.
    + by rewrite !decide_False.
    + destruct (decide (c0 = c')); auto.
Qed.

Lemma names_assign c s cols x :
  x ∈ (assign_col c s cols).*1 <-> x = c \/ x ∈ cols.*1.
Proof.
  induction cols as [|[c' s'] cols IH]; simpl.
  - rewrite list_elem_of_singleton. split; [auto | intros [?|?%elem_of_nil]; done].
  - destruct (decide (c' = c)) as [->|Hne]; simpl.
    + rewrite !elem_of_cons. tauto.
    + rewrite !elem_of_cons, IH. tauto.
Qed.

Lemma assign_col_app_fresh c s s' pre post :
  c ∉ pre.*1 ->
  assign_col c s' (pre ++ (c, s) :: post) = pre ++ (c, s') :: post.
Proof.
  induction pre as [|[c0 s0] pre IH]; simpl; intros Hfresh.
  - by rewrite decide_True.
  - apply not_elem_of_cons in Hfresh as [Hne Hfresh].
    rewrite decide_False by done. by rewrite IH.
Qed.

Lemma lookup_col_app_fresh c s pre post :
  c ∉ pre.*1 -> lookup_col c (pre ++ (c, s) :: post) = Some s.
Proof.
  induction pre as [|[c0 s0] pre IH]; simpl; intros Hfresh.
  - by rewrite decide_True.
  - apply not_elem_of_cons in Hfresh as [Hne Hfresh].
    rewrite decide_False by done. auto.
Qed.

Lemma lookup_col_fmap (g : Series -> Series) c cols :
  lookup_col c ((fun cs => (cs.1, g cs.2)) <$> cols) = g <$> lookup_col c cols.
Proof.
  induction cols as [|[c' s] cols IH]; simpl; [done|].
  destruct (decide (c' = c)); [done | exact IH].
Qed.

Lemma lookup_col_rename_fixed (mapping : gmap string string) k cols :
  (forall c, default c (mapping !! c) = k <-> c = k) ->
  lookup_col k ((fun cs => (default cs.1 (mapping !! cs.1), cs.2)) <$> cols) =
  lookup_col k cols.
Proof.
  intros Hfixed. induction cols as [|[c s] cols IH]; simpl; [done|].
  destruct (decide (c = k)) as [->|Hne].
  - rewrite decide_True; [done | by apply Hfixed].
  - rewrite decide_False; [done | by rewrite Hfixed].
Qed.

Lemma getitem_Ok df c s : getitem df c = Ok s <-> lookup_col c (columns df) = Some s.
Proof.
  unfold getitem. destruct (lookup_col c (columns df)); split; congruence.
Qed.

Lemma getitem_setitem_eq df c s : getitem (setitem df c s) c = Ok s.
Proof. unfold getitem, setitem; simpl. by rewrite lookup_assign_eq. Qed.

Lemma getitem_setitem_ne df c c' s :
  c <> c' -> getitem (setitem df c s) c' = getitem df c'.
Proof. intros Hne. unfold getitem, setitem; simpl. by rewrite lookup_assign_ne. Qed.

Lemma has_column_true c df : has_column c df = true <-> c ∈ names df.
Proof. unfold has_column. apply bool_decide_eq_true. Qed.

Lemma has_column_false c df : has_column c df = false <-> c ∉ names df.
Proof. unfold has_column. apply bool_decide_eq_false. Qed.

Lemma lookup_cell_row_at df c i :
  lookup_cell c (row_at df i) = (fun s => values s !!! i) <$> lookup_col c (columns df).
Proof.
  unfold row_at. induction (columns df) as [|[c' s'] cols IH]; simpl; [done|].
  destruct (decide (c' = c)); [done | apply IH].
Qed.

Lemma iterrows_lookup df i label :
  index df !! i = Some label -> iterrows df !! i = Some (label, row_at df i).
Proof. intros Hi. unfold iterrows. by rewrite list_lookup_imap, Hi. Qed.

(** A cell that is no integer is held as it is. *)
Lemma inferred_other vs v : (forall n, v <> VInt n) -> inferred vs v = v.
Proof.
  intros Hv. unfold inferred. destruct (_ && _); [|done].
  destruct v; congruence.
Qed.

Lemma infer_cells_other vs :
  Forall (fun v => forall n, v <> VInt n) vs -> infer_cells vs = vs.
Proof.
  intros Hall. unfold infer_cells. etrans; [|apply list_fmap_id].
  apply list_fmap_ext. intros i v Hv. apply inferred_other.
  rewrite Forall_forall in Hall. apply Hall. by apply list_elem_of_lookup_2 in Hv.
Qed.

Lemma infer_cells_length vs : length (infer_cells vs) = length vs.
Proof. unfold infer_cells. by rewrite length_fmap. Qed.

Lemma apply_rows_Ok f df s i label :
  apply_rows f df = Ok s -> index df !! i = Some label ->
  exists vs v, values s !! i = Some (inferred vs v) /\ f (row_at df i) = Ok v.
Proof.
  unfold apply_rows. intros Happly Hi.
  apply bind_Ok in Happly as (vs & Hvs & [= <-]). simpl.
  apply map_res_Ok in Hvs.
  assert ((iterrows df).*2 !! i = Some (row_at df i)) as Hrow.
  { by rewrite list_lookup_fmap, (iterrows_lookup _ _ _ Hi). }
  destruct (Forall2_lookup_l _ _ _ _ _ Hvs Hrow) as (v & Hv & Hf).
  exists vs, v. split; [|done]. unfold infer_cells. by rewrite list_lookup_fmap, Hv.
Qed.

End Facts.

(** *** The Schema Normalizer *)

Section Normalizer.
Context `{!Library}.

(** The paths through [clean_and_prepare_data]. *)
Lemma clean_and_prepare_data_paths df :
  clean_and_prepare_data df =
  match drop DROPPED_COLUMNS df with
  | Raise e => ([START], Raise e)
  | Ok df1 =>
      if has_column "Constituent LookupID" df1 then
        let df2 := rename {[ "Constituent LookupID" := "LID" ]} df1 in
        if has_column "LID" df2 then ([START], normalize_columns df2)
        else ([START], Ok (rename {[ "Constituent LookupID" := "LID" ]} df2))
      else
        if has_column "LID" df1 then ([START; NO_LOOKUP_ID], normalize_columns df1)
        else ([START; NO_LOOKUP_ID], Ok (rename {[ "Constituent LookupID" := "LID" ]} df1))
  end.
Proof.
  unfold clean_and_prepare_data.
  destruct (drop DROPPED_COLUMNS df) as [df1|e]; [|done].
  cbn -[DROPPED_COLUMNS has_column rename normalize_columns].
  destruct (has_column "Constituent LookupID" df1);
    cbn -[DROPPED_COLUMNS has_column rename normalize_columns].
  - destruct (has_column "LID" _); cbn -[normalize_columns rename]; [|done].
    by destruct (normalize_columns _).
  - destruct (has_column "LID" _); cbn -[normalize_columns rename]; [|done].
    by destruct (normalize_columns _).
Qed.

Lemma drop_Ok labels df df1 :
  drop labels df = Ok df1 ->
  Forall (fun l => l ∈ names df) labels /\
  index df1 = index df /\
  columns df1 = filter (fun cs => cs.1 ∉ labels) (columns df).
Proof.
  unfold drop. destruct (filter _ labels) as [|l ls] eqn:Hmissing; [|done].
  intros [= <-]. split; [|done].
  apply Forall_forall. intros l Hl.
  destruct (decide (l ∈ names df)) as [|Hnot]; [done|].
  assert (l ∈ filter (fun l => l ∉ names df) labels) as Hin
    by (apply list_elem_of_filter; done).
  rewrite Hmissing in Hin. by apply elem_of_nil in Hin.
Qed.

Lemma drop_Raise labels df :
  Exists (fun l => l ∉ names df) labels ->
  exists missing, drop labels df = Raise (KeyError missing) /\
    missing = filter (fun l => l ∉ names df) labels /\ missing <> [].
Proof.
  intros (l & Hl & Hnot)%Exists_exists. unfold drop.
  destruct (filter _ labels) as [|l' ls] eqn:Hmissing.
  - assert (l ∈ filter (fun l => l ∉ names df) labels) as Hin
      by (apply list_elem_of_filter; done).
    rewrite Hmissing in Hin. by apply elem_of_nil in Hin.
  - eexists. split; [done|]. split; [done | discriminate].
Qed.

Lemma drop_total labels df :
  Forall (fun l => l ∈ names df) labels ->
  drop labels df = Ok {| index := index df;
                         columns := filter (fun cs => cs.1 ∉ labels) (columns df) |}.
Proof.
  intros Hall. unfold drop.
  destruct (filter _ labels) as [|l ls] eqn:Hmissing; [done|].
  assert (l ∈ filter (fun l => l ∉ names df) labels) as Hin
    by (rewrite Hmissing; left).
  apply list_elem_of_filter in Hin as [Hnot Hin].
  rewrite Forall_forall in Hall. by apply Hall in Hin.
Qed.

Lemma names_filter_kept (labels : list string) (cols : list (string * Series)) c :
  c ∉ labels -> c ∈ (filter (fun cs => cs.1 ∉ labels) cols).*1 <-> c ∈ cols.*1.
Proof.
  intros Hkept. rewrite !list_elem_of_fmap. split.
  - intros ([c' s] & -> & [_ Hin]%list_elem_of_filter). by exists (c', s).
  - intros ([c' s] & -> & Hin). exists (c', s). split; [done|].
    by apply list_elem_of_filter.
Qed.

Lemma names_rename mapping df :
  names (rename mapping df) = (fun c => default c (mapping !! c)) <$> names df.
Proof.
  unfold names, rename; simpl. rewrite <- !list_fmap_compose. done.
Qed.

End Normalizer.

Section NormalizerClaims.
Context `{!Library}.

Lemma rename_absent mapping df :
  Forall (fun c => mapping !! c = None) (names df) -> rename mapping df = df.
Proof.
  destruct df as [idx cols]. unfold rename, names; simpl. intros Hall. f_equal.
  induction cols as [|[c s] cols IH]; simpl in *; [done|].
  apply Forall_cons in Hall as [Hc Hall]. rewrite Hc; simpl. f_equal. auto.
Qed.

Lemma lookup_col_filter (labels : list string) cols c :
  lookup_col c (filter (fun cs => cs.1 ∉ labels) cols) =
  if decide (c ∈ labels) then None else lookup_col c cols.
Proof.
  induction cols as [|[c' s] cols IH]; simpl.
  - by destruct (decide _).
  - rewrite filter_cons; simpl. destruct (decide (c' ∉ labels)) as [Hkept|Hdropped]; simpl.
    + destruct (decide (c' = c)) as [->|Hne]; [by rewrite decide_False | done].
    + rewrite IH. destruct (decide (c ∈ labels)); [done|].
      rewrite decide_False; [done|]. intros ->. done.
Qed.

(** C7, as the code has it: when a column of the drop list is absent from
    the table, the column removal raises [KeyError] with the absent labels
    and [clean_and_prepare_data] ends with it, whatever the column is used
    for; nothing is logged but the start of the cleaning. *)
Theorem absent_dropped_column_raises (df : DataFrame) :
  Exists (fun c => c ∉ names df) DROPPED_COLUMNS ->
  exists missing,
    clean_and_prepare_data df = ([START], Raise (KeyError missing)) /\
    missing = filter (fun c => c ∉ names df) DROPPED_COLUMNS /\
    missing <> [].
Proof.
  intros Habsent. destruct (drop_Raise _ _ Habsent) as (missing & Hdrop & Hmissing).
  exists missing. split; [|done].
  by rewrite clean_and_prepare_data_paths, Hdrop.
Qed.

(** C8, as the code has it: when every column of the drop list is there to
    be removed and the table has neither a ['Constituent LookupID'] nor an ['LID'] column,
    [clean_and_prepare_data] logs the error and returns, without raising,
    the table as the column removal left it: no column is added and the
    cells of the columns that remain are those of the input. *)
Theorem no_identifier_returns_early (df : DataFrame) :
  Forall (fun c => c ∈ names df) DROPPED_COLUMNS ->
  "Constituent LookupID" ∉ names df ->
  "LID" ∉ names df ->
  exists out,
    clean_and_prepare_data df = ([START; NO_LOOKUP_ID], Ok out) /\
    index out = index df /\
    columns out = filter (fun cs => cs.1 ∉ DROPPED_COLUMNS) (columns df) /\
    (forall c, c ∈ names out -> c ∈ names df) /\
    (forall c, c ∉ DROPPED_COLUMNS -> getitem out c = getitem df c).
Proof.
  intros Hall Hid Hlid.
  set (out := {| index := index df;
                 columns := filter (fun cs => cs.1 ∉ DROPPED_COLUMNS) (columns df) |}).
  assert (forall c, c ∈ names out -> c ∈ names df) as Hsub.
  { intros c ([c' s] & -> & [_ Hin]%list_elem_of_filter)%list_elem_of_fmap.
    apply list_elem_of_fmap. by exists (c', s). }
  exists out. rewrite clean_and_prepare_data_paths, (drop_total _ _ Hall). fold out.
  assert (has_column "Constituent LookupID" out = false) as ->
    by (apply has_column_false; auto).
  assert (has_column "LID" out = false) as -> by (apply has_column_false; auto).
  rewrite rename_absent.
  - repeat split; [done|]. intros c Hkept. unfold getitem, out; simpl.
    rewrite lookup_col_filter. by rewrite decide_False.
  - apply Forall_forall. intros c Hc. apply lookup_singleton_ne.
    intros <-. auto.
Qed.

End NormalizerClaims.

Lemma absent_dropped_column_raises_witness :
  Exists (fun c => c ∉ names constituents) DROPPED_COLUMNS /\
  exists missing,
    clean_and_prepare_data constituents = ([START], Raise (KeyError missing)) /\
    missing = filter (fun c => c ∉ names constituents) DROPPED_COLUMNS /\
    missing <> [].
Proof.
  assert (Exists (fun c => c ∉ names constituents) DROPPED_COLUMNS) as Habsent.
  { apply Exists_cons_hd. compute_done. }
  split; [exact Habsent|].
  exact (absent_dropped_column_raises constituents Habsent).
Defined.

(** C7 as the specification words it fails: the export runs through the
    normalizer, and without its ['Med Primary Manager'] column, which the
    normalizer only drops, the run ends with a [KeyError]. *)
Lemma absent_unused_column_aborts :
  (exists out, (clean_and_prepare_data raw_export).2 = Ok out) /\
  ("Med Primary Manager" ∉ names export_without_manager) /\
  clean_and_prepare_data export_without_manager =
    ([START], Raise (KeyError ["Med Primary Manager"])).
Proof.
  split; [|split].
  - eexists. vm_compute. reflexivity.
  - compute_done.
  - vm_compute. reflexivity.
Qed.

Lemma no_identifier_returns_early_witness :
  exists out,
    clean_and_prepare_data anonymous_export = ([START; NO_LOOKUP_ID], Ok out) /\
    index out = index anonymous_export /\
    columns out = filter (fun cs => cs.1 ∉ DROPPED_COLUMNS) (columns anonymous_export) /\
    (forall c, c ∈ names out -> c ∈ names anonymous_export) /\
    (forall c, c ∉ DROPPED_COLUMNS -> getitem out c = getitem anonymous_export c).
Proof.
  apply (no_identifier_returns_early anonymous_export).
  - compute_done.
  - compute_done.
  - compute_done.
Defined.

(** C8 as the specification words it fails: a table without identifier
    column that lacks the columns of the drop list is not returned, and the
    error is not logged: the column removal raises [KeyError] first. *)
Lemma no_identifier_without_dropped_raises :
  ("Constituent LookupID" ∉ names anonymous_rows) /\
  ("LID" ∉ names anonymous_rows) /\
  clean_and_prepare_data anonymous_rows = ([START], Raise (KeyError DROPPED_COLUMNS)).
Proof.
  split; [|split].
  - compute_done.
  - compute_done.
  - vm_compute. reflexivity.
Qed.

(** *** Donor status *)

(** Two labels differ. *)
Ltac distinct := let H := fresh in intros H; vm_compute in H; discriminate H.

Section DonorStatus.
Context `{!Library}.

Lemma UM_donor_row df i status um :
  lookup_col "donor_status" (columns df) = Some status ->
  lookup_col UM_RECOGNITION (columns df) = Some um ->
  UM_donor (row_at df i) =
    Ok (if isna (values status !!! i) && negb (isna (values um !!! i))
        then VStr "UM Donor" else values status !!! i).
Proof.
  intros Hstatus Hum. unfold UM_donor, row_getattr, row_getitem.
  rewrite !lookup_cell_row_at, Hstatus, Hum. simpl.
  destruct (isna (values status !!! i)); simpl; [|done].
  by destruct (isna (values um !!! i)).
Qed.

Lemma donor_status_of_steps (x y : value) :
  let marked := if isna x then x else VStr "ISR Donor" in
  let merged := if isna marked && negb (isna y) then VStr "UM Donor" else marked in
  (if isna merged then VStr "Non Donor" else merged) = donor_status_of x y.
Proof.
  unfold donor_status_of, notna. simpl.
  destruct (isna x) eqn:Hx; simpl; [|done].
  rewrite Hx; simpl. destruct (isna y); simpl; [by rewrite Hx | done].
Qed.

Lemma index_coordinate_columns (df : DataFrame) :
  index (coordinate_columns df) = index df.
Proof.
  unfold coordinate_columns. destruct (negb _ || negb _); simpl; by destruct (_ && _).
Qed.

(** The cells [Series.map] with [na_action='ignore'] leaves for the
    recognition column. *)
Lemma marked_cells (isr : Series) :
  values (series_map_ignore_na (fun _ => VStr "ISR Donor") isr)
  = (fun x => if isna x then x else VStr "ISR Donor") <$> values isr.
Proof.
  unfold series_map_ignore_na, new_series; simpl. apply infer_cells_other.
  apply Forall_fmap, Forall_forall. intros x _ n. simpl.
  destruct (isna x) eqn:Hx; [|done]. intros ->. done.
Qed.

Lemma lookup_total_fmap (f : value -> value) (l : list value) i :
  f VNone = VNone -> (f <$> l) !!! i = f (l !!! i).
Proof.
  intros Hf. rewrite !list_lookup_total_alt, list_lookup_fmap.
  destruct (l !! i); simpl; [done|]. symmetry. exact Hf.
Qed.

(** What [UM_donor] returns for a row, from the two recognition cells. *)
Lemma UM_donor_cells df i isr um :
  lookup_col "donor_status" (columns df)
  = Some (series_map_ignore_na (fun _ => VStr "ISR Donor") isr) ->
  lookup_col UM_RECOGNITION (columns df) = Some um ->
  exists v,
    UM_donor (row_at df i) = Ok v /\
    text_or_null v = true /\
    (if isna v then VStr "Non Donor" else v)
    = donor_status_of (values isr !!! i) (values um !!! i).
Proof.
  intros Hstatus Hum. rewrite (UM_donor_row _ _ _ _ Hstatus Hum).
  rewrite marked_cells, lookup_total_fmap by done.
  eexists. split; [done|]. split.
  - destruct (isna (values isr !!! i)) eqn:Hx; simpl; [|done].
    rewrite Hx. simpl. destruct (isna (values um !!! i)); simpl; [|done].
    by destruct (values isr !!! i).
  - apply donor_status_of_steps.
Qed.

Lemma map_res_length {A B} (f : A -> res B) xs ys :
  map_res f xs = Ok ys -> length ys = length xs.
Proof. intros Hall%map_res_Ok. symmetry. by eapply Forall2_length. Qed.

Lemma apply_rows_length f df s :
  apply_rows f df = Ok s -> length (values s) = length (index df).
Proof.
  unfold apply_rows. intros (vs & Hvs%map_res_length & [= <-])%bind_Ok. simpl.
  rewrite infer_cells_length, Hvs, length_fmap. unfold iterrows.
  by rewrite length_imap.
Qed.

Lemma fillna_Ok v s s' :
  fillna v s = Ok s' ->
  values s' = (fun x => if isna x then v else x) <$> values s /\
  categories s' = categories s /\
  fillna_dtype s v = Ok (dtype s').
Proof.
  unfold fillna. intros (d & Hd & [= <-])%bind_Ok. by rewrite Hd.
Qed.

Lemma normalize_columns_donor_status df out :
  normalize_columns df = Ok out ->
  index out = index df /\
  exists isr um status,
    getitem (coordinate_columns df) ISR_RECOGNITION = Ok isr /\
    getitem (coordinate_columns df) UM_RECOGNITION = Ok um /\
    getitem out ISR_RECOGNITION = Ok isr /\
    getitem out UM_RECOGNITION = Ok um /\
    getitem out "donor_status" = Ok status /\
    length (values status) = length (index df) /\
    forall i label,
      index df !! i = Some label ->
      values status !! i
      = Some (donor_status_of (values isr !!! i) (values um !!! i)).
Proof.
  unfold normalize_columns. intros Hrun.
  pose proof (index_coordinate_columns df) as Hindex.
  set (df2 := coordinate_columns df) in Hrun, Hindex |- *. clearbody df2.
  apply bind_Ok in Hrun as (address & Haddress & Hrun).
  apply bind_Ok in Hrun as (isr & Hisr & Hrun).
  apply bind_Ok in Hrun as (merged & Hmerged & Hrun).
  apply bind_Ok in Hrun as (merged' & Hmerged' & Hrun).
  apply bind_Ok in Hrun as (status & Hstatus & Hrun).
  apply bind_Ok in Hrun as (isr' & Hisr' & Hrun).
  apply bind_Ok in Hrun as (isr_numeric & _ & Hrun).
  apply bind_Ok in Hrun as (um & Hum & Hrun).
  apply bind_Ok in Hrun as (um_numeric & _ & Hrun).
  apply bind_Ok in Hrun as (age & _ & Hrun).
  apply bind_Ok in Hrun as (filled & _ & Hrun).
  apply bind_Ok in Hrun as (age' & _ & [= <-]).
  rewrite getitem_setitem_eq in Hmerged'. injection Hmerged' as <-.
  rewrite !getitem_setitem_ne in Hisr' by distinct.
  rewrite getitem_setitem_ne in Hisr by distinct.
  assert (isr' = isr) as -> by congruence.
  rewrite !getitem_setitem_ne in Hum by distinct.
  apply fillna_Ok in Hstatus as (Hvalues & _ & _).
  split; [done|]. exists isr, um, status.
  rewrite !getitem_setitem_ne by distinct. rewrite getitem_setitem_eq.
  split; [done|]. split; [done|]. split; [done|]. split; [done|]. split; [done|].
  split.
  { rewrite Hvalues, length_fmap, (apply_rows_length _ _ _ Hmerged). simpl.
    by rewrite <- Hindex. }
  intros i label Hi. rewrite <- Hindex in Hi.
  destruct (apply_rows_Ok _ _ _ i label Hmerged Hi) as (vs & v & Hv & Hrow).
  destruct (UM_donor_cells (setitem (setitem df2 "Primary Address" address) "donor_status"
                              (series_map_ignore_na (fun _ => VStr "ISR Donor") isr))
              i isr um) as (v' & Hrow' & Htext & Hstep).
  { apply getitem_Ok, getitem_setitem_eq. }
  { apply getitem_Ok. by rewrite !getitem_setitem_ne by distinct. }
  assert (v' = v) as -> by congruence.
  rewrite inferred_other in Hv by (intros n ->; done).
  by rewrite Hvalues, list_lookup_fmap, Hv, <- Hstep.
Qed.

Lemma map_res_exists {A B} (f : A -> res B) (xs : list A) :
  Forall (fun x => exists y, f x = Ok y) xs -> exists ys, map_res f xs = Ok ys.
Proof.
  induction 1 as [|x xs [y Hy] _ [ys IH]]; simpl; [by eexists|].
  rewrite Hy, IH. by eexists.
Qed.

Lemma apply_rows_total f df :
  (forall i, exists v, f (row_at df i) = Ok v) -> exists s, apply_rows f df = Ok s.
Proof.
  intros Hrows. unfold apply_rows.
  destruct (map_res_exists f (iterrows df).*2) as [vs ->]; [|by eexists].
  apply Forall_forall. intros row ([label row'] & -> & Hin)%list_elem_of_fmap.
  apply elem_of_lookup_imap_1 in Hin as (i & label' & [= -> ->] & _). apply Hrows.
Qed.

Lemma map_res_Forall {A B} (f : A -> res B) (P : B -> Prop) (xs : list A) :
  Forall (fun x => exists y, f x = Ok y /\ P y) xs ->
  exists ys, map_res f xs = Ok ys /\ Forall P ys.
Proof.
  induction 1 as [|x xs (y & Hy & HP) _ (ys & IH & HPs)]; simpl; [by eexists|].
  rewrite Hy, IH. eexists. split; [done|]. by constructor.
Qed.

Lemma apply_rows_Forall f (P : value -> Prop) df :
  (forall i, exists v, f (row_at df i) = Ok v /\ P v) ->
  exists vs, apply_rows f df = Ok (new_series vs) /\ Forall P vs.
Proof.
  intros Hrows. unfold apply_rows.
  destruct (map_res_Forall f P (iterrows df).*2) as (vs & -> & Hvs); [|by eexists].
  apply Forall_forall. intros row ([label row'] & -> & Hin)%list_elem_of_fmap.
  apply elem_of_lookup_imap_1 in Hin as (i & label' & [= -> ->] & _). apply Hrows.
Qed.

Lemma format_address_total row :
  Forall (fun c => is_Some (lookup_cell c row)) HOME_FIELDS ->
  exists address, format_address row = Ok address.
Proof.
  intros Hhome. unfold format_address, row_getitem.
  repeat (apply Forall_cons in Hhome as [[? ->] Hhome]). by eexists.
Qed.

Lemma rename_fixed (mapping : gmap string string) k :
  mapping !! k = None ->
  (forall c v, mapping !! c = Some v -> v <> k) ->
  forall c, default c (mapping !! c) = k <-> c = k.
Proof.
  intros Hk Hv c. destruct (mapping !! c) as [v|] eqn:Hc; simpl; [|done].
  split; [intros ->; by apply Hv in Hc | intros ->; congruence].
Qed.

Lemma read_not_moved : Forall (fun c => c ∉ MOVED_COLUMNS) READ_COLUMNS.
Proof. compute_done. Qed.

Lemma not_moved c (k : string) : c ∉ MOVED_COLUMNS -> k ∈ MOVED_COLUMNS -> c <> k.
Proof. intros Hc Hk ->. done. Qed.

(** The coordinate statements leave the other columns as they are. *)
Lemma lookup_coordinate_columns df c :
  c ∉ MOVED_COLUMNS ->
  lookup_col c (columns (coordinate_columns df)) = lookup_col c (columns df).
Proof.
  intros Hc. unfold coordinate_columns.
  assert (forall df' : DataFrame,
            lookup_col c (columns
              (rename {[ "latitude" := "Latitude"; "longitude" := "Longitude" ]} df')) =
            lookup_col c (columns df')) as Hrename.
  { intros df'. unfold rename; simpl. apply lookup_col_rename_fixed, rename_fixed.
    - rewrite lookup_insert_ne, lookup_singleton_ne; [done|..];
        apply not_eq_sym, (not_moved c); [done | compute_done | done | compute_done].
    - intros c' v [[<- <-]|[_ [<- <-]%lookup_singleton_Some]]%lookup_insert_Some;
        apply not_eq_sym, (not_moved c); [done | compute_done | done | compute_done]. }
  assert (lookup_col c (columns
            (setitem_scalar (setitem_scalar df "Latitude" VNone) "Longitude" VNone)) =
          lookup_col c (columns df)) as Hset.
  { unfold setitem_scalar, setitem; simpl.
    rewrite !lookup_assign_ne; [done|..];
      apply not_eq_sym, (not_moved c); [done | compute_done | done | compute_done]. }
  destruct (negb _ || negb _); destruct (_ && _); by rewrite ?Hrename, ?Hset.
Qed.

Lemma normalize_columns_returns df :
  Forall (fun c => c ∈ names df) READ_COLUMNS ->
  (forall c s, c ∈ [ISR_RECOGNITION; UM_RECOGNITION] -> getitem df c = Ok s ->
     Forall parses (values s)) ->
  (forall vs, Forall (fun v => text_or_null v = true) vs ->
     exists d, fillna_dtype (new_series vs) (VStr "Non Donor") = Ok d) ->
  (forall age, getitem df "Age" = Ok age ->
     exists filled age',
       fillna (VInt 0) (to_numeric_coerce age) = Ok filled /\
       astype_int filled = Ok age') ->
  exists out, normalize_columns df = Ok out.
Proof.
  intros Hread Hparses Hfill Hage. unfold normalize_columns.
  assert (forall c, c ∈ READ_COLUMNS ->
            exists s, lookup_col c (columns df) = Some s /\
                      lookup_col c (columns (coordinate_columns df)) = Some s) as Hlookup.
  { intros c Hc. pose proof read_not_moved as Hmoved.
    rewrite Forall_forall in Hread, Hmoved.
    destruct (lookup_col_elem _ _ (Hread c Hc)) as [s Hs]. exists s. split; [done|].
    by rewrite lookup_coordinate_columns by auto. }
  set (df2 := coordinate_columns df) in *. clearbody df2.
  destruct (apply_rows_total
              (fun x => a ← format_address x; mret (VStr a)) df2) as [address ->].
  { intros i. destruct (format_address_total (row_at df2 i)) as [a ->]; [|by eexists].
    apply Forall_forall. intros c Hc. rewrite lookup_cell_row_at.
    destruct (Hlookup c) as (s & _ & ->); [|done].
    unfold READ_COLUMNS. by do 3 right. }
  cbn [mbind res_bind].
  destruct (Hlookup ISR_RECOGNITION) as (isr & Hisr & Hisr2); [left|].
  destruct (Hlookup UM_RECOGNITION) as (um & Hum & Hum2); [right; left|].
  destruct (Hlookup "Age") as (age & Hage1 & Hage2); [do 2 right; left|].
  apply getitem_Ok in Hisr, Hum, Hage1, Hisr2, Hum2, Hage2.
  rewrite getitem_setitem_ne, Hisr2 by distinct. cbn [mbind res_bind].
  set (df4 := setitem (setitem df2 _ _) _ _).
  destruct (apply_rows_Forall UM_donor (fun v => text_or_null v = true) df4)
    as (vs & -> & Hvs).
  { intros i. destruct (UM_donor_cells df4 i isr um) as (v & Hv & Htext & _).
    - apply getitem_Ok, getitem_setitem_eq.
    - apply getitem_Ok. unfold df4. by rewrite !getitem_setitem_ne by distinct.
    - by exists v. }
  cbn [mbind res_bind]. rewrite getitem_setitem_eq. cbn [mbind res_bind].
  assert (exists status, fillna (VStr "Non Donor") (new_series vs) = Ok status)
    as [status ->].
  { unfold fillna. destruct (Hfill vs Hvs) as [d ->]. by eexists. }
  cbn [mbind res_bind]. unfold df4. rewrite !getitem_setitem_ne, Hisr2 by distinct. cbn [mbind res_bind].
  unfold series_map.
  destruct (map_res_exists replace (values isr)) as [isr_numeric ->].
  { apply (Hparses ISR_RECOGNITION); [left | done]. }
  cbn [mbind res_bind mret res_ret].
  rewrite !getitem_setitem_ne, Hum2 by distinct. cbn [mbind res_bind].
  destruct (map_res_exists replace (values um)) as [um_numeric ->].
  { apply (Hparses UM_RECOGNITION); [right; left | done]. }
  cbn [mbind res_bind mret res_ret].
  rewrite !getitem_setitem_ne, Hage2 by distinct. cbn [mbind res_bind].
  destruct (Hage age Hage1) as (filled & age' & -> & Hcast). cbn [mbind res_bind].
  rewrite Hcast. by eexists.
Qed.

Lemma identifier_kept :
  ("Constituent LookupID" ∉ DROPPED_COLUMNS) /\ ("LID" ∉ DROPPED_COLUMNS).
Proof. split; compute_done. Qed.

Lemma clean_and_prepare_data_normalized df log out :
  clean_and_prepare_data df = (log, Ok out) ->
  "Constituent LookupID" ∈ names df \/ "LID" ∈ names df ->
  exists df', normalize_columns df' = Ok out /\ index df' = index df /\
    forall c, c ∉ DROPPED_COLUMNS -> c <> "LID" -> c <> "Constituent LookupID" ->
      lookup_col c (columns df') = lookup_col c (columns df).
Proof.
  rewrite clean_and_prepare_data_paths.
  destruct (drop DROPPED_COLUMNS df) as [df1|e] eqn:Hdrop; [|done].
  apply drop_Ok in Hdrop as (_ & Hindex & Hcolumns).
  destruct identifier_kept as [Hid Hlid]. intros Hrun Hkey.
  assert ("Constituent LookupID" ∈ names df1 \/ "LID" ∈ names df1) as Hkey1.
  { unfold names. rewrite Hcolumns, !names_filter_kept by done. exact Hkey. }
  assert (forall c, c ∉ DROPPED_COLUMNS ->
            lookup_col c (columns df1) = lookup_col c (columns df)) as Hdropped.
  { intros c Hc. by rewrite Hcolumns, lookup_col_filter, decide_False. }
  destruct (has_column "Constituent LookupID" df1) eqn:Hhas; cbn zeta in Hrun.
  - assert (has_column "LID" (rename {[ "Constituent LookupID" := "LID" ]} df1) = true)
      as Hrenamed.
    { apply has_column_true. rewrite names_rename. apply list_elem_of_fmap.
      exists "Constituent LookupID". split; [done|]. by apply has_column_true. }
    rewrite Hrenamed in Hrun. injection Hrun as _ Hrun.
    exists (rename {[ "Constituent LookupID" := "LID" ]} df1).
    split; [done|]. split; [done|]. intros c Hc Hne Hne'.
    rewrite <- Hdropped by done. unfold rename; simpl.
    apply lookup_col_rename_fixed, rename_fixed.
    + by apply lookup_singleton_ne.
    + by intros c' v [<- <-]%lookup_singleton_Some.
  - destruct (has_column "LID" df1) eqn:Hhas'.
    + injection Hrun as _ Hrun. exists df1. auto.
    + apply has_column_false in Hhas, Hhas'. tauto.
Qed.

Lemma lookup_col_names c cols s : lookup_col c cols = Some s -> c ∈ cols.*1.
Proof.
  intros Hs%lookup_col_Some. apply list_elem_of_fmap. by exists (c, s).
Qed.

(** The columns read are those of the input, whichever way the identifier
    is found. *)
Lemma lookup_identified df c :
  c ∉ MOVED_COLUMNS ->
  let df1 := {| index := index df;
                columns := filter (fun cs => cs.1 ∉ DROPPED_COLUMNS) (columns df) |} in
  lookup_col c (columns df1) = lookup_col c (columns df) /\
  lookup_col c (columns (rename {[ "Constituent LookupID" := "LID" ]} df1)) =
    lookup_col c (columns df).
Proof.
  intros Hc df1.
  assert (lookup_col c (columns df1) = lookup_col c (columns df)) as Hdrop.
  { unfold df1; simpl. rewrite lookup_col_filter, decide_False; [done|].
    intros Hin. apply Hc. unfold MOVED_COLUMNS. apply elem_of_app. by right. }
  split; [done|]. rewrite <- Hdrop. unfold rename; simpl.
  apply lookup_col_rename_fixed, rename_fixed.
  - apply lookup_singleton_ne, not_eq_sym, (not_moved c); [done | compute_done].
  - intros c' v [<- <-]%lookup_singleton_Some.
    apply not_eq_sym, (not_moved c); [done | compute_done].
Qed.

Lemma clean_and_prepare_data_returns df :
  "Constituent LookupID" ∈ names df \/ "LID" ∈ names df ->
  Forall (fun c => c ∈ names df) (DROPPED_COLUMNS ++ READ_COLUMNS) ->
  (forall c s, c ∈ [ISR_RECOGNITION; UM_RECOGNITION] -> getitem df c = Ok s ->
     Forall parses (values s)) ->
  (forall vs, Forall (fun v => text_or_null v = true) vs ->
     exists d, fillna_dtype (new_series vs) (VStr "Non Donor") = Ok d) ->
  (forall age, getitem df "Age" = Ok age ->
     exists filled age',
       fillna (VInt 0) (to_numeric_coerce age) = Ok filled /\
       astype_int filled = Ok age') ->
  exists log out, clean_and_prepare_data df = (log, Ok out).
Proof.
  intros Hkey [Hdropped Hread]%Forall_app Hparses Hfill Hage.
  rewrite clean_and_prepare_data_paths, (drop_total _ _ Hdropped).
  set (df1 := {| index := index df; columns := _ |}).
  destruct identifier_kept as [Hid Hlid].
  assert ("Constituent LookupID" ∈ names df1 \/ "LID" ∈ names df1) as Hkey1.
  { unfold names, df1; simpl. by rewrite !names_filter_kept. }
  assert (forall df' : DataFrame,
            (forall c, c ∉ MOVED_COLUMNS ->
               lookup_col c (columns df') = lookup_col c (columns df)) ->
            exists out, normalize_columns df' = Ok out) as Hnormalize.
  { intros df' Hsame. pose proof read_not_moved as Hmoved.
    rewrite Forall_forall in Hmoved. apply normalize_columns_returns.
    - apply Forall_forall. intros c Hc. rewrite Forall_forall in Hread.
      destruct (lookup_col_elem _ _ (Hread c Hc)) as [s Hs].
      apply (lookup_col_names _ _ s). by rewrite Hsame by auto.
    - intros c s Hc Hs. apply (Hparses c s Hc).
      apply getitem_Ok. rewrite <- Hsame; [by apply getitem_Ok|].
      apply Hmoved. unfold READ_COLUMNS.
      apply elem_of_cons in Hc as [->|Hc]; [left|].
      apply list_elem_of_singleton in Hc as ->. right; left.
    - exact Hfill.
    - intros age Hs. apply Hage. apply getitem_Ok.
      rewrite <- Hsame; [by apply getitem_Ok|].
      apply Hmoved. unfold READ_COLUMNS. do 2 right. left. }
  destruct (has_column "Constituent LookupID" df1) eqn:Hhas.
  - cbn zeta.
    assert (has_column "LID" (rename {[ "Constituent LookupID" := "LID" ]} df1) = true)
      as ->.
    { apply has_column_true. rewrite names_rename. apply list_elem_of_fmap.
      exists "Constituent LookupID". split; [done|]. by apply has_column_true. }
    destruct (Hnormalize (rename {[ "Constituent LookupID" := "LID" ]} df1))
      as [out ->]; [|by eexists _, _].
    intros c Hc. by apply lookup_identified.
  - assert (has_column "LID" df1 = true) as ->.
    { apply has_column_true. apply has_column_false in Hhas. tauto. }
    destruct (Hnormalize df1) as [out ->]; [|by eexists _, _].
    intros c Hc. by apply lookup_identified.
Qed.

(** C1: in the table [clean_and_prepare_data] returns for a table with an
    identifier column, the two recognition columns are those of the input,
    [donor_status] has a cell for every row, and the [donor_status] of a
    row is ['ISR Donor'] when its ISR lifetime-recognition cell is
    non-null, whatever the UM-wide cell; else ['UM Donor'] when its UM-wide
    lifetime-recognition cell is non-null; else ['Non Donor'].  The
    function returns a table when the input has the columns it drops and
    reads, [replace] returns on the cells of the two recognition columns,
    the status column can be filled and the ages can be filled and cast. *)
Theorem donor_status_by_recognition (df : DataFrame) :
  "Constituent LookupID" ∈ names df \/ "LID" ∈ names df ->
  (Forall (fun c => c ∈ names df) (DROPPED_COLUMNS ++ READ_COLUMNS) ->
   (forall c s, c ∈ [ISR_RECOGNITION; UM_RECOGNITION] -> getitem df c = Ok s ->
      Forall parses (values s)) ->
   (forall vs, Forall (fun v => text_or_null v = true) vs ->
      exists d, fillna_dtype (new_series vs) (VStr "Non Donor") = Ok d) ->
   (forall age, getitem df "Age" = Ok age ->
      exists filled age',
        fillna (VInt 0) (to_numeric_coerce age) = Ok filled /\
        astype_int filled = Ok age') ->
   exists log out, clean_and_prepare_data df = (log, Ok out)) /\
  (forall log out, clean_and_prepare_data df = (log, Ok out) ->
   index out = index df /\
   exists isr um status,
     getitem df ISR_RECOGNITION = Ok isr /\
     getitem df UM_RECOGNITION = Ok um /\
     getitem out ISR_RECOGNITION = Ok isr /\
     getitem out UM_RECOGNITION = Ok um /\
     getitem out "donor_status" = Ok status /\
     length (values status) = length (index df) /\
     forall i label x y,
       index df !! i = Some label ->
       values isr !! i = Some x -> values um !! i = Some y ->
       values status !! i = Some (donor_status_of x y)).
Proof.
  intros Hkey. split; [by apply clean_and_prepare_data_returns|].
  intros log out Hrun.
  destruct (clean_and_prepare_data_normalized _ _ _ Hrun Hkey)
    as (df' & Hnorm & Hindex & Hsame).
  apply normalize_columns_donor_status in Hnorm
    as (Hindex' & isr & um & status & Hisr & Hum & Hisr' & Hum' & Hstatus & Hlength
        & Hcells).
  split; [congruence|]. exists isr, um, status.
  assert (forall c, c ∈ [ISR_RECOGNITION; UM_RECOGNITION] ->
            lookup_col c (columns (coordinate_columns df')) = lookup_col c (columns df))
    as Hinput.
  { intros c Hc. pose proof read_not_moved as Hmoved.
    rewrite Forall_forall in Hmoved.
    assert (c ∈ READ_COLUMNS) as Hread.
    { unfold READ_COLUMNS. apply elem_of_cons in Hc as [->|Hc]; [left|].
      apply list_elem_of_singleton in Hc as ->. right; left. }
    apply Hmoved in Hread. rewrite lookup_coordinate_columns by done.
    apply Hsame.
    - intros Hin. apply Hread. unfold MOVED_COLUMNS. apply elem_of_app. by right.
    - apply (not_moved c); [done | compute_done].
    - apply (not_moved c); [done | compute_done]. }
  apply getitem_Ok in Hisr, Hum.
  rewrite Hinput in Hisr by (by left). rewrite Hinput in Hum by (by right; left).
  rewrite !getitem_Ok. repeat split; try done; try by apply getitem_Ok.
  - congruence.
  - intros i label x y Hi Hx Hy. rewrite Hindex in Hcells.
    rewrite (Hcells i label Hi).
    by rewrite (list_lookup_total_correct _ _ _ Hx), (list_lookup_total_correct _ _ _ Hy).
Qed.

End DonorStatus.

Lemma sample_status_filled vs :
  exists d, fillna_dtype (new_series vs) (VStr "Non Donor") = Ok d.
Proof.
  assert (sample_dtype vs = "bool" \/ sample_dtype vs = "int64" \/
          sample_dtype vs = "float64" \/ sample_dtype vs = "object") as Hdtype.
  { unfold sample_dtype. repeat (destruct (forallb _ vs); [tauto|]). tauto. }
  simpl. unfold sample_fillna. simpl.
  destruct Hdtype as [->|[->|[->| ->]]]; by eexists.
Qed.

Lemma donor_status_by_recognition_witness :
  exists log out status,
    clean_and_prepare_data raw_export = (log, Ok out) /\
    getitem out "donor_status" = Ok status /\
    values status = [VStr "ISR Donor"; VStr "UM Donor"; VStr "Non Donor"].
Proof.
  destruct (donor_status_by_recognition raw_export) as [Hreturns Hstatus].
  { left. compute_done. }
  destruct Hreturns as (log & out & Hrun).
  { compute_done. }
  { intros c s Hc Hs.
    repeat (apply elem_of_cons in Hc as [->|Hc]);
      [vm_compute in Hs; injection Hs as <-;
       repeat constructor; eexists; vm_compute; reflexivity ..|].
    by apply elem_of_nil in Hc. }
  { intros vs _. apply sample_status_filled. }
  { intros age Hs. vm_compute in Hs. injection Hs as <-.
    eexists _, _. split; [vm_compute; reflexivity|]. vm_compute. reflexivity. }
  destruct (Hstatus log out Hrun)
    as (_ & isr & um & status & Hisr & Hum & _ & _ & Hout & Hlength & Hcells).
  exists log, out, status. split; [exact Hrun|]. split; [exact Hout|].
  vm_compute in Hisr, Hum. injection Hisr as <-. injection Hum as <-.
  pose proof (Hcells 0%nat 0 _ _ eq_refl eq_refl eq_refl) as H0.
  pose proof (Hcells 1%nat 1 _ _ eq_refl eq_refl eq_refl) as H1.
  pose proof (Hcells 2%nat 2 _ _ eq_refl eq_refl eq_refl) as H2.
  destruct (values status) as [|s0 [|s1 [|s2 [|s3 rest]]]]; try discriminate Hlength.
  simpl in H0, H1, H2. by injection H0 as ->; injection H1 as ->; injection H2 as ->.
Defined.

(** *** The Missing-Value Filler *)

Section Filler.
Context `{!Library}.

Lemma fill_value_of_cases (d : string) :
  fill_value_of d =
    if decide (d = "float64") then VFloat float_zero
    else if decide (d = "int64") then VInt 0
    else if decide (d = "datetime64[ns]") then TIMESTAMP_1900
    else if decide (d = "bool") then VBool false
    else NOT_AVAILABLE.
Proof.
  unfold fill_value_of, fill_values.
  repeat (rewrite lookup_insert; destruct (decide (_ = d)) as [<-|?]; [done|]).
  rewrite lookup_singleton. destruct (decide (_ = d)) as [<-|?]; [done|]. simpl.
  repeat (destruct (decide (d = _)) as [->|?]; [done|]). done.
Qed.

Lemma fill_value_of_notna (d : string) : isna (fill_value_of d) = false.
Proof.
  rewrite fill_value_of_cases. repeat (destruct (decide _); [done|]). done.
Qed.

Lemma isnull_any_false s : isnull_any s = false -> Forall (fun v => isna v = false) (values s).
Proof.
  unfold isnull_any. intros Hnone. apply Forall_forall. intros v Hv.
  destruct (isna v) eqn:Hna; [|done].
  assert (existsb isna (values s) = true) as Hsome; [|congruence].
  apply existsb_exists. exists v. split; [by apply list_elem_of_In | done].
Qed.

Lemma values_prepared s : values (prepared s) = values s.
Proof. unfold prepared. by destruct (_ && _). Qed.

(** The column the filler leaves, when it leaves one. *)
Lemma filled_series_Ok s s' :
  filled_series s = Ok s' ->
  values s' = filled_cell (dtype s) <$> values s /\
  (isnull_any s = false -> s' = s) /\
  (isnull_any s = true ->
     categories s' = categories (prepared s) /\
     fillna_dtype (prepared s) (fill_value_of (dtype s)) = Ok (dtype s')).
Proof.
  unfold filled_series. destruct (isnull_any s) eqn:Hany.
  - intros (Hvalues & Hcategories & Hdtype)%fillna_Ok.
    rewrite values_prepared in Hvalues. by repeat split.
  - intros [= <-]. split; [|by split].
    apply isnull_any_false in Hany. induction Hany as [|v vs Hv _ IH]; [done|].
    simpl. unfold filled_cell at 1. rewrite Hv. by f_equal.
Qed.

Lemma filled_series_notna s s' :
  filled_series s = Ok s' -> Forall (fun v => isna v = false) (values s').
Proof.
  intros (-> & _)%filled_series_Ok. apply Forall_fmap, Forall_forall. intros v _.
  simpl. unfold filled_cell. destruct (isna v) eqn:Hna; [|done].
  apply fill_value_of_notna.
Qed.

(** A column without null is left as it is. *)
Lemma filled_series_full s :
  Forall (fun v => isna v = false) (values s) -> filled_series s = Ok s.
Proof.
  intros Hall. unfold filled_series.
  assert (isnull_any s = false) as ->; [|done].
  unfold isnull_any. destruct (existsb isna (values s)) eqn:Hsome; [|done].
  apply existsb_exists in Hsome as (v & Hin%list_elem_of_In & Hna).
  rewrite Forall_forall in Hall. by rewrite (Hall v Hin) in Hna.
Qed.

(** One turn of the loop on a column that no earlier column shares its
    label with. *)
Lemma fill_column_fresh idx pre c s post :
  c ∉ pre.*1 ->
  exists log,
    fill_column {| index := idx; columns := pre ++ (c, s) :: post |} c =
    (log, match filled_series s with
          | Ok s' => Ok {| index := idx; columns := pre ++ (c, s') :: post |}
          | Raise e => Raise e
          end).
Proof.
  intros Hfresh. unfold fill_column, filled_series, prepared, getitem, setitem. simpl.
  rewrite (lookup_col_app_fresh _ _ _ _ Hfresh). simpl.
  destruct (isnull_any s); simpl; [|eauto].
  destruct (bool_decide (dtype s = "category") && _); simpl.
  - rewrite (assign_col_app_fresh _ _ _ _ _ Hfresh).
    rewrite (lookup_col_app_fresh _ _ _ _ Hfresh). simpl.
    destruct (fillna _ _) as [s'|e]; simpl; [|eauto].
    rewrite (assign_col_app_fresh _ _ _ _ _ Hfresh). eauto.
  - rewrite (lookup_col_app_fresh _ _ _ _ Hfresh). simpl.
    destruct (fillna _ _) as [s'|e]; simpl; [|eauto].
    rewrite (assign_col_app_fresh _ _ _ _ _ Hfresh). eauto.
Qed.

Lemma filled_column_pair c s :
  filled_column (c, s)
  = match filled_series s with Ok s' => Ok (c, s') | Raise e => Raise e end.
Proof. unfold filled_column. simpl. by destruct (filled_series s). Qed.

Lemma for_each_fill_column idx post : forall pre,
  NoDup (pre ++ post).*1 ->
  exists log,
    for_each fill_column {| index := idx; columns := pre ++ post |} post.*1 =
    (log, match map_res filled_column post with
          | Ok post' => Ok {| index := idx; columns := pre ++ post' |}
          | Raise e => Raise e
          end).
Proof.
  induction post as [|[c s] post IH]; intros pre Hnodup.
  - simpl. rewrite app_nil_r. eauto.
  - rewrite !fmap_cons. cbn [for_each fst snd map_res].
    assert (c ∉ pre.*1) as Hfresh.
    { rewrite fmap_app in Hnodup. apply NoDup_app in Hnodup as (_ & Hdisjoint & _).
      intros Hin. apply (Hdisjoint c Hin). left. }
    destruct (fill_column_fresh idx pre c s post Hfresh) as (log & ->).
    rewrite filled_column_pair.
    destruct (filled_series s) as [s'|e]; cbn [mbind res_bind M_bind]; [|eauto].
    destruct (IH (pre ++ [(c, s')])) as (log' & Hrest).
    { rewrite <- app_assoc. rewrite fmap_app in *. exact Hnodup. }
    rewrite <- !app_assoc in Hrest. simpl in Hrest. rewrite Hrest.
    destruct (map_res filled_column post) as [post'|e]; simpl; [|eauto].
    rewrite <- app_assoc. simpl. eauto.
Qed.

(** What [fill_missing_values] does on a table with distinct labels. *)
Lemma fill_missing_values_run df :
  NoDup (names df) ->
  exists log,
    fill_missing_values df =
    (log, match map_res filled_column (columns df) with
          | Ok cols => Ok {| index := index df; columns := cols |}
          | Raise e => Raise e
          end).
Proof.
  intros Hnodup. destruct df as [idx cols].
  apply (for_each_fill_column idx cols []). exact Hnodup.
Qed.

Lemma filled_columns cols : forall cols',
  map_res filled_column cols = Ok cols' ->
  cols'.*1 = cols.*1 /\
  (forall c, lookup_col c cols' =
     lookup_col c cols ≫= fun s => match filled_series s with
                                   | Ok s' => Some s'
                                   | Raise _ => None
                                   end) /\
  (forall c s, lookup_col c cols = Some s -> exists s', filled_series s = Ok s') /\
  Forall (fun cs => Forall (fun v => isna v = false) (values cs.2)) cols'.
Proof.
  induction cols as [|[c s] cols IH]; intros cols'; simpl.
  - intros [= <-]. by repeat split.
  - rewrite filled_column_pair.
    destruct (filled_series s) as [s'|e] eqn:Hs; [|done]. simpl.
    destruct (map_res filled_column cols) as [rest|e]; [|done]. simpl.
    intros [= <-]. destruct (IH rest eq_refl) as (Hnames & Hlookup & Htotal & Hfull).
    split; [by rewrite !fmap_cons, Hnames|]. split; [|split].
    + intros c'. simpl. destruct (decide (c = c')); simpl; [by rewrite Hs | apply Hlookup].
    + intros c' s0. destruct (decide (c = c')); [intros [= <-]; eauto | apply Htotal].
    + constructor; [|done]. simpl. by apply (filled_series_notna s).
Qed.

(** The table [fill_missing_values] returns, column by column. *)
Lemma fill_missing_values_Ok df log out :
  NoDup (names df) ->
  fill_missing_values df = (log, Ok out) ->
  index out = index df /\
  forall c s, getitem df c = Ok s ->
    exists s', getitem out c = Ok s' /\ filled_series s = Ok s'.
Proof.
  intros Hnodup Hout. destruct (fill_missing_values_run df Hnodup) as (log' & Hrun).
  rewrite Hrun in Hout.
  destruct (map_res filled_column (columns df)) as [cols|e] eqn:Hcols; [|done].
  injection Hout as _ <-.
  destruct (filled_columns _ _ Hcols) as (_ & Hlookup & Htotal & _).
  split; [done|]. intros c s Hs%getitem_Ok.
  destruct (Htotal c s Hs) as [s' Hs']. exists s'. split; [|done].
  rewrite getitem_Ok. simpl. rewrite Hlookup, Hs. simpl. by rewrite Hs'.
Qed.

Lemma lookup_col_distinct c s (cols : list (string * Series)) :
  NoDup cols.*1 -> (c, s) ∈ cols -> lookup_col c cols = Some s.
Proof.
  induction cols as [|[c' s'] cols IH]; intros Hnodup Hin; [by apply elem_of_nil in Hin|].
  rewrite fmap_cons in Hnodup. apply NoDup_cons in Hnodup as [Hfresh Hnodup]. simpl.
  apply elem_of_cons in Hin as [[= -> ->]|Hin]; [by rewrite decide_True|].
  rewrite decide_False; [by apply IH|]. intros ->. apply Hfresh.
  apply list_elem_of_fmap. by exists (c, s).
Qed.

End Filler.

Section FillerClaims.
Context `{!Library}.

(** C5, as the code has it, on a table with distinct column labels:
    [fill_missing_values] returns when every column with a null can hold the default of its
    dtype, and raises when one cannot.  In the table it returns, which has
    the rows and columns of the input, no cell is null: every null cell is
    replaced by the default of the dtype of its column (text:
    ["Not Available"], float: 0.0, integer: 0, date/time: 1900-01-01,
    boolean: false, categorical: ["Not Available"], made a category first,
    any other dtype: ["Not Available"]), every other cell is kept, and a
    column without null is the column of the input. *)
Theorem fill_missing_values_no_null (df : DataFrame) :
  NoDup (names df) ->
  ((forall c s, getitem df c = Ok s -> isnull_any s = true ->
      exists d, fillna_dtype (prepared s) (fill_value_of (dtype s)) = Ok d) ->
   exists log out, fill_missing_values df = (log, Ok out)) /\
  (forall c s e, getitem df c = Ok s -> isnull_any s = true ->
     fillna_dtype (prepared s) (fill_value_of (dtype s)) = Raise e ->
     exists log e', fill_missing_values df = (log, Raise e')) /\
  (forall log out, fill_missing_values df = (log, Ok out) ->
     index out = index df /\
     names out = names df /\
     (forall c s, getitem df c = Ok s ->
        exists s', getitem out c = Ok s' /\
          values s' = filled_cell (dtype s) <$> values s /\
          (isnull_any s = true -> dtype s = "category" ->
             NOT_AVAILABLE ∈ categories s') /\
          (isnull_any s = true ->
             fillna_dtype (prepared s) (fill_value_of (dtype s)) = Ok (dtype s')) /\
          (isnull_any s = false -> s' = s)) /\
     Forall (fun cs => Forall (fun v => isna v = false) (values cs.2)) (columns out)) /\
  fill_value_of "object" = VStr "Not Available" /\
  fill_value_of "float64" = VFloat float_zero /\
  fill_value_of "int64" = VInt 0 /\
  fill_value_of "datetime64[ns]" = TIMESTAMP_1900 /\
  fill_value_of "bool" = VBool false /\
  fill_value_of "category" = VStr "Not Available" /\
  (forall d, d ∉ ["object"; "float64"; "int64"; "datetime64[ns]"; "bool"; "category"] ->
     fill_value_of d = VStr "Not Available").
Proof.
  intros Hnodup. destruct (fill_missing_values_run df Hnodup) as (log & Hrun).
  split; [|split; [|split]].
  - intros Hfills.
    destruct (map_res_exists filled_column (columns df)) as [cols Hcols].
    { apply Forall_forall. intros [c s] Hin.
      apply (lookup_col_distinct _ _ _ Hnodup) in Hin.
      unfold filled_column, filled_series. simpl.
      destruct (isnull_any s) eqn:Hany; [|by eexists].
      unfold fillna. destruct (Hfills c s) as [d ->]; [by apply getitem_Ok | done |].
      by eexists. }
    rewrite Hcols in Hrun. eauto.
  - intros c s e Hs%getitem_Ok Hany Hraise.
    destruct (map_res_Raise filled_column (columns df)) as [e' Hcols].
    { apply Exists_exists. exists (c, s). split; [by apply lookup_col_Some|].
      exists e. unfold filled_column, filled_series, fillna. simpl.
      by rewrite Hany, Hraise. }
    rewrite Hcols in Hrun. eauto.
  - intros log' out Hout. rewrite Hrun in Hout.
    destruct (map_res filled_column (columns df)) as [cols|e] eqn:Hcols; [|done].
    injection Hout as _ <-.
    destruct (filled_columns _ _ Hcols) as (Hnames & Hlookup & Htotal & Hfull).
    split; [done|]. split; [done|]. split; [|done].
    intros c s Hs%getitem_Ok. destruct (Htotal c s Hs) as [s' Hs'].
    exists s'. rewrite getitem_Ok. simpl. rewrite Hlookup, Hs. simpl. rewrite Hs'.
    split; [done|].
    destruct (filled_series_Ok _ _ Hs') as (Hvalues & Hkept & Hfilled).
    split; [done|]. split; [|split; [|done]].
    + intros Hany Hcategory. destruct (Hfilled Hany) as [-> _].
      unfold prepared. rewrite Hcategory. simpl.
      destruct (bool_decide (NOT_AVAILABLE ∈ categories s)) eqn:Hin; simpl.
      * by apply bool_decide_eq_true in Hin.
      * apply elem_of_app. right. left.
    + intros Hany. by destruct (Hfilled Hany).
  - repeat split; try done.
    intros d Hother. rewrite fill_value_of_cases.
    repeat (destruct (decide _) as [->|?];
            [exfalso; apply Hother; set_solver|]).
    done.
Qed.

(** C10: [fill_missing_values] leaves every non-null cell as it is: in the
    table it returns, a cell that held a non-null value holds the same
    value. *)
Theorem fill_missing_values_keeps_values (df : DataFrame) log out c s i v :
  NoDup (names df) ->
  fill_missing_values df = (log, Ok out) ->
  getitem df c = Ok s ->
  values s !! i = Some v ->
  isna v = false ->
  exists s', getitem out c = Ok s' /\ values s' !! i = Some v.
Proof.
  intros Hnodup Hout Hs%getitem_Ok Hv Hna.
  destruct (fill_missing_values_run df Hnodup) as (log' & Hrun).
  rewrite Hrun in Hout.
  destruct (map_res filled_column (columns df)) as [cols|e] eqn:Hcols; [|done].
  injection Hout as _ <-.
  destruct (filled_columns _ _ Hcols) as (_ & Hlookup & Htotal & _).
  destruct (Htotal c s Hs) as [s' Hs']. exists s'. split.
  - rewrite getitem_Ok. simpl. by rewrite Hlookup, Hs; simpl; rewrite Hs'.
  - destruct (filled_series_Ok _ _ Hs') as (-> & _).
    rewrite list_lookup_fmap, Hv. simpl. unfold filled_cell. by rewrite Hna.
Qed.

End FillerClaims.

Lemma typed_table_fills c s :
  getitem typed_table c = Ok s -> isnull_any s = true ->
  exists d, fillna_dtype (prepared s) (fill_value_of (dtype s)) = Ok d.
Proof.
  intros Hs%getitem_Ok%lookup_col_Some _. unfold typed_table in Hs. simpl in Hs.
  repeat (apply elem_of_cons in Hs as [[= -> ->]|Hs]); [by eexists ..|].
  by apply elem_of_nil in Hs.
Qed.

Lemma fill_missing_values_no_null_witness :
  exists log out,
    fill_missing_values typed_table = (log, Ok out) /\
    Forall (fun cs => Forall (fun v => isna v = false) (values cs.2)) (columns out).
Proof.
  destruct (fill_missing_values_no_null typed_table) as (Hreturns & _ & Hfilled & _).
  - compute_done.
  - destruct (Hreturns typed_table_fills) as (log & out & Hrun).
    exists log, out. split; [exact Hrun|]. apply (Hfilled log out Hrun).
Defined.

(** C5 as the specification words it fails: a column of nullable integers
    with a null cannot hold the text that is the default of its dtype, and
    the filler raises instead of returning a table without null. *)
Lemma fill_missing_values_nullable_raises :
  fill_missing_values nullable_ages
  = ([(INFO, "No missing values to fill in LID")],
     Raise (TypeError "Invalid value 'Not Available' for dtype Int64")).
Proof. reflexivity. Qed.

Lemma fill_missing_values_keeps_values_witness :
  exists log out s',
    fill_missing_values typed_table = (log, Ok out) /\
    getitem out "gift" = Ok s' /\
    values s' !! 1%nat = Some (VFloat float_1234_5).
Proof.
  assert (exists log out, fill_missing_values typed_table = (log, Ok out))
    as (log & out & Hrun) by (eexists _, _; reflexivity).
  destruct (fill_missing_values_keeps_values typed_table log out "gift"
              {| dtype := "float64"; categories := [];
                 values := [VFloat S754_nan; VFloat float_1234_5] |}
              1%nat (VFloat float_1234_5)) as (s' & Hs' & Hv);
    [compute_done | exact Hrun | reflexivity.. |].
  by exists log, out, s'.
Defined.

(** *** Candidates for geocoding *)

Section Geocoding.
Context `{!Library}.

Lemma fold_res_Ok_cons {A B} (f : A -> B -> res A) a x xs r :
  fold_res f a (x :: xs) = Ok r -> exists a', f a x = Ok a' /\ fold_res f a' xs = Ok r.
Proof. simpl. apply bind_Ok. Qed.

Lemma field_filled_Ok row field b :
  field_filled row field = Ok b -> b = non_blank_cell row field.
Proof.
  unfold field_filled, non_blank_cell, row_getitem.
  destruct (lookup_cell field row) as [v|]; simpl; [|done].
  destruct v as [| |b'|n|f|s|ns|l]; try destruct f; simpl;
    unfold mret, res_ret; try congruence; by intros [= <-].
Qed.

Lemma field_filled_total row field v :
  lookup_cell field row = Some v -> text_or_null v = true ->
  field_filled row field = Ok (non_blank_cell row field).
Proof.
  unfold field_filled, non_blank_cell, row_getitem. intros -> Htext. simpl.
  destruct v as [| |b'|n|f|s|ns|l]; try destruct f; simpl in *; done.
Qed.

Lemma all_res_Ok row fields b :
  all_res (field_filled row) fields = Ok b -> b = forallb (non_blank_cell row) fields.
Proof.
  revert b. induction fields as [|field fields IH]; intros b; simpl.
  - by intros [= <-].
  - intros (b1 & Hb1%field_filled_Ok & Hrest)%bind_Ok. rewrite <- Hb1.
    destruct b1; simpl; [auto | by injection Hrest as <-].
Qed.

Lemma all_res_total row fields :
  Forall (fun field => exists v, lookup_cell field row = Some v /\ text_or_null v = true)
         fields ->
  all_res (field_filled row) fields = Ok (forallb (non_blank_cell row) fields).
Proof.
  induction 1 as [|field fields (v & Hv & Htext) _ IH]; simpl; [done|].
  rewrite (field_filled_total _ _ _ Hv Htext). simpl.
  by destruct (non_blank_cell row field).
Qed.

#[local] Arguments all_res {A} p xs : simpl never.
#[local] Arguments forallb {A} f l : simpl never.

Lemma collect_row_Ok acc label row m :
  collect_row acc (label, row) = Ok m ->
  if needs_geocoding row
  then exists address, format_address row = Ok address /\ m = <[label := address]> acc
  else m = acc.
Proof.
  unfold collect_row, needs_geocoding, null_cell, row_getitem.
  destruct (lookup_cell "Latitude" row) as [lat|]; simpl; [|done].
  intros (missing & Hmissing & Hrun)%bind_Ok.
  assert (missing = isna lat ||
            match lookup_cell "Longitude" row with
            | Some v => isna v
            | None => false
            end) as ->.
  { unfold mret, res_ret in Hmissing.
    destruct (isna lat); simpl in *; [congruence|].
    destruct (lookup_cell "Longitude" row); simpl in *; congruence. }
  destruct (_ || _); cbn [andb]; [|by injection Hrun as <-].
  apply bind_Ok in Hrun as (address & Haddress & Hrun).
  apply bind_Ok in Hrun as (filled & ->%all_res_Ok & Hrun).
  destruct (forallb _ _); [|by injection Hrun as <-].
  exists address. split; [done | by injection Hrun as <-].
Qed.

Lemma collect_rows_dom items : forall acc m,
  fold_res collect_row acc items = Ok m ->
  forall label : Z,
    label ∈ dom m <->
    label ∈ dom acc \/ exists row, (label, row) ∈ items /\ needs_geocoding row = true.
Proof.
  induction items as [|[label' row'] items IH]; intros acc m Hrun label.
  - injection Hrun as <-. split; [auto|]. intros [?|(row & Hin & _)]; [done|].
    by apply elem_of_nil in Hin.
  - apply fold_res_Ok_cons in Hrun as (acc' & Hrow%collect_row_Ok & Hrest).
    rewrite (IH _ _ Hrest label). clear IH Hrest.
    destruct (needs_geocoding row') eqn:Hneeds.
    + destruct Hrow as (address & _ & ->). rewrite dom_insert, elem_of_union,
        elem_of_singleton. split.
      * intros [[->|Hacc]|(row & Hin & Hrow)]; eauto.
        -- right. exists row'. split; [left | done].
        -- right. exists row. split; [by right | done].
      * intros [Hacc|(row & Hin & Hrow)]; [auto|].
        apply elem_of_cons in Hin as [[= -> ->]|Hin]; eauto.
    + subst acc'. split.
      * intros [Hacc|(row & Hin & Hrow)]; [auto|].
        right. exists row. split; [by right | done].
      * intros [Hacc|(row & Hin & Hrow)]; [auto|].
        apply elem_of_cons in Hin as [[= -> ->]|Hin]; [congruence | eauto].
Qed.

Lemma collect_row_total acc label row :
  readable row -> exists m, collect_row acc (label, row) = Ok m.
Proof.
  intros ([lat Hlat] & [lon Hlon] & Hhome).
  unfold collect_row, row_getitem. rewrite Hlat, Hlon. simpl.
  rewrite (all_res_total _ _ Hhome).
  assert (exists address, format_address row = Ok address) as [address ->].
  { unfold format_address, row_getitem.
    repeat (apply Forall_cons in Hhome as [(? & -> & _) Hhome]). simpl. eauto. }
  unfold mbind, res_bind, mret, res_ret.
  destruct (isna lat); [|destruct (isna lon)];
    destruct (forallb (non_blank_cell row) HOME_FIELDS); eauto.
Qed.

Lemma collect_rows_total items : forall acc,
  Forall (fun item => readable item.2) items ->
  exists m, fold_res collect_row acc items = Ok m.
Proof.
  induction items as [|[label row] items IH]; intros acc Hitems; cbn [fold_res].
  - by exists acc.
  - apply Forall_cons in Hitems as [Hrow Hitems].
    destruct (collect_row_total acc label row Hrow) as (acc' & ->).
    exact (IH acc' Hitems).
Qed.

End Geocoding.

Section GeocodingClaims.
Context `{!Library}.

Lemma readable_row_at df i :
  Forall (fun c => c ∈ names df) ("Latitude" :: "Longitude" :: HOME_FIELDS) ->
  (forall c s, c ∈ HOME_FIELDS -> getitem df c = Ok s ->
     Forall (fun v => text_or_null v = true) (values s)) ->
  readable (row_at df i).
Proof.
  intros Hcolumns Htext.
  apply Forall_cons in Hcolumns as [(lat & Hlat)%lookup_col_elem Hcolumns].
  apply Forall_cons in Hcolumns as [(lon & Hlon)%lookup_col_elem Hcolumns].
  unfold readable. rewrite !lookup_cell_row_at, Hlat, Hlon. simpl.
  split; [done|]. split; [done|].
  apply Forall_forall. intros field Hfield.
  rewrite Forall_forall in Hcolumns.
  destruct (lookup_col_elem _ _ (Hcolumns _ Hfield)) as (s & Hs).
  rewrite lookup_cell_row_at, Hs. simpl. eexists. split; [done|].
  assert (Forall (fun v => text_or_null v = true) (values s)) as Hcells
    by (eapply Htext; [done | by apply getitem_Ok]).
  rewrite list_lookup_total_alt.
  destruct (values s !! i) as [v|] eqn:Hv; simpl; [|done].
  rewrite Forall_forall in Hcells. apply Hcells.
  by apply list_elem_of_lookup_2 in Hv.
Qed.

(** C2, as the code has it: on a table with distinct row labels and
    distinct column labels, whenever [collect_addresses_to_geocode] returns,
    the rows it selects are the rows whose Latitude or Longitude is null
    and whose five home-address cells are all non-null and non-blank after
    trimming; a row with a blank or null home-address cell is not selected.
    The function returns on every such table that has the columns it reads
    with text or null in the home-address cells. *)
Theorem geocoding_candidates (df : DataFrame) :
  NoDup (index df) ->
  NoDup (names df) ->
  (Forall (fun c => c ∈ names df) ("Latitude" :: "Longitude" :: HOME_FIELDS) ->
   (forall c s, c ∈ HOME_FIELDS -> getitem df c = Ok s ->
      Forall (fun v => text_or_null v = true) (values s)) ->
   exists addresses, collect_addresses_to_geocode df = Ok addresses) /\
  (forall addresses, collect_addresses_to_geocode df = Ok addresses ->
   forall i label, index df !! i = Some label ->
     (label ∈ dom addresses <-> needs_geocoding (row_at df i) = true) /\
     (forall field, field ∈ HOME_FIELDS ->
        non_blank_cell (row_at df i) field = false -> label ∉ dom addresses)).
Proof.
  intros Hnodup _. split.
  - intros Hcolumns Htext. apply collect_rows_total.
    apply Forall_forall. intros [label row] Hin.
    apply elem_of_lookup_imap_1 in Hin as (i & label' & [= -> ->] & _).
    by apply readable_row_at.
  - intros addresses Hrun i label Hi.
    assert (label ∈ dom addresses <-> needs_geocoding (row_at df i) = true) as Hiff.
    { rewrite (collect_rows_dom _ _ _ Hrun label). split.
      - intros [Hempty|(row & Hin & Hneeds)]; [by apply elem_of_empty in Hempty|].
        apply elem_of_lookup_imap_1 in Hin as (j & label' & [= <- ->] & Hj).
        by rewrite (NoDup_lookup _ _ _ _ Hnodup Hi Hj).
      - intros Hneeds. right. exists (row_at df i). split; [|done].
        apply (elem_of_lookup_imap_2 (fun i label => (label, row_at df i)) _ _ _ Hi). }
    split; [exact Hiff|].
    intros field Hfield Hblank Hselected. apply Hiff in Hselected.
    unfold needs_geocoding in Hselected.
    apply andb_true_iff in Hselected as [_ Hall].
    rewrite forallb_forall in Hall.
    apply list_elem_of_In, Hall in Hfield. congruence.
Qed.

End GeocodingClaims.

Lemma geocoding_candidates_witness :
  exists addresses,
    collect_addresses_to_geocode located = Ok addresses /\
    (0 ∈ dom addresses <-> needs_geocoding (row_at located 0) = true) /\
    2 ∉ dom addresses.
Proof.
  destruct (geocoding_candidates located) as [Hreturns Hselects].
  { compute_done. }
  { compute_done. }
  destruct Hreturns as (addresses & Hrun).
  { compute_done. }
  { intros c s Hc Hs.
    repeat (apply elem_of_cons in Hc as [->|Hc]);
      [vm_compute in Hs; injection Hs as <-; compute_done ..|].
    by apply elem_of_nil in Hc. }
  exists addresses. split; [exact Hrun|]. split.
  - apply (Hselects addresses Hrun 0%nat 0). reflexivity.
  - apply (proj2 (Hselects addresses Hrun 2%nat 2 eq_refl) "Home City"); compute_done.
Defined.

(** C2 as the specification words it fails: the one row of this table has
    no coordinates and five home-address cells that are neither null nor
    blank, the zip code being a number; the row is not selected, the
    function raises on the zip code. *)
Lemma numeric_zip_not_selected :
  NoDup (index numeric_zip) /\
  NoDup (names numeric_zip) /\
  needs_geocoding (row_at numeric_zip 0) = true /\
  collect_addresses_to_geocode numeric_zip = Raise (AttributeError "strip").
Proof.
  split; [|split; [|split]].
  - compute_done.
  - compute_done.
  - vm_compute. reflexivity.
  - vm_compute. reflexivity.
Qed.

(** *** The Affiliation Expander *)

Section Expander.
Context `{!Library}.

Lemma append_inj_r (p a b : string) : p +:+ a = p +:+ b -> a = b.
Proof. induction p as [|c p IH]; simpl; [done|]. intros [= Heq]. auto. Qed.

Lemma prefixed_not_list (t : string) : AFFILIATION_PREFIX +:+ t <> "Affiliation List".
Proof. unfold AFFILIATION_PREFIX. simpl. discriminate. Qed.

Lemma str_split_not_nil sep s : str_split sep s <> [].
Proof.
  destruct s as [|c s]; simpl; [done|].
  destruct (decide (c = sep)); [done|]. by destruct (str_split sep s).
Qed.

Lemma str_join_split sep s : str_join sep (str_split sep s) = s.
Proof.
  induction s as [|c s IH]; simpl; [done|].
  pose proof (str_split_not_nil sep s) as Hnil.
  destruct (decide (c = sep)) as [->|Hne].
  - simpl. destruct (str_split sep s) as [|p ps]; [done|]. by rewrite IH.
  - destruct (str_split sep s) as [|p ps]; [done|].
    destruct ps as [|p' ps]; simpl in *; by rewrite <- IH.
Qed.

Lemma str_split_no_sep sep s :
  Forall (fun t => has_char sep t = false) (str_split sep s).
Proof.
  induction s as [|c s IH]; simpl; [by repeat constructor|].
  destruct (decide (c = sep)) as [->|Hne].
  - by constructor.
  - destruct (str_split sep s) as [|p ps]; simpl.
    + repeat constructor. simpl. by rewrite bool_decide_eq_false_2.
    + apply Forall_cons in IH as [Hp Hps]. constructor; [|done].
      simpl. by rewrite bool_decide_eq_false_2.
Qed.

Lemma series_map_total f g s :
  Forall (fun v => f v = Ok (g v)) (values s) ->
  series_map f s = Ok (new_series (g <$> values s)).
Proof. intros Hall. unfold series_map. by rewrite (map_res_total _ _ _ Hall). Qed.

Lemma clean_affiliations_text v :
  text_or_null v = true -> clean_affiliations v = Ok (token_list v).
Proof.
  unfold clean_affiliations, token_list.
  destruct v as [| |b|n|f|s|ns|l]; try destruct f; simpl; try done;
    intros _; by rewrite elements_empty.
Qed.

Lemma values_token_lists vs :
  values (new_series (token_list <$> vs)) = token_list <$> vs.
Proof.
  simpl. apply infer_cells_other, Forall_fmap, Forall_forall. by intros v _ n.
Qed.

Lemma values_membership_flags t vs :
  values (new_series (membership_flags t vs)) = membership_flags t vs.
Proof.
  simpl. apply infer_cells_other, Forall_fmap, Forall_forall. by intros v _ n.
Qed.

Lemma update_token_lists vs : forall acc,
  fold_res update acc (token_list <$> vs) = Ok (acc ∪ all_tokens vs).
Proof.
  unfold all_tokens.
  induction vs as [|v vs IH]; intros acc.
  - simpl. unfold mret, res_ret. f_equal. by rewrite (right_id_L ∅ (∪)).
  - rewrite !fmap_cons. cbn [fold_res update token_list].
    unfold mret, res_ret, mbind, res_bind. rewrite IH. f_equal.
    rewrite list_to_set_elements_L. simpl. by rewrite (assoc_L (∪)).
Qed.

Lemma contains_token_lists t vs :
  map_res (contains t) (token_list <$> vs) = Ok (membership_flags t vs).
Proof.
  induction vs as [|v vs IH]; [done|].
  rewrite fmap_cons. cbn [map_res contains token_list]. rewrite IH.
  unfold mret, res_ret, mbind, res_bind, membership_flags. rewrite fmap_cons.
  do 3 f_equal. apply bool_decide_ext, elem_of_elements.
Qed.

Lemma add_affiliation_column_Ok df t lists vs :
  lookup_col "Affiliation List" (columns df) = Some lists ->
  values lists = token_list <$> vs ->
  add_affiliation_column df t =
  Ok (setitem df (AFFILIATION_PREFIX +:+ t) (new_series (membership_flags t vs))).
Proof.
  intros Hlists Hvalues. unfold add_affiliation_column, getitem, series_map.
  rewrite Hlists. cbn [mbind res_bind]. by rewrite Hvalues, contains_token_lists.
Qed.

Lemma add_affiliation_columns vs tokens : forall df lists,
  NoDup tokens ->
  lookup_col "Affiliation List" (columns df) = Some lists ->
  values lists = token_list <$> vs ->
  exists out,
    fold_res add_affiliation_column df tokens = Ok out /\
    index out = index df /\
    (forall t, t ∈ tokens ->
       lookup_col (AFFILIATION_PREFIX +:+ t) (columns out) =
       Some (new_series (membership_flags t vs))) /\
    (forall c, (forall t, t ∈ tokens -> c <> AFFILIATION_PREFIX +:+ t) ->
       lookup_col c (columns out) = lookup_col c (columns df)) /\
    (forall c, c ∈ names out <->
       c ∈ names df \/ exists t, t ∈ tokens /\ c = AFFILIATION_PREFIX +:+ t).
Proof.
  induction tokens as [|t tokens IH]; intros df lists Hnodup Hlists Hvalues.
  - exists df. repeat split; try done.
    + intros t Ht. by apply elem_of_nil in Ht.
    + auto.
    + intros [?|(t & Ht & _)]; [done | by apply elem_of_nil in Ht].
  - apply NoDup_cons in Hnodup as [Hfresh Hnodup].
    cbn [fold_res]. rewrite (add_affiliation_column_Ok df t lists vs Hlists Hvalues).
    set (df1 := setitem df _ _).
    destruct (IH df1 lists Hnodup) as (out & Hrun & Hindex & Hflags & Hframe & Hnames).
    { unfold df1, setitem; simpl. rewrite lookup_assign_ne; [done|].
      apply prefixed_not_list. }
    { done. }
    exists out. split; [exact Hrun|]. split; [done|]. split; [|split].
    + intros t' [->|Ht']%elem_of_cons; [|auto].
      rewrite Hframe.
      * unfold df1, setitem; simpl. apply lookup_assign_eq.
      * intros t' Ht' Heq%append_inj_r. congruence.
    + intros c Hc. rewrite Hframe.
      * unfold df1, setitem; simpl. apply lookup_assign_ne.
        intros <-. apply (Hc t); [left | done].
      * intros t' Ht'. apply Hc. by right.
    + intros c. rewrite Hnames. unfold df1, names, setitem; simpl.
      rewrite names_assign. split.
      * intros [[->|Hc]|(t' & Ht' & ->)]; [right; exists t; split; [left|done] | by left |].
        right. exists t'. split; [by right | done].
      * intros [Hc|(t' & [->|Ht']%elem_of_cons & ->)]; [by left; right | by left; left |].
        right. eauto.
Qed.

(** What [create_affiliation_columns] returns for a column of texts and
    nulls. *)
Lemma create_affiliation_columns_text df raw :
  getitem df "Constituent Affiliation" = Ok raw ->
  Forall (fun v => text_or_null v = true) (values raw) ->
  exists out,
    create_affiliation_columns df = ([], Ok (out, all_tokens (values raw))) /\
    index out = index df /\
    getitem out "Affiliation List" = Ok (new_series (token_list <$> values raw)) /\
    (forall t, t ∈ all_tokens (values raw) ->
       getitem out (AFFILIATION_PREFIX +:+ t) =
       Ok (new_series (membership_flags t (values raw)))) /\
    (forall c, c ∈ names out <->
       c ∈ names df \/ c = "Affiliation List" \/
       exists t, t ∈ all_tokens (values raw) /\ c = AFFILIATION_PREFIX +:+ t).
Proof.
  intros Hraw Htext. unfold create_affiliation_columns.
  assert (has_column "Constituent Affiliation" df = true) as ->.
  { apply has_column_true. apply getitem_Ok, lookup_col_Some in Hraw.
    apply list_elem_of_fmap. by exists ("Constituent Affiliation", raw). }
  cbn [negb]. rewrite Hraw. cbn [mbind res_bind].
  rewrite (series_map_total clean_affiliations token_list).
  2:{ eapply Forall_impl; [exact Htext|]. apply clean_affiliations_text. }
  cbn [mbind res_bind]. rewrite getitem_setitem_eq. cbn [mbind res_bind].
  rewrite values_token_lists, update_token_lists.
  rewrite (left_id_L ∅ (∪)). cbn [mbind res_bind].
  set (df1 := setitem df _ _).
  destruct (add_affiliation_columns (values raw) (elements (all_tokens (values raw)))
              df1 (new_series (token_list <$> values raw)))
    as (out & -> & Hindex & Hflags & Hframe & Hnames).
  { apply NoDup_elements. }
  { apply getitem_Ok, getitem_setitem_eq. }
  { apply values_token_lists. }
  exists out. split; [done|]. split; [done|]. split; [|split].
  - apply getitem_Ok. rewrite Hframe; [apply getitem_Ok, getitem_setitem_eq|].
    intros t _ Heq. by apply (prefixed_not_list t).
  - intros t Ht. apply getitem_Ok, Hflags. by apply elem_of_elements.
  - intros c. rewrite Hnames. unfold df1, names, setitem; simpl. rewrite names_assign.
    setoid_rewrite elem_of_elements. tauto.
Qed.

End Expander.

Section ExpanderClaims.
Context `{!Library}.

(** C4: for a table whose affiliation cells are text or null,
    [create_affiliation_columns] returns the union of the token sets of the
    rows (a null cell has no token); the columns of the table it returns
    are those of the input, ['Affiliation List'], and one column
    ['Affiliation: t'] for each token [t] of the union and for nothing
    else (a column ['Affiliation: t'] of the input apart); and that column
    holds, for every row, whether [t] is a token of the row. *)
Theorem affiliation_columns_match_tokens (df : DataFrame) raw :
  getitem df "Constituent Affiliation" = Ok raw ->
  Forall (fun v => text_or_null v = true) (values raw) ->
  exists out,
    create_affiliation_columns df = ([], Ok (out, all_tokens (values raw))) /\
    index out = index df /\
    (forall t, t ∈ all_tokens (values raw) <->
       exists v, v ∈ values raw /\ t ∈ affiliation_tokens v) /\
    (forall v, isna v = true -> affiliation_tokens v = ∅) /\
    (forall c, c ∈ names out <->
       c ∈ names df \/ c = "Affiliation List" \/
       exists t, t ∈ all_tokens (values raw) /\ c = AFFILIATION_PREFIX +:+ t) /\
    (forall t, AFFILIATION_PREFIX +:+ t ∈ names out <->
       t ∈ all_tokens (values raw) \/ AFFILIATION_PREFIX +:+ t ∈ names df) /\
    (forall t, t ∈ all_tokens (values raw) ->
       exists flags,
         getitem out (AFFILIATION_PREFIX +:+ t) = Ok flags /\
         length (values flags) = length (values raw) /\
         forall i v, values raw !! i = Some v ->
           values flags !! i = Some (VBool (bool_decide (t ∈ affiliation_tokens v)))).
Proof.
  intros Hraw Htext.
  destruct (create_affiliation_columns_text df raw Hraw Htext)
    as (out & Hrun & Hindex & _ & Hflags & Hnames).
  exists out. split; [exact Hrun|]. split; [exact Hindex|].
  split; [|split; [|split; [|split]]].
  - intros t. unfold all_tokens. rewrite elem_of_union_list. split.
    + intros (X & (v & -> & Hv)%list_elem_of_fmap & Ht). eauto.
    + intros (v & Hv & Ht). exists (affiliation_tokens v). split; [|done].
      apply list_elem_of_fmap. eauto.
  - intros v Hna. by destruct v.
  - exact Hnames.
  - intros t. rewrite Hnames. split.
    + intros [Hin|[Hlist|(t' & Ht' & ->%append_inj_r)]]; [by right | | by left].
      by apply prefixed_not_list in Hlist.
    + intros [Ht|Hin]; [|by left]. right. right. eauto.
  - intros t Ht. eexists. split; [exact (Hflags t Ht)|].
    rewrite values_membership_flags. split.
    + unfold membership_flags. by rewrite length_fmap.
    + intros i v Hv. unfold membership_flags. by rewrite list_lookup_fmap, Hv.
Qed.

(** C9: the tokens of a non-null affiliation text are the pieces of the
    text between its separators, as they stand: joined by commas they give
    the text (with its newlines turned into commas) back, and no space is
    dropped.  ["A, B"] has the token [" B"], which is not ["B"]; distinct
    tokens name distinct columns, and a table with the cells ["A, B"] and
    ["B"] gets a column for [" B"] and another one for ["B"]. *)
Theorem affiliation_tokens_verbatim (s : string) :
  clean_affiliations (VStr s) =
    Ok (VList (elements
      (list_to_set (str_split "," (str_replace nl "," s)) : gset string))) /\
  str_join "," (str_split "," (str_replace nl "," s)) = str_replace nl "," s /\
  Forall (fun t => has_char "," t = false) (str_split "," (str_replace nl "," s)) /\
  str_split "," (str_replace nl "," "A, B") = ["A"; " B"] /\
  affiliation_tokens (VStr "A, B") = {[ "A"; " B" ]} /\
  " B" <> "B" /\
  (forall t1 t2, t1 <> t2 -> AFFILIATION_PREFIX +:+ t1 <> AFFILIATION_PREFIX +:+ t2) /\
  exists out,
    create_affiliation_columns affiliated = ([], Ok (out, {[ "A"; " B"; "B" ]})) /\
    getitem out "Affiliation:  B" = Ok (new_series [VBool true; VBool false]) /\
    getitem out "Affiliation: B" = Ok (new_series [VBool false; VBool true]).
Proof.
  split; [done|]. split; [apply str_join_split|]. split; [apply str_split_no_sep|].
  split; [done|]. split; [by vm_compute|]. split; [done|]. split.
  { intros t1 t2 Hne Heq%append_inj_r. done. }
  destruct (create_affiliation_columns_text affiliated
              (object_column [VStr "A, B"; VStr "B"]))
    as (out & Hrun & _ & _ & Hflags & _).
  { done. }
  { by repeat constructor. }
  assert (all_tokens [VStr "A, B"; VStr "B"] = {[ "A"; " B"; "B" ]}) as Htokens
    by (by vm_compute).
  simpl in Hrun, Hflags. rewrite Htokens in Hrun, Hflags.
  exists out. split; [exact Hrun|]. split.
  - etrans; [exact (Hflags " B" ltac:(compute_done))|]. by vm_compute.
  - etrans; [exact (Hflags "B" ltac:(compute_done))|]. by vm_compute.
Qed.

End ExpanderClaims.

Lemma affiliation_columns_match_tokens_witness :
  exists out,
    create_affiliation_columns affiliated =
      ([], Ok (out, all_tokens [VStr "A, B"; VStr "B"])) /\
    index out = index affiliated.
Proof.
  destruct (affiliation_columns_match_tokens affiliated
              (object_column [VStr "A, B"; VStr "B"]))
    as (out & Hrun & Hindex & _).
  - reflexivity.
  - repeat constructor.
  - exists out. split; [exact Hrun | exact Hindex].
Defined.

Lemma affiliation_tokens_verbatim_witness :
  AFFILIATION_PREFIX +:+ " B" <> AFFILIATION_PREFIX +:+ "B".
Proof.
  apply (proj1 (proj2 (proj2 (proj2 (proj2 (proj2 (proj2
           (affiliation_tokens_verbatim "A, B")))))))).
  discriminate.
Defined.

(** *** De-duplication by key *)

Section Duplicates.
Context `{!Library}.

Lemma select_lookup {A} (mask : list bool) : forall (xs : list A) j,
  select mask xs !! j = nth_set mask j ≫= (xs !!.).
Proof.
  induction mask as [|b mask IH]; intros xs j; [by destruct xs|].
  destruct xs as [|x xs].
  - by destruct (nth_set (b :: mask) j).
  - destruct b; simpl.
    + destruct j as [|j]; [done|]. simpl. rewrite IH. by destruct (nth_set mask j).
    + rewrite IH. by destruct (nth_set mask j).
Qed.

Lemma nth_set_Some mask : forall j i, nth_set mask j = Some i -> mask !! i = Some true.
Proof.
  induction mask as [|b mask IH]; intros j i; simpl; [done|].
  destruct b.
  - destruct j as [|j]; [by intros [= <-]|].
    destruct (nth_set mask j) as [i'|] eqn:Hj; simpl; [|done].
    intros [= <-]. simpl. eauto.
  - destruct (nth_set mask j) as [i'|] eqn:Hj; simpl; [|done].
    intros [= <-]. simpl. eauto.
Qed.

Lemma nth_set_mono mask : forall j1 j2 i1 i2,
  (j1 < j2)%nat -> nth_set mask j1 = Some i1 -> nth_set mask j2 = Some i2 ->
  (i1 < i2)%nat.
Proof.
  induction mask as [|b mask IH]; intros j1 j2 i1 i2 Hlt; simpl; [done|].
  destruct b.
  - destruct j2 as [|j2]; [lia|].
    destruct (nth_set mask j2) as [i2'|] eqn:Hj2; simpl; [|done].
    destruct j1 as [|j1]; [intros [= <-] [= <-]; lia|].
    destruct (nth_set mask j1) as [i1'|] eqn:Hj1; simpl; [|done].
    intros [= <-] [= <-]. assert (i1' < i2')%nat; [|lia].
    apply (IH j1 j2); [lia | done..].
  - destruct (nth_set mask j1) as [i1'|] eqn:Hj1; simpl; [|done].
    destruct (nth_set mask j2) as [i2'|] eqn:Hj2; simpl; [|done].
    intros [= <-] [= <-]. assert (i1' < i2')%nat; [|lia]. by apply (IH j1 j2).
Qed.

Lemma nth_set_surj mask : forall i,
  mask !! i = Some true -> exists j, nth_set mask j = Some i.
Proof.
  induction mask as [|b mask IH]; intros i; [done|].
  destruct i as [|i]; simpl.
  - intros [= ->]. by exists 0%nat.
  - intros (j & Hj)%IH. destruct b.
    + exists (S j). by rewrite Hj.
    + exists j. by rewrite Hj.
Qed.

Lemma duplicated_from_lookup keys : forall seen i k,
  keys !! i = Some k ->
  duplicated_from seen keys !! i = Some (existsb (same_key k) (seen ++ take i keys)).
Proof.
  induction keys as [|k0 keys IH]; intros seen i k; [done|].
  destruct i as [|i]; simpl.
  - intros [= ->]. by rewrite app_nil_r.
  - intros Hk. rewrite (IH _ _ _ Hk). by rewrite <- app_assoc.
Qed.

Lemma duplicated_from_length keys : forall seen,
  length (duplicated_from seen keys) = length keys.
Proof. induction keys as [|k keys IH]; intros seen; simpl; [done | by rewrite IH]. Qed.

(** A row is kept when no earlier row has its key. *)
Lemma kept_first keys i :
  (negb <$> duplicated keys) !! i = Some true <->
  exists k, keys !! i = Some k /\
    forall i' x, (i' < i)%nat -> keys !! i' = Some x -> same_key k x = false.
Proof.
  unfold duplicated. rewrite list_lookup_fmap. split.
  - destruct (keys !! i) as [k|] eqn:Hk.
    + rewrite (duplicated_from_lookup _ _ _ _ Hk). simpl.
      intros [= Hnone%negb_true_iff]. exists k. split; [done|].
      intros i' x Hlt Hx. destruct (same_key k x) eqn:Hsame; [|done].
      assert (existsb (same_key k) (take i keys) = true) as Hsome; [|congruence].
      apply existsb_exists. exists x. split; [|done].
      apply list_elem_of_In, list_elem_of_lookup. exists i'.
      by rewrite lookup_take_lt.
    + apply lookup_ge_None in Hk. rewrite <- (duplicated_from_length keys []) in Hk.
      apply lookup_ge_None in Hk. by rewrite Hk.
  - intros (k & Hk & Hfirst). rewrite (duplicated_from_lookup _ _ _ _ Hk). simpl.
    f_equal. apply negb_true_iff.
    destruct (existsb (same_key k) (take i keys)) eqn:Hsome; [|done].
    apply existsb_exists in Hsome as (x & Hin & Hsame).
    apply list_elem_of_In, list_elem_of_lookup in Hin as (i' & Hx).
    apply lookup_take_Some in Hx as [Hx Hlt].
    by rewrite (Hfirst i' x Hlt Hx) in Hsame.
Qed.

Lemma LID_not_renamed c : default c (RECOGNITION_DATES !! c) = "LID" <-> c = "LID".
Proof.
  unfold RECOGNITION_DATES. rewrite lookup_insert.
  destruct (decide (_ = c)) as [<-|?]; [done|].
  rewrite lookup_singleton. by destruct (decide (_ = c)) as [<-|?].
Qed.

End Duplicates.

Section DuplicatesClaims.
Context `{!Library}.

Lemma select_lookup_Some {A} mask (xs : list A) j x :
  select mask xs !! j = Some x <-> exists i, nth_set mask j = Some i /\ xs !! i = Some x.
Proof.
  rewrite select_lookup. destruct (nth_set mask j) as [i|]; simpl.
  - split; [eauto | by intros (i' & [= <-] & Hx)].
  - split; [done | by intros (i' & ? & _)].
Qed.

(** Every key has a kept row: the first row with the key. *)
Lemma every_key_kept (keys : list value) :
  Equivalence (fun x y => same_key x y = true) ->
  forall i x, keys !! i = Some x ->
  exists i0 y, keys !! i0 = Some y /\ same_key x y = true /\
    (negb <$> duplicated keys) !! i0 = Some true.
Proof.
  intros Hequiv i. induction (lt_wf i) as [i _ IH]. intros x Hx.
  destruct ((negb <$> duplicated keys) !! i) as [[]|] eqn:Hkept.
  - exists i, x. repeat split; [done | | done]. apply (reflexivity (R := fun x y => same_key x y = true)).
  - rewrite list_lookup_fmap in Hkept. unfold duplicated in Hkept.
    rewrite (duplicated_from_lookup _ _ _ _ Hx) in Hkept. simpl in Hkept.
    injection Hkept as Hsome%negb_false_iff.
    apply existsb_exists in Hsome as (x' & Hin & Hsame).
    apply list_elem_of_In, list_elem_of_lookup in Hin as (i' & Hx').
    apply lookup_take_Some in Hx' as [Hx' Hlt].
    destruct (IH i' Hlt x' Hx') as (i0 & y & Hy & Hsame' & Hkept').
    exists i0, y. repeat split; [done | | done].
    by apply (transitivity (R := fun x y => same_key x y = true) Hsame).
  - rewrite list_lookup_fmap in Hkept. unfold duplicated in Hkept.
    by rewrite (duplicated_from_lookup _ _ _ _ Hx) in Hkept.
Qed.

(** C6, as the code has it: in the table [merged_df_edits] returns no two
    rows have the same LID; every LID of the input is the LID of one row of
    that table; and that row is the first row of the input with the LID,
    with the cells of that row in every column.  The final output is this
    table after [fill_missing_values]: when its column labels are distinct
    and the filler returns, the final output has the same rows, each cell
    being the cell of that first row, or the default of the dtype of its
    column where that cell is null; and when no LID of the kept rows is
    null, the LID column of the final output is the one [merged_df_edits]
    returned, in which no two rows have the same LID. *)
Theorem duplicate_keys_collapse (df : DataFrame) lids :
  Equivalence (fun x y => same_key x y = true) ->
  getitem df "LID" = Ok lids ->
  exists out lids',
    merged_df_edits df = Ok out /\
    getitem out "LID" = Ok lids' /\
    (forall j1 j2 x y,
       values lids' !! j1 = Some x -> values lids' !! j2 = Some y ->
       same_key x y = true -> j1 = j2) /\
    (forall i x, values lids !! i = Some x ->
       exists j y, values lids' !! j = Some y /\ same_key x y = true) /\
    (forall j y, values lids' !! j = Some y ->
       exists i,
         values lids !! i = Some y /\
         (forall i' x, (i' < i)%nat -> values lids !! i' = Some x -> same_key y x = false) /\
         index out !! j = index df !! i /\
         forall c s', getitem out c = Ok s' ->
           exists s, getitem (rename RECOGNITION_DATES df) c = Ok s /\
             values s' !! j = values s !! i) /\
    (NoDup (names out) ->
     forall log final, fill_missing_values out = (log, Ok final) ->
       index final = index out /\
       (forall c s', getitem out c = Ok s' ->
          exists s'', getitem final c = Ok s'' /\
            values s'' = filled_cell (dtype s') <$> values s') /\
       (Forall (fun v => isna v = false) (values lids') ->
          getitem final "LID" = Ok lids')).
Proof.
  intros Hequiv Hlids.
  set (keep := negb <$> duplicated (values lids)).
  set (pick := fun s : Series =>
         {| dtype := dtype s; categories := categories s;
            values := select keep (values s) |}).
  assert (getitem (rename RECOGNITION_DATES df) "LID" = Ok lids) as Hrenamed.
  { apply getitem_Ok. unfold rename; simpl.
    rewrite (lookup_col_rename_fixed _ _ _ LID_not_renamed). by apply getitem_Ok. }
  exists (select_rows keep (rename RECOGNITION_DATES df)), (pick lids).
  assert (forall j y, values (pick lids) !! j = Some y ->
            exists i, nth_set keep j = Some i /\ values lids !! i = Some y) as Hpicked.
  { intros j y Hy. by apply select_lookup_Some. }
  assert (getitem (select_rows keep (rename RECOGNITION_DATES df)) "LID"
          = Ok (pick lids)) as Hcolumn.
  { apply getitem_Ok. unfold select_rows; simpl.
    rewrite (lookup_col_fmap pick). apply getitem_Ok in Hrenamed. simpl in Hrenamed.
    by rewrite Hrenamed. }
  split; [|split; [|split; [|split; [|split]]]].
  - unfold merged_df_edits, drop_duplicates. by rewrite Hrenamed.
  - exact Hcolumn.
  - intros j1 j2 x y (i1 & Hj1 & Hx)%Hpicked (i2 & Hj2 & Hy)%Hpicked Hsame.
    destruct (Nat.lt_trichotomy j1 j2) as [Hlt|[Heq|Hlt]]; [|done|].
    + pose proof (nth_set_mono _ _ _ _ _ Hlt Hj1 Hj2) as Hi.
      apply nth_set_Some, kept_first in Hj2 as (y' & Hy' & Hfirst).
      assert (y' = y) as -> by congruence.
      apply (symmetry (R := fun x y => same_key x y = true)) in Hsame.
      by rewrite (Hfirst _ _ Hi Hx) in Hsame.
    + pose proof (nth_set_mono _ _ _ _ _ Hlt Hj2 Hj1) as Hi.
      apply nth_set_Some, kept_first in Hj1 as (x' & Hx' & Hfirst).
      assert (x' = x) as -> by congruence.
      by rewrite (Hfirst _ _ Hi Hy) in Hsame.
  - intros i x Hx.
    destruct (every_key_kept _ Hequiv i x Hx) as (i0 & y & Hy & Hsame & Hkept).
    apply nth_set_surj in Hkept as (j & Hj). exists j, y. split; [|done].
    apply select_lookup_Some. eauto.
  - intros j y (i & Hj & Hy)%Hpicked. exists i. split; [done|].
    pose proof Hj as (y' & Hy' & Hfirst)%nth_set_Some%kept_first.
    assert (y' = y) as -> by congruence.
    split; [exact Hfirst|]. split.
    + simpl. rewrite select_lookup, Hj. done.
    + intros c s' Hs'%getitem_Ok. unfold select_rows in Hs'; simpl in Hs'.
      rewrite (lookup_col_fmap pick) in Hs'.
      destruct (lookup_col c _) as [s|] eqn:Hs; [|done].
      injection Hs' as <-. exists s. split; [by apply getitem_Ok|].
      simpl. by rewrite select_lookup, Hj.
  - intros Hnodup log final Hfinal.
    destruct (fill_missing_values_Ok _ _ _ Hnodup Hfinal) as (Hindex & Hcolumns).
    split; [exact Hindex|]. split.
    + intros c s' Hs'. destruct (Hcolumns c s' Hs') as (s'' & Hs'' & Hfilled).
      exists s''. split; [exact Hs''|]. by apply filled_series_Ok in Hfilled as [-> _].
    + intros Hfull. destruct (Hcolumns "LID" (pick lids) Hcolumn) as (s'' & Hs'' & Hfilled).
      rewrite (filled_series_full _ Hfull) in Hfilled. by injection Hfilled as <-.
Qed.

End DuplicatesClaims.

Lemma sample_keys_equivalence :
  Equivalence (fun x y : value => same_key x y = true).
Proof.
  split.
  - intros x. by apply bool_decide_eq_true.
  - intros x y ->%bool_decide_eq_true. by apply bool_decide_eq_true.
  - by intros x y z ->%bool_decide_eq_true.
Qed.

Lemma duplicate_keys_collapse_witness :
  exists out lids' log final,
    merged_df_edits merged = Ok out /\
    getitem out "LID" = Ok lids' /\
    values lids' = [VStr "L1"; VStr "L2"] /\
    (forall j1 j2 x y,
       values lids' !! j1 = Some x -> values lids' !! j2 = Some y ->
       same_key x y = true -> j1 = j2) /\
    fill_missing_values out = (log, Ok final) /\
    index final = index out /\
    getitem final "LID" = Ok lids'.
Proof.
  destruct (duplicate_keys_collapse merged
              (object_column [VStr "L1"; VStr "L2"; VStr "L1"]))
    as (out & lids' & Hrun & Hlids & Hunique & _ & _ & Hfinal).
  - exact sample_keys_equivalence.
  - reflexivity.
  - vm_compute in Hrun. injection Hrun as <-.
    vm_compute in Hlids. injection Hlids as <-.
    eexists _, _, _, _. split; [reflexivity|]. split; [reflexivity|].
    split; [reflexivity|]. split; [exact Hunique|].
    split; [vm_compute; reflexivity|].
    eassert (NoDup (names _)) as Hnodup; [|destruct (Hfinal Hnodup _ _ eq_refl)
      as (Hindex & _ & Hkept)].
    { compute_done. }
    split; [exact Hindex|]. apply Hkept. compute_done.
Defined.

(** C6 as the specification words it fails: the two rows of this table have
    different LIDs, a number and a missing one, and [merged_df_edits] keeps
    both; the filler then puts the default of the column, the same number,
    in place of the missing one, and the final output has two rows with
    the same LID. *)
Lemma missing_key_becomes_duplicate :
  same_key (VFloat float_zero) (VFloat S754_nan) = false /\
  merged_df_edits numbered = Ok numbered /\
  (final ← (fill_missing_values numbered).2;
   lids ← getitem final "LID";
   mret (values lids)) = Ok [VFloat float_zero; VFloat float_zero].
Proof.
  split; [|split].
  - vm_compute. reflexivity.
  - vm_compute. reflexivity.
  - vm_compute. reflexivity.
Qed.

(** ** More of the pipeline *)

(** *** The Missing-Value Filler, again *)

Section FillerMore.
Context `{!Library}.

Lemma filled_columns_full cols :
  Forall (fun cs => Forall (fun v => isna v = false) (values cs.2)) cols ->
  map_res filled_column cols = Ok cols.
Proof.
  induction 1 as [|[c s] cols Hs _ IH]; simpl; [done|].
  rewrite filled_column_pair, (filled_series_full s Hs). simpl. by rewrite IH.
Qed.

(** X1: filling twice is filling once: on the table [fill_missing_values]
    returns, [fill_missing_values] changes nothing. *)
Theorem fill_missing_values_idempotent (df : DataFrame) log out :
  NoDup (names df) ->
  fill_missing_values df = (log, Ok out) ->
  exists log', fill_missing_values out = (log', Ok out).
Proof.
  intros Hnodup Hout.
  destruct (fill_missing_values_run df Hnodup) as (log0 & Hrun).
  rewrite Hrun in Hout.
  destruct (map_res filled_column (columns df)) as [cols|e] eqn:Hcols; [|done].
  injection Hout as _ <-.
  destruct (filled_columns _ _ Hcols) as (Hnames & _ & _ & Hfull).
  destruct (fill_missing_values_run {| index := index df; columns := cols |})
    as (log' & Hagain).
  { unfold names. simpl. by rewrite Hnames. }
  exists log'. rewrite Hagain. simpl. by rewrite (filled_columns_full _ Hfull).
Qed.

End FillerMore.

Lemma fill_missing_values_idempotent_witness :
  exists log out log',
    fill_missing_values typed_table = (log, Ok out) /\
    fill_missing_values out = (log', Ok out).
Proof.
  assert (exists log out, fill_missing_values typed_table = (log, Ok out))
    as (log & out & Hrun) by (eexists _, _; reflexivity).
  destruct (fill_missing_values_idempotent typed_table log out) as [log' Hagain];
    [compute_done | exact Hrun |].
  by exists log, out, log'.
Defined.

(** *** The Schema Normalizer, again *)

Section NormalizerMore.
Context `{!Library}.

Lemma names_setitem df c s x :
  x ∈ names (setitem df c s) <-> x = c \/ x ∈ names df.
Proof. unfold names, setitem; simpl. apply names_assign. Qed.

Lemma names_coordinate_columns df c :
  c ∈ names (coordinate_columns df) -> c ∈ names df \/ c ∈ ["Latitude"; "Longitude"].
Proof.
  unfold coordinate_columns.
  set (df1 := if negb _ || negb _ then _ else df).
  assert (forall x, x ∈ names df1 -> x ∈ names df \/ x ∈ ["Latitude"; "Longitude"])
    as Hdf1.
  { intros x. unfold df1. destruct (negb _ || negb _); [|by left].
    unfold setitem_scalar. rewrite !names_setitem.
    intros [->|[->|Hx]]; [right; right; left | right; left | by left]. }
  destruct (_ && _); [|by apply Hdf1].
  rewrite names_rename. intros (c0 & -> & Hc0%Hdf1)%list_elem_of_fmap.
  rewrite lookup_insert. destruct (decide (_ = c0)) as [<-|?]; [right; left|].
  rewrite lookup_singleton. destruct (decide (_ = c0)) as [<-|?]; [right; right; left|].
  done.
Qed.

Lemma names_normalize_columns df out c :
  normalize_columns df = Ok out -> c ∈ names out -> c ∈ names df \/ c ∈ SET_COLUMNS.
Proof.
  unfold normalize_columns. intros Hrun.
  pose proof (names_coordinate_columns df c) as Hcoordinates.
  set (df2 := coordinate_columns df) in *. clearbody df2.
  apply bind_Ok in Hrun as (address & _ & Hrun).
  apply bind_Ok in Hrun as (isr & _ & Hrun).
  apply bind_Ok in Hrun as (merged & _ & Hrun).
  apply bind_Ok in Hrun as (status & _ & Hrun).
  apply bind_Ok in Hrun as (status' & _ & Hrun).
  apply bind_Ok in Hrun as (isr' & _ & Hrun).
  apply bind_Ok in Hrun as (isr_numeric & _ & Hrun).
  apply bind_Ok in Hrun as (um & _ & Hrun).
  apply bind_Ok in Hrun as (um_numeric & _ & Hrun).
  apply bind_Ok in Hrun as (age & _ & Hrun).
  apply bind_Ok in Hrun as (filled & _ & Hrun).
  apply bind_Ok in Hrun as (age' & _ & [= <-]).
  rewrite !names_setitem. unfold SET_COLUMNS.
  intros [->|[->|[->|[->|[->|[->|[->|Hc]]]]]]];
    [right; compute_done.. |].
  destruct (Hcoordinates Hc) as [?|Hin]; [by left | right].
  apply elem_of_cons in Hin as [->|Hin]; [compute_done|].
  apply list_elem_of_singleton in Hin as ->. compute_done.
Qed.

Lemma dropped_not_set :
  Forall (fun c => (c ∉ SET_COLUMNS) /\ c <> "LID") DROPPED_COLUMNS.
Proof. compute_done. Qed.

(** X2: a table [clean_and_prepare_data] returns has none of the columns of
    the drop list, whether it is normalized or returned early. *)
Theorem dropped_columns_gone (df : DataFrame) log out c :
  clean_and_prepare_data df = (log, Ok out) ->
  c ∈ DROPPED_COLUMNS ->
  c ∉ names out.
Proof.
  rewrite clean_and_prepare_data_paths.
  destruct (drop DROPPED_COLUMNS df) as [df1|e] eqn:Hdrop; [|done].
  apply drop_Ok in Hdrop as (_ & _ & Hcolumns). intros Hrun Hc.
  pose proof dropped_not_set as Hset. rewrite Forall_forall in Hset.
  destruct (Hset c Hc) as [Hnotset Hlid].
  assert (c ∉ names df1) as Hgone.
  { unfold names. rewrite Hcolumns.
    intros ([c' s] & -> & [Hkept _]%list_elem_of_filter)%list_elem_of_fmap. done. }
  assert (forall df', c ∉ names df' ->
            c ∉ names (rename {[ "Constituent LookupID" := "LID" ]} df')) as Hrenamed.
  { intros df' Hnot. rewrite names_rename.
    intros (c0 & -> & Hc0)%list_elem_of_fmap.
    rewrite lookup_singleton in Hnot, Hlid.
    destruct (decide (_ = c0)) as [<-|?]; simpl in *; done. }
  assert (forall df', c ∉ names df' -> normalize_columns df' = Ok out -> c ∉ names out)
    as Hnormalized.
  { intros df' Hnot Hnorm Hin.
    destruct (names_normalize_columns _ _ _ Hnorm Hin); done. }
  destruct (has_column "Constituent LookupID" df1); cbn zeta in Hrun.
  - destruct (has_column "LID" _); injection Hrun as _ Hrun.
    + apply (Hnormalized _ (Hrenamed df1 Hgone) Hrun).
    + subst out. auto.
  - destruct (has_column "LID" _); injection Hrun as _ Hrun.
    + by apply (Hnormalized df1).
    + subst out. auto.
Qed.

End NormalizerMore.

Section Derived.
Context `{!Library}.

Lemma names_lookup c cols : c ∈ cols.*1 <-> is_Some (lookup_col c cols).
Proof.
  split.
  - intros [s Hs]%lookup_col_elem. by exists s.
  - intros [s Hs]. by apply (lookup_col_names _ _ s).
Qed.

(** The table that reaches the statements after the check of ['LID']: the
    input without the dropped columns, its identifier renamed. *)
Lemma clean_and_prepare_data_entering df log out :
  clean_and_prepare_data df = (log, Ok out) ->
  "Constituent LookupID" ∈ names df \/ "LID" ∈ names df ->
  exists df',
    normalize_columns df' = Ok out /\ index df' = index df /\
    forall c, c ∉ DROPPED_COLUMNS -> c <> "LID" -> c <> "Constituent LookupID" ->
      lookup_col c (columns df') = lookup_col c (columns df).
Proof.
  rewrite clean_and_prepare_data_paths.
  destruct (drop DROPPED_COLUMNS df) as [df1|e] eqn:Hdrop; [|done].
  apply drop_Ok in Hdrop as (_ & Hindex & Hcolumns).
  destruct identifier_kept as [Hid Hlid]. intros Hrun Hkey.
  assert ("Constituent LookupID" ∈ names df1 \/ "LID" ∈ names df1) as Hkey1.
  { unfold names. rewrite Hcolumns, !names_filter_kept by done. exact Hkey. }
  assert (forall c, c ∉ DROPPED_COLUMNS ->
            lookup_col c (columns df1) = lookup_col c (columns df)) as Hdropped.
  { intros c Hc. by rewrite Hcolumns, lookup_col_filter, decide_False. }
  destruct (has_column "Constituent LookupID" df1) eqn:Hhas; cbn zeta in Hrun.
  - assert (has_column "LID" (rename {[ "Constituent LookupID" := "LID" ]} df1) = true)
      as Hrenamed.
    { apply has_column_true. rewrite names_rename. apply list_elem_of_fmap.
      exists "Constituent LookupID". split; [done|]. by apply has_column_true. }
    rewrite Hrenamed in Hrun. injection Hrun as _ Hrun.
    exists (rename {[ "Constituent LookupID" := "LID" ]} df1).
    split; [done|]. split; [done|]. intros c Hc Hne Hne'.
    rewrite <- Hdropped by done. unfold rename; simpl.
    apply lookup_col_rename_fixed, rename_fixed.
    + by apply lookup_singleton_ne.
    + by intros c' v [<- <-]%lookup_singleton_Some.
  - destruct (has_column "LID" df1) eqn:Hhas'.
    + injection Hrun as _ Hrun. exists df1. auto.
    + apply has_column_false in Hhas, Hhas'. tauto.
Qed.

(** The statements after the coordinate columns set other columns. *)
Lemma normalize_columns_frame df out c :
  normalize_columns df = Ok out ->
  c ∉ ["Primary Address"; "donor_status";
       "Institute for Social Research Lifetime Recognition Numeric";
       "UM-Wide Lifetime Recognition Numeric"; "Age"] ->
  getitem out c = getitem (coordinate_columns df) c.
Proof.
  unfold normalize_columns. intros Hrun Hc.
  set (df2 := coordinate_columns df) in *. clearbody df2.
  apply bind_Ok in Hrun as (address & _ & Hrun).
  apply bind_Ok in Hrun as (isr & _ & Hrun).
  apply bind_Ok in Hrun as (merged & _ & Hrun).
  apply bind_Ok in Hrun as (status & _ & Hrun).
  apply bind_Ok in Hrun as (status' & _ & Hrun).
  apply bind_Ok in Hrun as (isr' & _ & Hrun).
  apply bind_Ok in Hrun as (isr_numeric & _ & Hrun).
  apply bind_Ok in Hrun as (um & _ & Hrun).
  apply bind_Ok in Hrun as (um_numeric & _ & Hrun).
  apply bind_Ok in Hrun as (age & _ & Hrun).
  apply bind_Ok in Hrun as (filled & _ & Hrun).
  apply bind_Ok in Hrun as (age' & _ & [= <-]).
  rewrite !getitem_setitem_ne; [done|..]; intros <-; apply Hc; compute_done.
Qed.

Lemma normalize_columns_numeric df out :
  normalize_columns df = Ok out ->
  exists isr um isr_numeric um_numeric rs rs',
    getitem out ISR_RECOGNITION = Ok isr /\
    getitem out UM_RECOGNITION = Ok um /\
    getitem out "Institute for Social Research Lifetime Recognition Numeric" =
      Ok isr_numeric /\
    getitem out "UM-Wide Lifetime Recognition Numeric" = Ok um_numeric /\
    Forall2 (fun x r => replace x = Ok r) (values isr) rs /\
    values isr_numeric = infer_cells rs /\
    Forall2 (fun x r => replace x = Ok r) (values um) rs' /\
    values um_numeric = infer_cells rs'.
Proof.
  intros Hrun.
  pose proof (normalize_columns_frame df out ISR_RECOGNITION Hrun
                ltac:(compute_done)) as Hisr_out.
  pose proof (normalize_columns_frame df out UM_RECOGNITION Hrun
                ltac:(compute_done)) as Hum_out.
  revert Hrun. unfold normalize_columns.
  set (df2 := coordinate_columns df) in *. clearbody df2. intros Hrun.
  apply bind_Ok in Hrun as (address & _ & Hrun).
  apply bind_Ok in Hrun as (isr0 & _ & Hrun).
  apply bind_Ok in Hrun as (merged & _ & Hrun).
  apply bind_Ok in Hrun as (status & _ & Hrun).
  apply bind_Ok in Hrun as (status' & _ & Hrun).
  apply bind_Ok in Hrun as (isr & Hisr & Hrun).
  apply bind_Ok in Hrun as (isr_numeric & Hisr_numeric & Hrun).
  apply bind_Ok in Hrun as (um & Hum & Hrun).
  apply bind_Ok in Hrun as (um_numeric & Hum_numeric & Hrun).
  apply bind_Ok in Hrun as (age & _ & Hrun).
  apply bind_Ok in Hrun as (filled & _ & Hrun).
  apply bind_Ok in Hrun as (age' & _ & [= <-]).
  rewrite !getitem_setitem_ne in Hisr by distinct.
  rewrite !getitem_setitem_ne in Hum by distinct.
  unfold series_map in Hisr_numeric, Hum_numeric.
  apply bind_Ok in Hisr_numeric as (rs & Hrs%map_res_Ok & [= <-]).
  apply bind_Ok in Hum_numeric as (rs' & Hrs'%map_res_Ok & [= <-]).
  exists isr, um, (new_series rs), (new_series rs'), rs, rs'.
  rewrite Hisr_out, Hum_out.
  split; [done|]. split; [done|].
  rewrite !getitem_setitem_ne by distinct. rewrite getitem_setitem_eq.
  rewrite !getitem_setitem_ne by distinct. rewrite getitem_setitem_eq.
  done.
Qed.

End Derived.

Section NormalizerExtras.
Context `{!Library}.

(** X3: in a table [clean_and_prepare_data] returns normalized, the cells
    of the two numeric recognition columns are what [replace] returns for
    the recognition cells of the input, row by row, as pandas holds the
    returned numbers in one column (with a float among them, the 0 of a
    null cell is held as 0.0); so no table is returned when [replace]
    raises on a recognition cell. *)
Theorem recognition_numeric (df : DataFrame) log out :
  clean_and_prepare_data df = (log, Ok out) ->
  "Constituent LookupID" ∈ names df \/ "LID" ∈ names df ->
  exists isr um isr_numeric um_numeric rs rs',
    getitem df ISR_RECOGNITION = Ok isr /\
    getitem df UM_RECOGNITION = Ok um /\
    getitem out "Institute for Social Research Lifetime Recognition Numeric" =
      Ok isr_numeric /\
    getitem out "UM-Wide Lifetime Recognition Numeric" = Ok um_numeric /\
    Forall2 (fun x r => replace x = Ok r) (values isr) rs /\
    values isr_numeric = infer_cells rs /\
    Forall2 (fun x r => replace x = Ok r) (values um) rs' /\
    values um_numeric = infer_cells rs' /\
    Forall parses (values isr) /\ Forall parses (values um).
Proof.
  intros Hrun Hkey.
  destruct (clean_and_prepare_data_entering _ _ _ Hrun Hkey)
    as (df' & Hnorm & _ & Hsame).
  pose proof (normalize_columns_frame _ _ ISR_RECOGNITION Hnorm ltac:(compute_done))
    as Hisr_out.
  pose proof (normalize_columns_frame _ _ UM_RECOGNITION Hnorm ltac:(compute_done))
    as Hum_out.
  destruct (normalize_columns_numeric _ _ Hnorm)
    as (isr & um & isr_numeric & um_numeric & rs & rs' & Hisr & Hum & Hn1 & Hn2
        & Hr1 & Hv1 & Hr2 & Hv2).
  exists isr, um, isr_numeric, um_numeric, rs, rs'.
  assert (forall c, c ∉ MOVED_COLUMNS ->
            getitem (coordinate_columns df') c = getitem df c) as Hinput.
  { intros c Hc. unfold getitem. rewrite lookup_coordinate_columns by done.
    rewrite Hsame; [done|..].
    - intros Hin. apply Hc. unfold MOVED_COLUMNS. apply elem_of_app. by right.
    - apply (not_moved c); [done | compute_done].
    - apply (not_moved c); [done | compute_done]. }
  rewrite Hisr_out, Hinput in Hisr by compute_done.
  rewrite Hum_out, Hinput in Hum by compute_done.
  repeat split; try done.
  - apply Forall_forall. intros x Hx.
    apply list_elem_of_lookup in Hx as (i & Hx).
    destruct (Forall2_lookup_l _ _ _ _ _ Hr1 Hx) as (r & _ & Hr). by exists r.
  - apply Forall_forall. intros x Hx.
    apply list_elem_of_lookup in Hx as (i & Hx).
    destruct (Forall2_lookup_l _ _ _ _ _ Hr2 Hx) as (r & _ & Hr). by exists r.
Qed.

Lemma has_column_same (df df' : DataFrame) c :
  lookup_col c (columns df') = lookup_col c (columns df) ->
  has_column c df' = has_column c df.
Proof.
  intros Hsame. unfold has_column, names. apply bool_decide_ext.
  by rewrite !names_lookup, Hsame.
Qed.

(** X4: [clean_and_prepare_data] keeps the coordinates only of a table that
    has both coordinate columns: when ['Latitude'] or ['Longitude'] is
    missing, both columns of the result hold [None] in every row, also the
    one the input had.  (For a table without the pair ['latitude'],
    ['longitude'].) *)
Theorem coordinates_kept_or_reset (df : DataFrame) log out :
  clean_and_prepare_data df = (log, Ok out) ->
  "Constituent LookupID" ∈ names df \/ "LID" ∈ names df ->
  ~ ("latitude" ∈ names df /\ "longitude" ∈ names df) ->
  if has_column "Latitude" df && has_column "Longitude" df
  then getitem out "Latitude" = getitem df "Latitude" /\
       getitem out "Longitude" = getitem df "Longitude"
  else getitem out "Latitude" = Ok (new_series (replicate (length (index df)) VNone)) /\
       getitem out "Longitude" = Ok (new_series (replicate (length (index df)) VNone)).
Proof.
  intros Hrun Hkey Hlower.
  destruct (clean_and_prepare_data_entering _ _ _ Hrun Hkey)
    as (df' & Hnorm & Hindex & Hsame).
  rewrite (normalize_columns_frame _ _ "Latitude" Hnorm) by compute_done.
  rewrite (normalize_columns_frame _ _ "Longitude" Hnorm) by compute_done.
  assert (forall c, c ∈ ["Latitude"; "Longitude"; "latitude"; "longitude"] ->
            lookup_col c (columns df') = lookup_col c (columns df)) as Hcoordinates.
  { intros c Hc. apply Hsame;
      repeat (apply elem_of_cons in Hc as [->|Hc]); try compute_done;
      by apply elem_of_nil in Hc. }
  assert (has_column "latitude" df' && has_column "longitude" df' = false) as Hlower'.
  { rewrite !(has_column_same df df') by (apply Hcoordinates; compute_done).
    apply andb_false_iff. rewrite !has_column_false.
    destruct (decide ("latitude" ∈ names df)); [|by left].
    destruct (decide ("longitude" ∈ names df)); [tauto | by right]. }
  unfold coordinate_columns.
  rewrite <- !(has_column_same df df') by (apply Hcoordinates; compute_done).
  destruct (has_column "Latitude" df' && has_column "Longitude" df') eqn:Hboth.
  - apply andb_true_iff in Hboth as [-> ->]. cbn [negb orb]. rewrite Hlower'.
    unfold getitem. by rewrite !Hcoordinates by compute_done.
  - assert (negb (has_column "Latitude" df') || negb (has_column "Longitude" df') = true)
      as ->.
    { apply andb_false_iff in Hboth as [->| ->]; [done | apply orb_true_r]. }
    set (df1 := setitem_scalar (setitem_scalar df' _ _) _ _).
    assert (has_column "latitude" df1 && has_column "longitude" df1 = false) as ->.
    { etrans; [|exact Hlower']. f_equal; apply has_column_same;
        unfold df1, setitem_scalar, setitem; simpl;
        by rewrite !lookup_assign_ne by done. }
    unfold df1, setitem_scalar. rewrite getitem_setitem_eq.
    rewrite getitem_setitem_ne, getitem_setitem_eq by done. simpl.
    by rewrite Hindex.
Qed.

(** X5: [clean_and_prepare_data] logs the start of the cleaning and, when
    the table passes the column removal and has no ['Constituent
    LookupID'] column, the error; it logs the error also for a table that
    has ['LID'] and is normalized, and logs nothing else whatever happens
    later. *)
Theorem clean_and_prepare_data_log (df : DataFrame) :
  (clean_and_prepare_data df).1 =
    if bool_decide (Forall (fun c => c ∈ names df) DROPPED_COLUMNS)
       && negb (has_column "Constituent LookupID" df)
    then [START; NO_LOOKUP_ID] else [START].
Proof.
  rewrite clean_and_prepare_data_paths.
  destruct (decide (Forall (fun c => c ∈ names df) DROPPED_COLUMNS)) as [Hall|Hsome].
  - rewrite (bool_decide_eq_true_2 _ Hall), (drop_total _ _ Hall). cbn [andb].
    set (df1 := {| index := index df; columns := _ |}).
    assert (has_column "Constituent LookupID" df1 = has_column "Constituent LookupID" df)
      as ->.
    { apply has_column_same. unfold df1; simpl.
      rewrite lookup_col_filter, decide_False; [done | apply identifier_kept]. }
    destruct (has_column "Constituent LookupID" df); cbn zeta;
      by destruct (has_column "LID" _).
  - rewrite (bool_decide_eq_false_2 _ Hsome).
    apply not_Forall_Exists in Hsome; [|apply _].
    by destruct (drop_Raise _ _ Hsome) as (missing & -> & _).
Qed.

End NormalizerExtras.

Lemma dropped_columns_gone_witness : "Full Name" ∉ names normalized_export.
Proof.
  apply (dropped_columns_gone raw_export [START] normalized_export).
  - vm_compute. reflexivity.
  - compute_done.
Defined.

Lemma recognition_numeric_witness :
  exists isr_numeric,
    getitem normalized_export
      "Institute for Social Research Lifetime Recognition Numeric" = Ok isr_numeric /\
    values isr_numeric = [VFloat float_1234_5; VFloat float_zero; VFloat float_zero].
Proof.
  destruct (recognition_numeric raw_export [START] normalized_export)
    as (isr & um & isr_numeric & um_numeric & rs & rs' & _ & _ & Hnumeric & _).
  - vm_compute. reflexivity.
  - left. compute_done.
  - exists isr_numeric. split; [exact Hnumeric|].
    vm_compute in Hnumeric. by injection Hnumeric as <-.
Defined.

Lemma coordinates_kept_or_reset_witness :
  getitem normalized_export "Latitude" = Ok (new_series [VNone; VNone; VNone]) /\
  getitem normalized_export "Longitude" = Ok (new_series [VNone; VNone; VNone]).
Proof.
  apply (coordinates_kept_or_reset raw_export [START] normalized_export).
  - vm_compute. reflexivity.
  - left. compute_done.
  - intros [Hlatitude _]. revert Hlatitude. compute_done.
Defined.

(** *** Candidates for geocoding, again *)

Section GeocodingMore.
Context `{!Library}.

#[local] Arguments all_res {A} p xs : simpl never.
#[local] Arguments forallb {A} f l : simpl never.

Lemma collect_rows_lookup items : forall acc m,
  fold_res collect_row acc items = Ok m ->
  forall (label : Z) a, m !! label = Some a ->
    acc !! label = Some a \/
    exists row, (label, row) ∈ items /\ needs_geocoding row = true /\
                format_address row = Ok a.
Proof.
  induction items as [|[label' row'] items IH]; intros acc m Hrun label a Ha.
  - injection Hrun as <-. by left.
  - apply fold_res_Ok_cons in Hrun as (acc' & Hrow%collect_row_Ok & Hrest).
    destruct (IH _ _ Hrest label a Ha) as [Hacc'|(row & Hin & Hrow')].
    + destruct (needs_geocoding row') eqn:Hneeds.
      * destruct Hrow as (address & Haddress & ->).
        apply lookup_insert_Some in Hacc' as [[<- <-]|[_ Hacc]]; [|by left].
        right. exists row'. split; [left | done].
      * subst acc'. by left.
    + right. exists row. split; [by right | done].
Qed.

(** X6: every entry of the dictionary [collect_addresses_to_geocode]
    returns belongs to a row of the table: its key is the label of a row
    that needs geocoding and its value is the address composed from the
    home cells of that row. *)
Theorem geocoding_addresses (df : DataFrame) addresses label a :
  collect_addresses_to_geocode df = Ok addresses ->
  addresses !! label = Some a ->
  exists i,
    index df !! i = Some label /\
    needs_geocoding (row_at df i) = true /\
    format_address (row_at df i) = Ok a.
Proof.
  intros Hrun Ha.
  destruct (collect_rows_lookup _ _ _ Hrun label a Ha) as [Hempty|(row & Hin & Hrow)].
  - by rewrite lookup_empty in Hempty.
  - apply elem_of_lookup_imap_1 in Hin as (i & label' & [= <- ->] & Hi). eauto.
Qed.

Lemma collect_rows_each items : forall acc m,
  fold_res collect_row acc items = Ok m ->
  forall item, item ∈ items -> exists acc' m', collect_row acc' item = Ok m'.
Proof.
  induction items as [|item' items IH]; intros acc m Hrun item Hin.
  - by apply elem_of_nil in Hin.
  - apply fold_res_Ok_cons in Hrun as (acc' & Hrow & Hrest).
    apply elem_of_cons in Hin as [->|Hin]; [eauto | by eapply IH].
Qed.

Lemma all_res_reaches row pre field post b :
  all_res (field_filled row) (pre ++ field :: post) = Ok b ->
  Forall (fun g => non_blank_cell row g = true) pre ->
  exists b', field_filled row field = Ok b'.
Proof.
  induction pre as [|g pre IH]; unfold all_res; fold (@all_res string); simpl.
  - intros (b' & Hb' & _)%bind_Ok _. eauto.
  - intros (b1 & Hb1 & Hrest)%bind_Ok [Hg Hpre]%Forall_cons.
    apply field_filled_Ok in Hb1 as ->. rewrite Hg in Hrest. auto.
Qed.

(** X7: [collect_addresses_to_geocode] raises when a row without
    coordinates has a home-address cell that is neither null nor text (a
    zip code read as a number, say) after home-address cells that are
    filled: such a row is neither selected nor skipped. *)
Theorem non_text_home_cell_raises (df : DataFrame) i label pre field post v :
  index df !! i = Some label ->
  null_cell (row_at df i) "Latitude" || null_cell (row_at df i) "Longitude" = true ->
  HOME_FIELDS = pre ++ field :: post ->
  Forall (fun g => non_blank_cell (row_at df i) g = true) pre ->
  lookup_cell field (row_at df i) = Some v ->
  text_or_null v = false ->
  exists e, collect_addresses_to_geocode df = Raise e.
Proof.
  intros Hi Hmissing Hfields Hpre Hv Htext.
  destruct (collect_addresses_to_geocode df) as [m|e] eqn:Hrun; [exfalso | eauto].
  destruct (collect_rows_each _ _ _ Hrun (label, row_at df i)) as (acc & m' & Hrow).
  { apply (elem_of_lookup_imap_2 (fun i label => (label, row_at df i)) _ _ _ Hi). }
  revert Hrow Hmissing. unfold collect_row, null_cell, row_getitem.
  destruct (lookup_cell "Latitude" (row_at df i)) as [lat|]; [|done]. simpl.
  intros (missing & Hmissing' & Hrow)%bind_Ok Hmissing.
  assert (missing = true) as ->.
  { destruct (isna lat); simpl in *; [by injection Hmissing' as <-|].
    destruct (lookup_cell "Longitude" _); simpl in *; [|done].
    injection Hmissing' as <-. done. }
  apply bind_Ok in Hrow as (address & _ & Hrow).
  apply bind_Ok in Hrow as (filled & Hfilled & _).
  rewrite Hfields in Hfilled.
  destruct (all_res_reaches _ _ _ _ _ Hfilled Hpre) as (b' & Hb').
  revert Hb'. unfold field_filled, row_getitem. rewrite Hv. simpl.
  destruct v as [| |b|n|f|s|ns|l]; try destruct f; simpl in *; done.
Qed.

End GeocodingMore.

Lemma geocoding_addresses_witness :
  exists i,
    index located !! i = Some 0 /\
    needs_geocoding (row_at located i) = true /\
    format_address (row_at located i) = Ok "426 Thompson St, Ann Arbor, MI 48104, USA".
Proof.
  destruct (collect_addresses_to_geocode located) as [addresses|e] eqn:Hrun.
  - apply (geocoding_addresses located addresses 0 _ Hrun).
    revert Hrun. vm_compute. by intros [= <-].
  - exfalso. revert Hrun. vm_compute. discriminate.
Defined.

Lemma non_text_home_cell_raises_witness :
  exists e, collect_addresses_to_geocode numeric_zip = Raise e.
Proof.
  apply (non_text_home_cell_raises numeric_zip 0 7
           ["Home Address"; "Home City"; "Home State"] "Home Zip" ["Home Country"]
           (VInt 48104)); try reflexivity.
  by repeat constructor.
Defined.

(** *** The Affiliation Expander, again *)

Section ExpanderMore.
Context `{!Library}.

(** X8: in the ['Affiliation List'] column [create_affiliation_columns]
    makes, the cell of a row lists the tokens of the row without
    repetition: none for a null cell, at least one for a text (the empty
    text has the empty token). *)
Theorem affiliation_list_cells (df : DataFrame) raw :
  getitem df "Constituent Affiliation" = Ok raw ->
  Forall (fun v => text_or_null v = true) (values raw) ->
  exists out tokens lists,
    create_affiliation_columns df = ([], Ok (out, tokens)) /\
    getitem out "Affiliation List" = Ok lists /\
    length (values lists) = length (values raw) /\
    forall i v, values raw !! i = Some v ->
      exists l,
        values lists !! i = Some (VList l) /\
        NoDup l /\
        (forall t, t ∈ l <-> t ∈ affiliation_tokens v) /\
        (isna v = true -> l = []) /\
        (forall s, v = VStr s -> l <> []).
Proof.
  intros Hraw Htext.
  destruct (create_affiliation_columns_text df raw Hraw Htext)
    as (out & Hrun & _ & Hlists & _).
  eexists out, _, _. split; [exact Hrun|]. split; [exact Hlists|].
  rewrite values_token_lists.
  split; [by rewrite length_fmap|].
  intros i v Hv. exists (elements (affiliation_tokens v)).
  rewrite list_lookup_fmap, Hv. split; [done|]. split; [apply NoDup_elements|].
  split; [intros t; apply elem_of_elements|]. split.
  - intros Hna. destruct v; try done; by rewrite elements_empty.
  - intros s -> Hnil. apply elements_empty_inv in Hnil.
    pose proof (str_split_not_nil "," (str_replace nl "," s)) as Hsplit.
    destruct (str_split "," (str_replace nl "," s)) as [|t ts] eqn:Hts; [done|].
    simpl in Hnil. rewrite Hts in Hnil. simpl in Hnil.
    apply (not_elem_of_empty (C := gset string) t). rewrite <- Hnil.
    apply elem_of_union_l, elem_of_singleton. done.
Qed.

(** X9: the two ways [create_affiliation_columns] gives no columns: for a
    table without the ['Constituent Affiliation'] column it logs an error
    and returns the table as it is with no affiliation; for a table with a
    cell in that column that is neither null nor text it raises. *)
Theorem affiliation_columns_refused (df : DataFrame) :
  ("Constituent Affiliation" ∉ names df ->
   create_affiliation_columns df =
     ([(ERROR, "Constituent Affiliation column missing.")], Ok (df, ∅))) /\
  (forall raw,
     getitem df "Constituent Affiliation" = Ok raw ->
     Exists (fun v => text_or_null v = false) (values raw) ->
     exists e, create_affiliation_columns df = ([], Raise e)).
Proof.
  split.
  - intros Habsent%has_column_false. unfold create_affiliation_columns.
    by rewrite Habsent.
  - intros raw Hraw Hbad. unfold create_affiliation_columns.
    assert (has_column "Constituent Affiliation" df = true) as ->.
    { apply has_column_true. apply getitem_Ok in Hraw.
      by apply (lookup_col_names _ _ raw). }
    cbn [negb]. rewrite Hraw. cbn [mbind res_bind]. unfold series_map.
    destruct (map_res_Raise clean_affiliations (values raw)) as [e ->]; [|by exists e].
    eapply Exists_impl; [exact Hbad|]. intros v Hv.
    destruct v as [| |b|n|f|s|ns|l]; try destruct f; simpl in Hv; try done;
      by eexists.
Qed.

End ExpanderMore.

Lemma affiliation_list_cells_witness :
  exists out tokens lists,
    create_affiliation_columns affiliated = ([], Ok (out, tokens)) /\
    getitem out "Affiliation List" = Ok lists /\
    length (values lists) = 2%nat.
Proof.
  destruct (affiliation_list_cells affiliated (object_column [VStr "A, B"; VStr "B"]))
    as (out & tokens & lists & Hrun & Hlists & Hlength & _).
  - reflexivity.
  - by repeat constructor.
  - by exists out, tokens, lists.
Defined.

Lemma affiliation_columns_refused_witness :
  create_affiliation_columns located =
    ([(ERROR, "Constituent Affiliation column missing.")], Ok (located, ∅)).
Proof. apply (proj1 (affiliation_columns_refused located)). compute_done. Defined.

(** *** De-duplication, again *)

Section DuplicatesMore.
Context `{!Library}.

Lemma rename_recognition_dates_twice df :
  rename RECOGNITION_DATES (rename RECOGNITION_DATES df) = rename RECOGNITION_DATES df.
Proof.
  unfold rename; simpl. f_equal. rewrite <- list_fmap_compose.
  apply list_fmap_ext. intros _ [c s] _. simpl. f_equal.
  unfold RECOGNITION_DATES.
  destruct (decide (c = "Date of Last Recognition Transaction")) as [->|Hfirst];
    [done|].
  destruct (decide (c = "Date of Last Recognition Transaction.1")) as [->|Hsecond];
    [done|].
  rewrite !lookup_insert. rewrite decide_False by done.
  rewrite !lookup_singleton. rewrite decide_False by done. simpl.
  rewrite decide_False by done. by rewrite decide_False by done.
Qed.

Lemma rename_select_rows mapping mask df :
  rename mapping (select_rows mask df) = select_rows mask (rename mapping df).
Proof.
  unfold rename, select_rows; simpl. f_equal.
  rewrite <- !list_fmap_compose. by apply list_fmap_ext.
Qed.

Lemma select_all {A} (mask : list bool) : forall xs : list A,
  Forall (fun b => b = true) mask -> (length xs <= length mask)%nat ->
  select mask xs = xs.
Proof.
  induction mask as [|b mask IH]; intros [|x xs] Hall Hlen; simpl in *;
    [done | lia | done |].
  apply Forall_cons in Hall as [-> Hall]. f_equal. apply IH; [done | lia].
Qed.

Lemma select_length {A B} (mask : list bool) : forall (xs : list A) (ys : list B),
  length xs = length ys -> length (select mask xs) = length (select mask ys).
Proof.
  induction mask as [|b mask IH]; intros [|x xs] [|y ys] Hlen; simpl in *; try done.
  destruct b; simpl; [f_equal|]; apply IH; lia.
Qed.

(** Among the kept keys none is a duplicate. *)
Lemma kept_keys_distinct (keys : list value) :
  Forall (fun b => b = true)
    (negb <$> duplicated (select (negb <$> duplicated keys) keys)).
Proof.
  apply Forall_lookup. intros j b Hb.
  assert (is_Some (select (negb <$> duplicated keys) keys !! j)) as [k Hk].
  { apply lookup_lt_is_Some. apply lookup_lt_Some in Hb.
    unfold duplicated in Hb. by rewrite length_fmap, duplicated_from_length in Hb. }
  assert ((negb <$> duplicated (select (negb <$> duplicated keys) keys)) !! j
          = Some true) as Hkept; [|congruence].
  apply kept_first. exists k. split; [done|]. intros j' x Hlt Hx.
  rewrite select_lookup in Hk, Hx.
  destruct (nth_set _ j) as [i|] eqn:Hi; [|done].
  destruct (nth_set _ j') as [i'|] eqn:Hi'; [|done]. simpl in Hk, Hx.
  pose proof (nth_set_mono _ _ _ _ _ Hlt Hi' Hi) as Hlt'.
  apply nth_set_Some, kept_first in Hi as (k' & Hk' & Hfirst).
  assert (k' = k) as -> by congruence. by apply (Hfirst i').
Qed.

(** X10: de-duplicating twice is de-duplicating once: on a table with a
    cell for every row in every column, [merged_df_edits] applied to the
    table it returns that table again, with no row removed and no column
    renamed. *)
Theorem merged_df_edits_idempotent (df out : DataFrame) :
  rectangular df ->
  merged_df_edits df = Ok out ->
  merged_df_edits out = Ok out.
Proof.
  intros Hrect. unfold merged_df_edits, drop_duplicates.
  destruct (getitem (rename RECOGNITION_DATES df) "LID") as [lids|e] eqn:Hlids;
    [|done].
  cbn [mbind res_bind]. unfold mret, res_ret. intros [= <-].
  rewrite rename_select_rows, rename_recognition_dates_twice.
  set (keep := negb <$> duplicated (values lids)).
  set (renamed := rename RECOGNITION_DATES df) in *.
  assert (getitem (select_rows keep renamed) "LID"
          = Ok {| dtype := dtype lids; categories := categories lids;
                  values := select keep (values lids) |}) as ->.
  { apply getitem_Ok. unfold select_rows; simpl.
    rewrite (lookup_col_fmap (fun s => {| dtype := dtype s; categories := categories s;
                                          values := select keep (values s) |})).
    apply getitem_Ok in Hlids. unfold renamed, rename in Hlids. simpl in Hlids.
    by rewrite Hlids. }
  cbn [mbind res_bind values]. f_equal.
  assert (length (values lids) = length (index df)) as Hlength.
  { apply getitem_Ok, lookup_col_Some in Hlids. unfold renamed, rename in Hlids.
    simpl in Hlids. apply list_elem_of_fmap in Hlids as ([c s] & [= _ ->] & Hin).
    unfold rectangular in Hrect. rewrite Forall_forall in Hrect.
    by apply (Hrect (c, s)). }
  pose proof (kept_keys_distinct (values lids)) as Hall. fold keep in Hall.
  set (again := negb <$> duplicated (select keep (values lids))) in *.
  assert (length again = length (select keep (values lids))) as Hagain.
  { unfold again, duplicated. by rewrite length_fmap, duplicated_from_length. }
  unfold select_rows, renamed, rename. simpl. f_equal.
  - apply select_all; [done|]. rewrite Hagain.
    by rewrite (select_length keep (index df) (values lids)).
  - rewrite <- !list_fmap_compose.
    unfold rectangular in Hrect. rewrite Forall_forall in Hrect.
    apply list_fmap_ext. intros i [c s] Hcs. simpl. f_equal. f_equal.
    apply select_all; [done|]. rewrite Hagain.
    apply Nat.eq_le_incl, select_length.
    rewrite Hlength. apply (Hrect (c, s)).
    apply list_elem_of_lookup. by exists i.
Qed.

End DuplicatesMore.

Lemma merged_df_edits_idempotent_witness :
  exists out, merged_df_edits merged = Ok out /\ merged_df_edits out = Ok out.
Proof.
  eexists. split; [reflexivity|].
  apply (merged_df_edits_idempotent merged); [|reflexivity].
  by repeat constructor.
Defined.

(** *** Writing the coordinates back *)

Section GeocodingWrites.
Context `{!Library} `{!Geocoder} `{!Hashing} `{!Setting}.

Lemma geocode_address_returns df item :
  exists log out,
    geocode_address df item = (log, Ok out) /\
    Forall (fun record => record.1 = ERROR) log /\ (length log <= 1)%nat.
Proof.
  destruct item as [label address]. unfold geocode_address.
  destruct (geocode address) as [e|[[[y|] [x|]]|]]; simpl;
    try destruct (at_set df label "Latitude" y) as [e1|df1]; simpl;
    try destruct (at_set df1 label "Longitude" x) as [e2|df2]; simpl;
    eexists _, _; (split; [reflexivity|]); split;
    repeat constructor.
Qed.

Lemma for_each_geocode_returns items : forall df,
  exists log out,
    for_each geocode_address df items = (log, Ok out) /\
    Forall (fun record => record.1 = ERROR) log /\
    (length log <= length items)%nat.
Proof.
  induction items as [|item items IH]; intros df; cbn [for_each].
  - exists [], df. repeat split; [constructor | done].
  - destruct (geocode_address_returns df item) as (log1 & df1 & -> & Hlog1 & Hlen1).
    destruct (IH df1) as (log2 & out & Hrest & Hlog2 & Hlen2).
    exists (log1 ++ log2), out. unfold mbind, M_bind. rewrite Hrest.
    split; [done|]. split; [by apply Forall_app|].
    rewrite length_app. simpl. lia.
Qed.

(** X11: the only exception [batch_geocode_addresses] lets through is that
    of the connection, raised before any address is sent; once connected it
    returns whatever the geocoder does, and logs at most one record for an
    address, each an error. *)
Theorem batch_geocode_addresses_returns items api_key (df : DataFrame) :
  match GIS api_key with
  | Raise e => batch_geocode_addresses items api_key df = ([], Raise e)
  | Ok _ =>
      exists log out,
        batch_geocode_addresses items api_key df = (log, Ok out) /\
        Forall (fun record => record.1 = ERROR) log /\
        (length log <= length items)%nat
  end.
Proof.
  unfold batch_geocode_addresses, lift.
  destruct (GIS api_key) as [[]|e]; [|done].
  destruct (for_each_geocode_returns items df) as (log & out & Hrun & Hlog).
  exists log, out. unfold mbind, M_bind. by rewrite Hrun.
Qed.

Lemma at_cells_lookup label v idx : forall vs i,
  at_cells label v idx vs !! i
  = if bool_decide (idx !! i = Some label) then (fun _ => v) <$> vs !! i else vs !! i.
Proof.
  induction idx as [|k idx IH]; intros vs i.
  { rewrite bool_decide_eq_false_2 by (by rewrite lookup_nil). by destruct vs. }
  destruct vs as [|x vs]; simpl.
  - by destruct (bool_decide _).
  - destruct i as [|i]; simpl; [|apply IH].
    destruct (decide (k = label)) as [->|Hne].
    + by rewrite bool_decide_eq_true_2.
    + rewrite bool_decide_eq_false_2; [done | congruence].
Qed.

Lemma at_cells_length label v idx : forall vs,
  length (at_cells label v idx vs) = length vs.
Proof. induction idx as [|k idx IH]; intros [|x vs]; simpl; auto. Qed.

Lemma names_at_write df label c cell : names (at_write df label c cell) = names df.
Proof.
  unfold names, at_write; simpl. rewrite <- list_fmap_compose.
  apply list_fmap_ext. intros _ [c' s] _. simpl. by destruct (decide (c' = c)).
Qed.

Lemma lookup_at_write df label c cell c' :
  lookup_col c' (columns (at_write df label c cell))
  = (fun s => if decide (c' = c)
              then {| dtype := dtype s; categories := categories s;
                      values := at_cells label cell (index df) (values s) |}
              else s) <$> lookup_col c' (columns df).
Proof.
  unfold at_write; simpl. generalize (index df). intros idx.
  induction (columns df) as [|[c0 s0] cols IH]; simpl; [done|].
  destruct (decide (c0 = c)) as [->|Hne]; simpl.
  - destruct (decide (c = c')) as [<-|Hne']; simpl; [|done].
    by rewrite decide_True.
  - destruct (decide (c0 = c')) as [->|Hne']; simpl; [|done].
    by rewrite decide_False.
Qed.

Lemma coordinates_only_refl labels df : coordinates_only labels df df.
Proof.
  repeat split; try done. intros c s Hs. exists s. by repeat split.
Qed.

Lemma coordinates_only_trans labels1 labels2 df mid out :
  coordinates_only labels1 df mid -> coordinates_only labels2 mid out ->
  coordinates_only (labels1 ++ labels2) df out.
Proof.
  intros (Hindex1 & Hnames1 & Hother1 & Hcells1) (Hindex2 & Hnames2 & Hother2 & Hcells2).
  split; [congruence|]. split; [congruence|]. split.
  - intros c Hlat Hlon. by rewrite Hother2, Hother1.
  - intros c s Hs.
    destruct (Hcells1 c s Hs) as (s1 & Hs1 & Hdtype1 & Hcat1 & Hlen1 & Hkept1).
    destruct (Hcells2 c s1 Hs1) as (s2 & Hs2 & Hdtype2 & Hcat2 & Hlen2 & Hkept2).
    exists s2. split; [done|]. split; [congruence|]. split; [congruence|].
    split; [congruence|]. intros i label Hi Hlabel.
    apply not_elem_of_app in Hlabel as [Hlabel1 Hlabel2].
    rewrite (Hkept2 i label), (Hkept1 i label); [done..|congruence|done].
Qed.

Lemma coordinates_only_at_write df label c cell :
  c = "Latitude" \/ c = "Longitude" ->
  coordinates_only [label] df (at_write df label c cell).
Proof.
  intros Hc. split; [done|]. split; [apply names_at_write|]. split.
  - intros c' Hlat Hlon. rewrite lookup_at_write.
    destruct (decide (c' = c)) as [->|Hne]; [destruct Hc; congruence|].
    by destruct (lookup_col c' (columns df)).
  - intros c' s Hs. rewrite lookup_at_write, Hs. simpl.
    destruct (decide (c' = c)) as [->|Hne].
    + eexists. split; [done|]. simpl. split; [done|]. split; [done|].
      split; [apply at_cells_length|]. intros i label' Hi Hlabel.
      rewrite at_cells_lookup, Hi. rewrite bool_decide_eq_false_2; [done|].
      intros [= ->]. apply Hlabel. by left.
    + exists s. by repeat split.
Qed.

(** [df.at] on a label and a column that are there. *)
Lemma at_set_present df label c v s :
  label ∈ index df -> lookup_col c (columns df) = Some s ->
  at_set df label c v
  = match stored (dtype s) (categories s) v with
    | inl e => inl e
    | inr cell => inr (at_write df label c cell)
    end.
Proof.
  intros Hlabel Hs. unfold at_set.
  rewrite bool_decide_eq_true_2 by done.
  assert (has_column c df = true) as ->.
  { apply has_column_true. by apply (lookup_col_names _ _ s). }
  by rewrite Hs.
Qed.

Lemma geocode_address_frame df label address log out :
  label ∈ index df -> "Latitude" ∈ names df -> "Longitude" ∈ names df ->
  geocode_address df (label, address) = (log, Ok out) ->
  coordinates_only [label] df out.
Proof.
  intros Hlabel (lat & Hlat)%lookup_col_elem (lon & Hlon)%lookup_col_elem.
  unfold geocode_address.
  destruct (geocode address) as [e|[[[y|] x]|]]; simpl;
    try (intros [= _ <-]; apply coordinates_only_refl).
  rewrite (at_set_present _ _ _ _ _ Hlabel Hlat).
  destruct (stored (dtype lat) (categories lat) y) as [e|cy]; simpl;
    [intros [= _ <-]; apply coordinates_only_refl|].
  pose proof (coordinates_only_at_write df label "Latitude" cy (or_introl eq_refl))
    as Hfirst.
  destruct x as [x|]; simpl; [|by intros [= _ <-]].
  assert (lookup_col "Longitude" (columns (at_write df label "Latitude" cy)) = Some lon)
    as Hlon'.
  { by rewrite lookup_at_write, Hlon. }
  rewrite (at_set_present _ _ _ _ lon); [|done..].
  destruct (stored (dtype lon) (categories lon) x) as [e|cx]; simpl;
    [by intros [= _ <-]|].
  intros [= _ <-].
  pose proof (coordinates_only_at_write (at_write df label "Latitude" cy) label
                "Longitude" cx (or_intror eq_refl)) as Hsecond.
  destruct (coordinates_only_trans _ _ _ _ _ Hfirst Hsecond)
    as (Hindex & Hnames & Hother & Hcells).
  repeat split; try done. intros c s Hs.
  destruct (Hcells c s Hs) as (s' & Hs' & Hdtype & Hcat & Hlen & Hkept).
  exists s'. repeat split; try done. intros i label' Hi Hlabel'.
  apply (Hkept i label'); [done|]. simpl. rewrite !elem_of_cons in *. tauto.
Qed.

Lemma for_each_geocode_frame items : forall df log out,
  Forall (fun item => item.1 ∈ index df) items ->
  "Latitude" ∈ names df -> "Longitude" ∈ names df ->
  for_each geocode_address df items = (log, Ok out) ->
  coordinates_only items.*1 df out.
Proof.
  induction items as [|[label address] items IH]; intros df log out Hlabels Hlat Hlon;
    cbn [for_each].
  - intros [= _ <-]. apply coordinates_only_refl.
  - apply Forall_cons in Hlabels as [Hlabel Hlabels]. simpl in Hlabel.
    destruct (geocode_address_returns df (label, address))
      as (log1 & df1 & Hstep & _).
    rewrite Hstep. unfold mbind, M_bind.
    destruct (for_each geocode_address df1 items) as [log2 r] eqn:Hrest.
    intros [= _ ->].
    pose proof (geocode_address_frame _ _ _ _ _ Hlabel Hlat Hlon Hstep) as Hfirst.
    pose proof Hfirst as (Hindex & Hnames & _).
    change (coordinates_only ([label] ++ items.*1) df out).
    apply (coordinates_only_trans [label] items.*1 df df1 out Hfirst).
    apply (IH df1 log2); [|by rewrite Hnames..|done].
    by rewrite Hindex.
Qed.

(** X12: on a table that has the two coordinate columns and a row for
    every label it is given, [batch_geocode_addresses] changes cells of
    ['Latitude'] and ['Longitude'] in rows with these labels, and nothing
    else: the labels of the rows, the columns and their order, the dtype
    and the categories of every column, every other column and every other
    row are as they were. *)
Theorem batch_geocode_addresses_frame items api_key (df : DataFrame) log out :
  Forall (fun item => item.1 ∈ index df) items ->
  "Latitude" ∈ names df -> "Longitude" ∈ names df ->
  batch_geocode_addresses items api_key df = (log, Ok out) ->
  index out = index df /\
  names out = names df /\
  (forall c, c <> "Latitude" -> c <> "Longitude" ->
     lookup_col c (columns out) = lookup_col c (columns df)) /\
  (forall c s, lookup_col c (columns df) = Some s ->
     exists s', lookup_col c (columns out) = Some s' /\
       dtype s' = dtype s /\ categories s' = categories s /\
       length (values s') = length (values s) /\
       forall i label, index df !! i = Some label -> label ∉ items.*1 ->
         values s' !! i = values s !! i).
Proof.
  intros Hlabels Hlat Hlon. unfold batch_geocode_addresses, lift.
  destruct (GIS api_key) as [[]|e]; [|done].
  unfold mbind, M_bind.
  destruct (for_each geocode_address df items) as [log' r] eqn:Hrun.
  intros [= _ ->].
  exact (for_each_geocode_frame items df log' out Hlabels Hlat Hlon Hrun).
Qed.

End GeocodingWrites.

Lemma batch_geocode_addresses_frame_witness :
  exists log out,
    batch_geocode_addresses [(0, THOMPSON); (1, MAIN)] "key" located = (log, Ok out) /\
    index out = index located /\ names out = names located.
Proof.
  eexists _, _. split; [reflexivity|].
  destruct (batch_geocode_addresses_frame [(0, THOMPSON); (1, MAIN)] "key" located
              _ _ ltac:(repeat constructor; compute_done)
              ltac:(compute_done) ltac:(compute_done) eq_refl)
    as (Hindex & Hnames & _).
  by split.
Defined.

Section GeocodingOutcome.
Context `{!Library} `{!Geocoder} `{!Hashing} `{!Setting}.

Lemma geocode_address_cells df label address log out lat lon i y0 x0 :
  index df !! i = Some label ->
  lookup_col "Latitude" (columns df) = Some lat ->
  lookup_col "Longitude" (columns df) = Some lon ->
  values lat !! i = Some y0 -> values lon !! i = Some x0 ->
  geocode_address df (label, address) = (log, Ok out) ->
  exists lat' lon',
    lookup_col "Latitude" (columns out) = Some lat' /\
    lookup_col "Longitude" (columns out) = Some lon' /\
    values lat' !! i = Some (geocoded_cells lat lon address (y0, x0)).1 /\
    values lon' !! i = Some (geocoded_cells lat lon address (y0, x0)).2.
Proof.
  intros Hi Hlat Hlon Hy0 Hx0.
  assert (label ∈ index df) as Hlabel by (by apply list_elem_of_lookup_2 in Hi).
  unfold geocode_address, geocoded_cells.
  destruct (geocode address) as [e|[[[y|] x]|]]; simpl;
    try (intros [= _ <-]; by exists lat, lon).
  rewrite (at_set_present _ _ _ _ _ Hlabel Hlat).
  destruct (stored (dtype lat) (categories lat) y) as [e|cy]; simpl;
    [intros [= _ <-]; by exists lat, lon|].
  set (lat' := {| dtype := dtype lat; categories := categories lat;
                  values := at_cells label cy (index df) (values lat) |}).
  assert (lookup_col "Latitude" (columns (at_write df label "Latitude" cy)) = Some lat')
    as Hlat' by (by rewrite lookup_at_write, Hlat).
  assert (lookup_col "Longitude" (columns (at_write df label "Latitude" cy)) = Some lon)
    as Hlon' by (by rewrite lookup_at_write, Hlon).
  assert (values lat' !! i = Some cy) as Hcy.
  { simpl. rewrite at_cells_lookup, Hi, Hy0. by rewrite bool_decide_eq_true_2. }
  destruct x as [x|]; simpl; [|intros [= _ <-]; by exists lat', lon].
  rewrite (at_set_present _ _ _ _ lon); [|done..].
  destruct (stored (dtype lon) (categories lon) x) as [e|cx]; simpl;
    [intros [= _ <-]; by exists lat', lon|].
  intros [= _ <-].
  exists lat', {| dtype := dtype lon; categories := categories lon;
                  values := at_cells label cx (index df) (values lon) |}.
  split; [by rewrite lookup_at_write, Hlat'|].
  split; [by rewrite lookup_at_write, Hlon'|]. split; [done|].
  simpl. rewrite at_cells_lookup, Hi, Hx0. by rewrite bool_decide_eq_true_2.
Qed.

Lemma geocoded_cells_ext lat lon lat1 lon1 address old :
  dtype lat1 = dtype lat -> categories lat1 = categories lat ->
  dtype lon1 = dtype lon -> categories lon1 = categories lon ->
  geocoded_cells lat1 lon1 address old = geocoded_cells lat lon address old.
Proof. unfold geocoded_cells. by intros -> -> -> ->. Qed.

Lemma for_each_geocode_cells i label address items : forall df log out lat lon y0 x0,
  NoDup items.*1 -> (label, address) ∈ items ->
  Forall (fun item => item.1 ∈ index df) items ->
  index df !! i = Some label ->
  lookup_col "Latitude" (columns df) = Some lat ->
  lookup_col "Longitude" (columns df) = Some lon ->
  values lat !! i = Some y0 -> values lon !! i = Some x0 ->
  for_each geocode_address df items = (log, Ok out) ->
  exists lat' lon',
    lookup_col "Latitude" (columns out) = Some lat' /\
    lookup_col "Longitude" (columns out) = Some lon' /\
    values lat' !! i = Some (geocoded_cells lat lon address (y0, x0)).1 /\
    values lon' !! i = Some (geocoded_cells lat lon address (y0, x0)).2.
Proof.
  induction items as [|[label' address'] items IH];
    intros df log out lat lon y0 x0 Hdistinct Hin Hlabels Hi Hlat Hlon Hy0 Hx0;
    [by apply elem_of_nil in Hin|].
  cbn [for_each].
  apply NoDup_cons in Hdistinct as [Hfresh Hdistinct].
  apply Forall_cons in Hlabels as [Hlabel' Hlabels]. simpl in Hlabel'.
  destruct (geocode_address_returns df (label', address')) as (log1 & df1 & Hstep & _).
  rewrite Hstep. unfold mbind, M_bind.
  destruct (for_each geocode_address df1 items) as [log2 r] eqn:Hrest.
  intros [= _ ->].
  assert ("Latitude" ∈ names df) as Hhas_lat by (by apply (lookup_col_names _ _ lat)).
  assert ("Longitude" ∈ names df) as Hhas_lon by (by apply (lookup_col_names _ _ lon)).
  pose proof (geocode_address_frame _ _ _ _ _ Hlabel' Hhas_lat Hhas_lon Hstep)
    as (Hindex & Hnames & _ & Hcells).
  assert (Forall (fun item => item.1 ∈ index df1) items) as Hlabels1
    by (by rewrite Hindex).
  apply elem_of_cons in Hin as [[= <- <-]|Hin].
  - destruct (geocode_address_cells _ _ _ _ _ _ _ _ _ _ Hi Hlat Hlon Hy0 Hx0 Hstep)
      as (lat1 & lon1 & Hlat1 & Hlon1 & Hy1 & Hx1).
    destruct (for_each_geocode_frame items df1 log2 out Hlabels1) as (Hindex2 & _ & _ & Hkept);
      [by rewrite Hnames..|done|].
    destruct (Hkept _ _ Hlat1) as (lat2 & Hlat2 & _ & _ & _ & Hy2).
    destruct (Hkept _ _ Hlon1) as (lon2 & Hlon2 & _ & _ & _ & Hx2).
    exists lat2, lon2. split; [done|]. split; [done|].
    rewrite (Hy2 i label), (Hx2 i label); [done|by rewrite Hindex..|done|by rewrite Hindex|done].
  - assert (label <> label') as Hne.
    { intros <-. apply Hfresh. apply list_elem_of_fmap. by exists (label, address). }
    destruct (Hcells _ _ Hlat) as (lat1 & Hlat1 & Hdt1 & Hcat1 & _ & Hy1).
    destruct (Hcells _ _ Hlon) as (lon1 & Hlon1 & Hdt2 & Hcat2 & _ & Hx1).
    assert (label ∉ [label']) as Hother by (by intros ->%list_elem_of_singleton).
    rewrite <- (geocoded_cells_ext lat lon lat1 lon1) by done.
    apply (IH df1 log2 out lat1 lon1 y0 x0); try done.
    + by rewrite Hindex.
    + by rewrite (Hy1 i label).
    + by rewrite (Hx1 i label).
Qed.

(** X13: when the labels of the addresses are distinct, the row of an
    address the geocoder answers with both coordinates holds them when
    [batch_geocode_addresses] returns, as its columns store them, whatever
    happens to the other addresses. *)
Theorem geocoded_coordinates_written items api_key (df : DataFrame) log out
    i label address lat lon y0 x0 y x cy cx :
  NoDup items.*1 -> (label, address) ∈ items ->
  Forall (fun item => item.1 ∈ index df) items ->
  index df !! i = Some label ->
  getitem df "Latitude" = Ok lat -> getitem df "Longitude" = Ok lon ->
  values lat !! i = Some y0 -> values lon !! i = Some x0 ->
  geocode address = GeocodeResult (Some (Some y, Some x)) ->
  stored (dtype lat) (categories lat) y = inr cy ->
  stored (dtype lon) (categories lon) x = inr cx ->
  batch_geocode_addresses items api_key df = (log, Ok out) ->
  exists lat' lon',
    getitem out "Latitude" = Ok lat' /\ getitem out "Longitude" = Ok lon' /\
    values lat' !! i = Some cy /\ values lon' !! i = Some cx.
Proof.
  intros Hdistinct Hin Hlabels Hi Hlat%getitem_Ok Hlon%getitem_Ok Hy0 Hx0 Hfound Hcy Hcx.
  unfold batch_geocode_addresses, lift.
  destruct (GIS api_key) as [[]|e]; [|done].
  unfold mbind, M_bind.
  destruct (for_each geocode_address df items) as [log' r] eqn:Hrun.
  intros [= _ ->].
  destruct (for_each_geocode_cells i label address items df log' out lat lon y0 x0)
    as (lat' & lon' & Hlat' & Hlon' & Hy & Hx); try done.
  exists lat', lon'. rewrite !getitem_Ok. split; [done|]. split; [done|].
  unfold geocoded_cells in Hy, Hx. by rewrite Hfound, Hcy, Hcx in Hy, Hx.
Qed.

(** X14: a row whose address is not fully geocoded.  When the result has a
    latitude but no longitude, [batch_geocode_addresses] leaves the new
    latitude in the row beside the longitude the row had: the latitude is
    written before the longitude is looked for.  When the lookup raises,
    or the result has no location or no latitude, both coordinates of the
    row are as they were. *)
Theorem geocoding_failure_cells items api_key (df : DataFrame) log out
    i label address lat lon y0 x0 :
  NoDup items.*1 -> (label, address) ∈ items ->
  Forall (fun item => item.1 ∈ index df) items ->
  index df !! i = Some label ->
  getitem df "Latitude" = Ok lat -> getitem df "Longitude" = Ok lon ->
  values lat !! i = Some y0 -> values lon !! i = Some x0 ->
  batch_geocode_addresses items api_key df = (log, Ok out) ->
  exists lat' lon',
    getitem out "Latitude" = Ok lat' /\ getitem out "Longitude" = Ok lon' /\
    (forall y cy,
       geocode address = GeocodeResult (Some (Some y, None)) ->
       stored (dtype lat) (categories lat) y = inr cy ->
       values lat' !! i = Some cy /\ values lon' !! i = Some x0) /\
    ((forall y x, geocode address <> GeocodeResult (Some (Some y, x))) ->
     values lat' !! i = Some y0 /\ values lon' !! i = Some x0).
Proof.
  intros Hdistinct Hin Hlabels Hi Hlat%getitem_Ok Hlon%getitem_Ok Hy0 Hx0.
  unfold batch_geocode_addresses, lift.
  destruct (GIS api_key) as [[]|e]; [|done].
  unfold mbind, M_bind.
  destruct (for_each geocode_address df items) as [log' r] eqn:Hrun.
  intros [= _ ->].
  destruct (for_each_geocode_cells i label address items df log' out lat lon y0 x0)
    as (lat' & lon' & Hlat' & Hlon' & Hy & Hx); try done.
  exists lat', lon'. rewrite !getitem_Ok. split; [done|]. split; [done|].
  unfold geocoded_cells in Hy, Hx. split.
  - intros y cy Hfound Hcy. by rewrite Hfound, Hcy in Hy, Hx.
  - intros Hnone.
    destruct (geocode address) as [e|[[[y|] x]|]]; try done.
    by destruct (Hnone y x).
Qed.

End GeocodingOutcome.

Lemma geocoded_coordinates_written_witness :
  exists log out lat' lon',
    batch_geocode_addresses [(0, THOMPSON); (1, MAIN)] "key" located = (log, Ok out) /\
    getitem out "Latitude" = Ok lat' /\ getitem out "Longitude" = Ok lon' /\
    values lat' !! 0%nat = Some (VFloat float_1234_5) /\
    values lon' !! 0%nat = Some (VFloat float_zero).
Proof.
  assert (exists log out,
    batch_geocode_addresses [(0, THOMPSON); (1, MAIN)] "key" located = (log, Ok out))
    as (log & out & Hrun) by (eexists _, _; reflexivity).
  destruct (geocoded_coordinates_written [(0, THOMPSON); (1, MAIN)] "key" located
              log out 0%nat 0 THOMPSON
              (object_column [VNone; VFloat float_1234_5; VNone])
              (object_column [VNone; VFloat float_1234_5; VNone])
              VNone VNone (VFloat float_1234_5) (VFloat float_zero)
              (VFloat float_1234_5) (VFloat float_zero))
    as (lat' & lon' & Hrest);
    [compute_done | by left | repeat constructor; compute_done
    | reflexivity.. | exact Hrun | ].
  exists log, out, lat', lon'. split; [exact Hrun | exact Hrest].
Defined.

Lemma geocoding_failure_cells_witness :
  exists log out lat' lon',
    batch_geocode_addresses [(0, THOMPSON); (1, MAIN)] "key" located = (log, Ok out) /\
    getitem out "Latitude" = Ok lat' /\ getitem out "Longitude" = Ok lon'.
Proof.
  assert (exists log out,
    batch_geocode_addresses [(0, THOMPSON); (1, MAIN)] "key" located = (log, Ok out))
    as (log & out & Hrun) by (eexists _, _; reflexivity).
  destruct (geocoding_failure_cells [(0, THOMPSON); (1, MAIN)] "key" located
              log out 1%nat 1 MAIN
              (object_column [VNone; VFloat float_1234_5; VNone])
              (object_column [VNone; VFloat float_1234_5; VNone])
              (VFloat float_1234_5) (VFloat float_1234_5))
    as (lat' & lon' & Hlat' & Hlon' & _);
    [compute_done | by right; left | repeat constructor; compute_done
    | reflexivity.. | exact Hrun | ].
  exists log, out, lat', lon'. split; [exact Hrun | by split].
Defined.

(** *** The interest dictionary *)

Section Interests.
Context `{!Library} `{!Geocoder} `{!Hashing} `{!Setting}.
Hypothesis key_eq_symmetric : Symmetric (fun x y => key_eq x y = true).
Hypothesis key_eq_transitive : Transitive (fun x y => key_eq x y = true).

Lemma key_eq_sym x y : key_eq x y = key_eq y x.
Proof.
  destruct (key_eq x y) eqn:Hxy, (key_eq y x) eqn:Hyx; try done.
  - apply key_eq_symmetric in Hxy. congruence.
  - apply key_eq_symmetric in Hyx. congruence.
Qed.

Lemma key_eq_right k k' k0 : key_eq k k' = true -> key_eq k0 k = key_eq k0 k'.
Proof.
  intros Hk. destruct (key_eq k0 k) eqn:Hleft, (key_eq k0 k') eqn:Hright; try done.
  - pose proof (key_eq_transitive _ _ _ Hleft Hk). congruence.
  - rewrite key_eq_sym in Hk. pose proof (key_eq_transitive _ _ _ Hright Hk).
    congruence.
Qed.

Lemma key_eq_left k k' k0 : key_eq k0 k = true -> key_eq k0 k' = key_eq k k'.
Proof.
  intros Hk. rewrite (key_eq_sym k0 k'), (key_eq_sym k k').
  rewrite key_eq_sym in Hk. symmetry. by apply key_eq_right.
Qed.

Lemma dict_get_proper {V} k k' (d : list (value * V)) :
  key_eq k k' = true -> dict_get k d = dict_get k' d.
Proof.
  intros Hk. induction d as [|[k0 v0] d IH]; simpl; [done|].
  by rewrite (key_eq_right k k' k0 Hk), IH.
Qed.

Lemma dict_get_set {V} k (v : V) k' d :
  dict_get k' (dict_set k v d) = if key_eq k k' then Some v else dict_get k' d.
Proof.
  induction d as [|[k0 v0] d IH]; simpl; [done|].
  destruct (key_eq k0 k) eqn:Hk0; simpl.
  - rewrite (key_eq_left k k' k0 Hk0). by destruct (key_eq k k').
  - rewrite IH. destruct (key_eq k0 k') eqn:Hk0'; [|done].
    destruct (key_eq k k') eqn:Hk; [|done].
    rewrite key_eq_sym in Hk. pose proof (key_eq_transitive _ _ _ Hk0' Hk). congruence.
Qed.

Lemma dict_set_not_nil {V} k (v : V) d : dict_set k v d <> [].
Proof. destruct d as [|[k0 v0] d]; simpl; [done|]. by destruct (key_eq k0 k). Qed.

Lemma interest_row_cells row k c sub lvl :
  interest_row row = Some (k, c, (sub, lvl)) ->
  lookup_cell "LID" row = Some k /\
  lookup_cell "Interest Category" row = Some c /\
  lookup_cell "Interest Subcategory" row = Some sub /\
  lookup_cell "Interest Level" row = Some lvl.
Proof.
  unfold interest_row.
  destruct (lookup_cell "LID" row); simpl; [|done].
  destruct (lookup_cell "Interest Category" row); simpl; [|done].
  destruct (lookup_cell "Interest Subcategory" row); simpl; [|done].
  destruct (lookup_cell "Interest Level" row); simpl; [|done].
  by intros [= -> -> -> ->].
Qed.

(** One row of the interest file. *)
Lemma make_int_dic_keyed row dic :
  keyed row ->
  exists dic',
    make_int_dic row dic = Ok dic' /\
    (forall id cat,
       dict_get id dic' ≫= dict_get cat
       = match interest_of id cat row with
         | Some e => Some e
         | None => dict_get id dic ≫= dict_get cat
         end) /\
    (forall id,
       is_Some (dict_get id dic') <->
       is_Some (dict_get id dic) \/
       exists k c e, interest_row row = Some (k, c, e) /\ key_eq k id = true) /\
    ((forall id d, dict_get id dic = Some d -> d <> []) ->
     forall id d, dict_get id dic' = Some d -> d <> []).
Proof.
  intros (k & c & [sub lvl] & Hrow & Hk & Hc & Hkk & Hcc).
  destruct (interest_row_cells _ _ _ _ _ Hrow) as (Hid & Hcat & Hsub & Hlvl).
  unfold make_int_dic, row_getitem. rewrite Hid, Hcat, Hsub, Hlvl. simpl.
  rewrite Hk, Hc. simpl.
  set (dic1 := match dict_get k dic with Some _ => dic | None => dict_set k [] dic end).
  assert (forall id, dict_get id dic1
                     = match dict_get id dic with
                       | Some d => Some d
                       | None => if key_eq k id then Some [] else None
                       end) as Hdic1.
  { intros id. unfold dic1. destruct (dict_get k dic) as [d|] eqn:Hd.
    - destruct (dict_get id dic) as [d'|] eqn:Hd'; [done|].
      destruct (key_eq k id) eqn:Hkid; [|done].
      rewrite (dict_get_proper _ _ _ Hkid) in Hd. congruence.
    - rewrite dict_get_set. destruct (key_eq k id) eqn:Hkid.
      + by rewrite <- (dict_get_proper _ _ _ Hkid), Hd.
      + by destruct (dict_get id dic). }
  eexists. split; [reflexivity|]. split; [|split].
  - intros id cat. rewrite dict_get_set. unfold interest_of. rewrite Hrow.
    destruct (key_eq k id) eqn:Hkid; simpl.
    + rewrite dict_get_set. destruct (key_eq c cat); [done|].
      rewrite Hdic1, Hkk. rewrite <- (dict_get_proper _ _ _ Hkid).
      by destruct (dict_get k dic).
    + rewrite Hdic1, Hkid. by destruct (dict_get id dic).
  - intros id. rewrite dict_get_set.
    destruct (key_eq k id) eqn:Hkid.
    + split; [|by eauto]. intros _. right. by exists k, c, (sub, lvl).
    + rewrite Hdic1, Hkid. split.
      * intros Hsome. left. by destruct (dict_get id dic).
      * intros [Hsome|(k' & c' & e' & Hrow' & Hk')].
        -- by destruct (dict_get id dic).
        -- congruence.
  - intros Hfull id d. rewrite dict_get_set.
    destruct (key_eq k id) eqn:Hkid.
    + intros [= <-]. apply dict_set_not_nil.
    + rewrite Hdic1, Hkid. destruct (dict_get id dic) as [d'|] eqn:Hd'; [|done].
      intros [= <-]. by apply (Hfull id).
Qed.

Lemma fold_interests (items : list (Z * Row)) : forall acc,
  Forall keyed items.*2 ->
  exists dic,
    fold_res (fun dic item => make_int_dic item.2 dic) acc items = Ok dic /\
    (forall id cat e,
       dict_get id dic ≫= dict_get cat = Some e <->
       (exists i row,
          items.*2 !! i = Some row /\ interest_of id cat row = Some e /\
          forall j row', (i < j)%nat -> items.*2 !! j = Some row' ->
            interest_of id cat row' = None) \/
       (dict_get id acc ≫= dict_get cat = Some e /\
        forall j row', items.*2 !! j = Some row' -> interest_of id cat row' = None)) /\
    (forall id,
       is_Some (dict_get id dic) <->
       is_Some (dict_get id acc) \/
       exists row k c e,
         row ∈ items.*2 /\ interest_row row = Some (k, c, e) /\ key_eq k id = true) /\
    ((forall id d, dict_get id acc = Some d -> d <> []) ->
     forall id d, dict_get id dic = Some d -> d <> []).
Proof.
  induction items as [|[label row] items IH]; intros acc Hkeyed.
  - exists acc. split; [done|]. split; [|split; [|done]].
    + intros id cat e. split.
      * intros Hacc. right. by split.
      * intros [(i & row & Hi & _)|[Hacc _]]; [by destruct i | done].
    + intros id. split; [by left|]. intros [Hsome|(row & k & c & e & Hin & _)]; [done|].
      by apply elem_of_nil in Hin.
  - rewrite fmap_cons in Hkeyed. apply Forall_cons in Hkeyed as [Hrow Hkeyed].
    simpl in Hrow.
    destruct (make_int_dic_keyed row acc Hrow) as (acc1 & Hstep & Hget1 & Hdom1 & Hfull1).
    destruct (IH acc1 Hkeyed) as (dic & Hrest & Hget & Hdom & Hfull).
    exists dic. split; [|split; [|split]].
    + cbn [fold_res]. simpl. rewrite Hstep. exact Hrest.
    + intros id cat e. rewrite Hget, Hget1. clear Hget Hget1. split.
      * intros [(i & row' & Hi & He & Hlater)|[Hacc1 Hnone]].
        -- left. exists (S i), row'. split; [done|]. split; [done|].
           intros [|j] row'' Hlt Hj; [lia|]. apply (Hlater j); [lia | done].
        -- destruct (interest_of id cat row) as [e0|] eqn:Hhead.
           ++ left. exists 0%nat, row. split; [done|]. split; [congruence|].
              intros [|j] row'' Hlt Hj; [lia|]. by apply (Hnone j).
           ++ right. split; [done|]. intros [|j] row'' Hj.
              ** simpl in Hj. by injection Hj as <-.
              ** by apply (Hnone j).
      * intros [(i & row' & Hi & He & Hlater)|[Hacc Hnone]].
        -- destruct i as [|i].
           ++ simpl in Hi. injection Hi as <-. right. rewrite He. split; [done|].
              intros j row'' Hj. apply (Hlater (S j)); [lia | done].
           ++ left. exists i, row'. split; [done|]. split; [done|].
              intros j row'' Hlt Hj. apply (Hlater (S j)); [lia | done].
        -- right. rewrite (Hnone 0%nat row) by done. split; [done|].
           intros j row'' Hj. by apply (Hnone (S j)).
    + intros id. rewrite Hdom, Hdom1. clear Hdom Hdom1. split.
      * intros [[Hacc|(k & c & e & Hhead & Hk)]|(row' & k & c & e & Hin & Hrow' & Hk)].
        -- by left.
        -- right. exists row, k, c, e. split; [by left | done].
        -- right. exists row', k, c, e. split; [by right | done].
      * intros [Hacc|(row' & k & c & e & Hin & Hrow' & Hk)]; [by left; left|].
        rewrite fmap_cons in Hin. apply elem_of_cons in Hin as [->|Hin].
        -- left. right. by exists k, c, e.
        -- right. by exists row', k, c, e.
    + intros Hacc. apply Hfull. by apply Hfull1.
Qed.

(** X15: the dictionary [handle_interest_data] builds from the interest
    file, when the constituents and the categories of the file can be keys.
    Looking up a constituent and then a category gives the subcategory and
    level of the last row of the file about them, and gives nothing when no
    row is about them: of several rows for a constituent and a category only
    the last one is kept. *)
Theorem interest_dictionary_latest (interest_df : DataFrame) :
  Forall keyed (interest_rows interest_df) ->
  exists dic,
    interest_dictionary interest_df = Ok dic /\
    forall id cat e,
      dict_get id dic ≫= dict_get cat = Some e <->
      exists i row,
        interest_rows interest_df !! i = Some row /\
        interest_of id cat row = Some e /\
        forall j row', (i < j)%nat -> interest_rows interest_df !! j = Some row' ->
          interest_of id cat row' = None.
Proof.
  intros Hkeyed. unfold interest_rows in *.
  destruct (fold_interests _ [] Hkeyed) as (dic & Hrun & Hget & _).
  exists dic. split; [exact Hrun|]. intros id cat e. rewrite Hget.
  split; [|by left]. by intros [?|[? _]].
Qed.

(** X16: the cells of the ['Interests'] column [handle_interest_data]
    makes.  The cell of a constituent is the string ['No Known Interests']
    exactly when no row of the interest file has the constituent's LID;
    otherwise it is a dictionary, which is never empty. *)
Theorem interests_column_cells (interest_df main_df : DataFrame) lids :
  Forall keyed (interest_rows interest_df) ->
  getitem main_df "LID" = Ok lids ->
  Forall (fun id => hash_key id = Ok tt) (values lids) ->
  exists dic cells,
    interest_dictionary interest_df = Ok dic /\
    interests_column main_df dic = Ok cells /\
    length cells = length (values lids) /\
    forall i id cell, values lids !! i = Some id -> cells !! i = Some cell ->
      match cell with
      | inr v =>
          v = VStr "No Known Interests" /\
          forall row k c e, row ∈ interest_rows interest_df ->
            interest_row row = Some (k, c, e) -> key_eq k id = false
      | inl d =>
          d <> [] /\
          exists row k c e, row ∈ interest_rows interest_df /\
            interest_row row = Some (k, c, e) /\ key_eq k id = true
      end.
Proof.
  intros Hkeyed Hlids Hhash. unfold interest_rows in *.
  destruct (fold_interests _ [] Hkeyed) as (dic & Hrun & _ & Hdom & Hfull).
  exists dic.
  exists ((fun id => match dict_get id dic with
                     | Some d => inl d
                     | None => inr (VStr "No Known Interests")
                     end) <$> values lids).
  split; [exact Hrun|]. split; [|split].
  - unfold interests_column. rewrite Hlids. cbn [mbind res_bind].
    apply map_res_total. eapply Forall_impl; [exact Hhash|].
    intros id Hid. unfold add_int_data. by rewrite Hid.
  - by rewrite length_fmap.
  - intros i id cell Hid. rewrite list_lookup_fmap, Hid. simpl. intros [= <-].
    destruct (dict_get id dic) as [d|] eqn:Hd.
    + split; [by apply (Hfull ltac:(done) id)|].
      destruct (proj1 (Hdom id)) as [[? [=]]|Hrow]; [by rewrite Hd | done].
    + split; [done|]. intros row k c e Hin Hrow.
      destruct (key_eq k id) eqn:Hk; [|done].
      destruct (proj2 (Hdom id)) as [d Hd']; [|congruence].
      right. by exists row, k, c, e.
Qed.

End Interests.

Lemma sample_key_eq_symmetric : Symmetric (fun x y : value => key_eq x y = true).
Proof. intros x y ->%bool_decide_eq_true. by apply bool_decide_eq_true. Qed.

Lemma sample_key_eq_transitive : Transitive (fun x y : value => key_eq x y = true).
Proof. by intros x y z ->%bool_decide_eq_true. Qed.

Lemma interest_file_keyed : Forall keyed (interest_rows interest_file).
Proof. repeat constructor; by eexists _, _, _. Qed.

Lemma interest_dictionary_latest_witness :
  exists dic,
    interest_dictionary interest_file = Ok dic /\
    dict_get (VStr "L1") dic ≫= dict_get (VStr "Health")
    = Some (VStr "Nutrition", VStr "Medium").
Proof.
  destruct (interest_dictionary_latest sample_key_eq_symmetric sample_key_eq_transitive
              interest_file interest_file_keyed) as (dic & Hrun & Hget).
  exists dic. split; [exact Hrun|]. apply Hget.
  eexists 2%nat, _. split; [reflexivity|]. split; [reflexivity|].
  intros [|[|[|[|j]]]] row' Hlt Hj; try lia; done.
Defined.

Lemma interests_column_cells_witness :
  exists dic cells,
    interest_dictionary interest_file = Ok dic /\
    interests_column interested dic = Ok cells /\
    length cells = 2%nat.
Proof.
  destruct (interests_column_cells sample_key_eq_symmetric sample_key_eq_transitive
              interest_file interested (object_column [VStr "L1"; VStr "L3"])
              interest_file_keyed)
    as (dic & cells & Hrun & Hcells & Hlength & _).
  - reflexivity.
  - by repeat constructor.
  - by exists dic, cells.
Defined.

(** *** The affiliation files *)

Section Files.
Context `{!Library} `{!Geocoder} `{!Hashing} `{!Setting}.

Lemma list_ascii_of_string_app s t :
  list_ascii_of_string (s +:+ t) = list_ascii_of_string s ++ list_ascii_of_string t.
Proof. induction s as [|c s IH]; simpl; [done | by rewrite IH]. Qed.

Lemma str_replace_without a b s (p : ascii -> Prop) :
  p b -> Forall p (list_ascii_of_string s) ->
  Forall p (list_ascii_of_string (str_replace a b s)).
Proof.
  intros Hb. induction s as [|c s IH]; simpl; [done|].
  intros [Hc Hs]%Forall_cons. constructor; [|auto]. by destruct (decide (c = a)).
Qed.

Lemma str_replace_gone a b s :
  a <> b -> Forall (fun c => c <> a) (list_ascii_of_string (str_replace a b s)).
Proof.
  intros Hne. induction s as [|c s IH]; simpl; [done|].
  constructor; [|done]. destruct (decide (c = a)); congruence.
Qed.

(** X17: the name of an affiliation file has neither a space nor a slash,
    so the file lies in the output directory itself; and affiliations that
    differ only by a space for an underscore, or a slash for a hyphen, are
    given the same file. *)
Theorem file_name_characters (affil : string) :
  Forall (fun c => c <> " "%char /\ c <> "/"%char)
         (list_ascii_of_string (file_name affil)) /\
  file_name (str_replace " " "_" affil) = file_name affil /\
  file_name (str_replace "/" "-" affil) = file_name affil.
Proof.
  unfold file_name. split; [|split].
  - rewrite list_ascii_of_string_app. apply Forall_app. split; [|by repeat constructor].
    pose proof (str_replace_gone "/" "-" (str_replace " " "_" affil) ltac:(done)) as Hslash.
    pose proof (str_replace_without "/" "-" (str_replace " " "_" affil)
                  (fun c => c <> " "%char) ltac:(done)
                  (str_replace_gone " " "_" affil ltac:(done))) as Hspace.
    rewrite Forall_forall in Hslash, Hspace. apply Forall_forall. intros c Hc.
    split; [by apply Hspace | by apply Hslash].
  - f_equal. f_equal. induction affil as [|c affil IH]; simpl; [done|].
    rewrite IH. f_equal.
    destruct (decide (c = " "%char)) as [->|Hspace]; [done|].
    by rewrite decide_False.
  - f_equal. induction affil as [|c affil IH]; simpl; [done|].
    rewrite IH. f_equal.
    destruct (decide (c = "/"%char)) as [->|Hslash]; [done|].
    destruct (decide (c = " "%char)) as [->|Hspace]; [done|].
    by rewrite decide_False.
Qed.

Lemma getitem_mask_flags df key :
  flags key ->
  getitem_mask df key
  = Ok (select_rows ((fun v => bool_decide (v = VBool true)) <$> values key) df).
Proof.
  intros Hflags. unfold getitem_mask.
  rewrite (map_res_total _ (fun v => bool_decide (v = VBool true))); [done|].
  eapply Forall_impl; [exact Hflags|]. intros v [[] ->]; done.
Qed.

(** One affiliation. *)
Lemma save_affiliation_file_flags processed_data output_dir files affil :
  (forall key, getitem processed_data (AFFILIATION_PREFIX +:+ affil) = Ok key ->
     flags key) ->
  exists log,
    save_affiliation_file processed_data output_dir files affil
    = (log, Ok match affiliation_file processed_data affil with
                | Some content =>
                    <[path_join output_dir (file_name affil) := content]> files
                | None => files
                end).
Proof.
  intros Hflags. unfold save_affiliation_file, affiliation_file.
  destruct (lookup_col (AFFILIATION_PREFIX +:+ affil) (columns processed_data))
    as [key|] eqn:Hkey.
  - assert (has_column (AFFILIATION_PREFIX +:+ affil) processed_data = true) as ->.
    { apply has_column_true. by apply (lookup_col_names _ _ key). }
    assert (getitem processed_data (AFFILIATION_PREFIX +:+ affil) = Ok key) as Hget
      by (by apply getitem_Ok).
    rewrite Hget. cbn [mbind res_bind].
    rewrite (getitem_mask_flags _ _ (Hflags key Hget)). simpl.
    destruct (empty _); simpl; by eexists.
  - assert (has_column (AFFILIATION_PREFIX +:+ affil) processed_data = false) as ->.
    { apply has_column_false. by apply lookup_col_None. }
    simpl. by eexists.
Qed.

(** X18: what [save_affiliation_files] leaves in the output directory,
    when the affiliation columns hold booleans.  A file holds the rows
    flagged for the last of the affiliations with its name that has a
    column and a flagged row; for an affiliation without column or without
    flagged row no file is written, so no file is empty; and a file that
    is the file of none of them is as it was. *)
Theorem affiliation_files_written (processed_data : DataFrame) affiliations
    output_dir files :
  (forall affil key, affil ∈ affiliations ->
     getitem processed_data (AFFILIATION_PREFIX +:+ affil) = Ok key -> flags key) ->
  exists log out,
    save_affiliation_files processed_data affiliations output_dir files = (log, Ok out) /\
    forall path content,
      out !! path = Some content <->
      (exists i affil,
         affiliations !! i = Some affil /\
         path_join output_dir (file_name affil) = path /\
         affiliation_file processed_data affil = Some content /\
         forall j affil', (i < j)%nat -> affiliations !! j = Some affil' ->
           path_join output_dir (file_name affil') = path ->
           affiliation_file processed_data affil' = None) \/
      (files !! path = Some content /\
       forall j affil', affiliations !! j = Some affil' ->
         path_join output_dir (file_name affil') = path ->
         affiliation_file processed_data affil' = None).
Proof.
  revert files. unfold save_affiliation_files.
  induction affiliations as [|affil affiliations IH]; intros files Hflags.
  - exists [], files. split; [done|]. intros path content. split.
    + intros Hfile. right. by split.
    + intros [(i & a & Hi & _)|[Hfile _]]; [by destruct i | done].
  - destruct (save_affiliation_file_flags processed_data output_dir files affil)
      as (log1 & Hstep).
    { intros key. apply Hflags. by left. }
    set (files1 := match affiliation_file processed_data affil with
                   | Some content =>
                       <[path_join output_dir (file_name affil) := content]> files
                   | None => files
                   end) in *.
    destruct (IH files1) as (log2 & out & Hrest & Hout).
    { intros a key Ha. apply Hflags. by right. }
    exists (log1 ++ log2), out. split.
    { cbn [for_each]. rewrite Hstep. unfold mbind, M_bind. by rewrite Hrest. }
    intros path content. rewrite Hout. clear Hout Hrest Hstep IH.
    assert (files1 !! path
            = if decide (path_join output_dir (file_name affil) = path)
              then match affiliation_file processed_data affil with
                   | Some c => Some c
                   | None => files !! path
                   end
              else files !! path) as Hfiles1.
    { unfold files1. destruct (affiliation_file processed_data affil) as [c|].
      - rewrite lookup_insert. by destruct (decide _).
      - by destruct (decide _). }
    rewrite Hfiles1. clear Hfiles1. split.
    + intros [(i & a & Hi & Hpath & Hfile & Hlater)|[Hfile Hnone]].
      * left. exists (S i), a. repeat split; try done.
        intros [|j] a' Hlt Hj; [lia|]. apply (Hlater j); [lia | done].
      * destruct (decide (path_join output_dir (file_name affil) = path)) as [Hpath|Hpath].
        -- destruct (affiliation_file processed_data affil) as [c|] eqn:Hc.
           ++ left. exists 0%nat, affil. repeat split; try done; try congruence.
              intros [|j] a' Hlt Hj; [lia|]. by apply (Hnone j).
           ++ right. split; [done|]. intros [|j] a' Hj.
              ** simpl in Hj. by injection Hj as <-.
              ** by apply (Hnone j).
        -- right. split; [done|]. intros [|j] a' Hj.
           ++ simpl in Hj. injection Hj as <-. done.
           ++ by apply (Hnone j).
    + intros [(i & a & Hi & Hpath & Hfile & Hlater)|[Hfile Hnone]].
      * destruct i as [|i].
        -- simpl in Hi. injection Hi as <-. right.
           rewrite decide_True by done. rewrite Hfile. split; [done|].
           intros j a' Hj. apply (Hlater (S j)); [lia | done].
        -- left. exists i, a. repeat split; try done.
           intros j a' Hlt Hj. apply (Hlater (S j)); [lia | done].
      * right. split.
        -- destruct (decide _) as [Hpath|]; [|done].
           by rewrite (Hnone 0%nat affil eq_refl Hpath).
        -- intros j a' Hj. by apply (Hnone (S j)).
Qed.

End Files.

Lemma affiliation_files_written_witness :
  exists log out,
    save_affiliation_files flagged ["Alumni"; "Big Donor"; "A/B"; "Nobody"]
      "affiliation_layers" ∅ = (log, Ok out) /\
    out !! "affiliation_layers/A-B-layer.csv"
    = Some [("LID", [VStr "L2"]);
            ("Affiliation: Alumni", [VBool false]);
            ("Affiliation: Big Donor", [VBool false]);
            ("Affiliation: A/B", [VBool true])].
Proof.
  destruct (affiliation_files_written flagged ["Alumni"; "Big Donor"; "A/B"; "Nobody"]
              "affiliation_layers" ∅) as (log & out & Hrun & Hout).
  - intros affil key Hin Hkey.
    repeat (apply elem_of_cons in Hin as [->|Hin]);
      [vm_compute in Hkey; try discriminate Hkey; injection Hkey as <-;
       repeat constructor; by eexists ..|].
    by apply elem_of_nil in Hin.
  - exists log, out. split; [exact Hrun|]. apply Hout. left.
    exists 2%nat, "A/B". repeat split.
    intros [|[|[|[|j]]]] affil' Hlt Hj Hpath; try lia; [|done].
    injection Hj as <-. reflexivity.
Defined.

(** *** The affiliations of the files *)

Section MainAffiliations.
Context `{!Library} `{!Geocoder} `{!Hashing} `{!Setting}.

Lemma replace_from_absent old new s :
  occurs old s = false -> replace_from old new 0 s = s.
Proof.
  induction s as [|c s IH]; [done|].
  cbn [occurs replace_from]. intros [Hhead Htail]%orb_false_iff.
  rewrite Hhead. f_equal. by apply IH.
Qed.

Lemma strip_prefix t :
  occurs AFFILIATION_PREFIX t = false ->
  str_replace_all AFFILIATION_PREFIX "" (AFFILIATION_PREFIX +:+ t) = t.
Proof. intros Habsent. unfold str_replace_all. simpl. by apply replace_from_absent. Qed.

Lemma main_affiliations_recovers processed_data t :
  AFFILIATION_PREFIX +:+ t ∈ names processed_data ->
  occurs AFFILIATION_PREFIX t = false ->
  t ∈ main_affiliations processed_data.
Proof.
  intros Hcolumn Habsent. unfold main_affiliations.
  apply list_elem_of_fmap. exists (AFFILIATION_PREFIX +:+ t).
  split; [by rewrite strip_prefix|]. by apply list_elem_of_filter.
Qed.

Lemma main_affiliations_prefixed processed_data affil :
  affil ∈ main_affiliations processed_data ->
  exists c, c ∈ names processed_data /\ starts_with AFFILIATION_PREFIX c = true /\
    affil = str_replace_all AFFILIATION_PREFIX "" c.
Proof.
  unfold main_affiliations. intros (c & -> & [Hc Hin]%list_elem_of_filter)%list_elem_of_fmap.
  by exists c.
Qed.

Lemma save_affiliation_files_keeps processed_data output_dir affiliations :
  forall files,
  (forall affil key, affil ∈ affiliations ->
     getitem processed_data (AFFILIATION_PREFIX +:+ affil) = Ok key -> flags key) ->
  exists log out,
    save_affiliation_files processed_data affiliations output_dir files = (log, Ok out) /\
    (forall path, is_Some (files !! path) -> is_Some (out !! path)) /\
    (forall affil, affil ∈ affiliations ->
       is_Some (affiliation_file processed_data affil) ->
       is_Some (out !! path_join output_dir (file_name affil))).
Proof.
  unfold save_affiliation_files.
  induction affiliations as [|affil affiliations IH]; intros files Hflags.
  - exists [], files. split; [done|]. split; [done|].
    intros affil Hin. by apply elem_of_nil in Hin.
  - destruct (save_affiliation_file_flags processed_data output_dir files affil)
      as (log1 & Hstep).
    { intros key. apply Hflags. by left. }
    set (files1 := match affiliation_file processed_data affil with
                   | Some content =>
                       <[path_join output_dir (file_name affil) := content]> files
                   | None => files
                   end) in *.
    destruct (IH files1) as (log2 & out & Hrest & Hkept & Hwritten).
    { intros a key Ha. apply Hflags. by right. }
    exists (log1 ++ log2), out. split.
    { cbn [for_each]. rewrite Hstep. unfold mbind, M_bind. by rewrite Hrest. }
    split.
    + intros path Hfile. apply Hkept. unfold files1.
      destruct (affiliation_file processed_data affil); [|done].
      rewrite lookup_insert. by destruct (decide _).
    + intros a [->|Ha]%elem_of_cons Hsome; [|by apply Hwritten].
      apply Hkept. unfold files1. destruct Hsome as [content ->].
      rewrite lookup_insert. by rewrite decide_True.
Qed.

(** X19: from the columns back to the files, as [main] goes.  For a
    processed table whose ['Affiliation: '] columns hold booleans, the
    affiliations [main] reads off the column labels include every
    affiliation whose text has no ['Affiliation: '] in it, and
    [save_affiliation_files] on them returns and leaves a file under the
    name of each such affiliation that a row is flagged for. *)
Theorem flagged_affiliation_has_file (processed_data : DataFrame) output_dir files
    t key i label :
  (forall c s, starts_with AFFILIATION_PREFIX c = true ->
     getitem processed_data c = Ok s -> flags s) ->
  occurs AFFILIATION_PREFIX t = false ->
  getitem processed_data (AFFILIATION_PREFIX +:+ t) = Ok key ->
  values key !! i = Some (VBool true) ->
  index processed_data !! i = Some label ->
  t ∈ main_affiliations processed_data /\
  exists log out,
    save_affiliation_files processed_data (main_affiliations processed_data)
      output_dir files = (log, Ok out) /\
    is_Some (out !! path_join output_dir (file_name t)).
Proof.
  intros Hflags Habsent Hkey Htrue Hlabel.
  assert (t ∈ main_affiliations processed_data) as Hin.
  { apply main_affiliations_recovers; [|done].
    apply getitem_Ok in Hkey. by apply (lookup_col_names _ _ key). }
  split; [done|].
  destruct (save_affiliation_files_keeps processed_data output_dir
              (main_affiliations processed_data) files)
    as (log & out & Hrun & _ & Hwritten).
  { intros affil s _. by apply Hflags. }
  exists log, out. split; [done|]. apply Hwritten; [done|].
  unfold affiliation_file. apply getitem_Ok in Hkey. rewrite Hkey. simpl.
  assert (empty (select_rows ((fun v => bool_decide (v = VBool true)) <$> values key)
                   processed_data) = false) as ->; [|done].
  unfold empty. apply orb_false_iff. split; apply bool_decide_eq_false_2.
  - simpl. intros Hnil.
    assert (exists j, nth_set ((fun v => bool_decide (v = VBool true)) <$> values key) j
                      = Some i) as [j Hj].
    { apply nth_set_surj. by rewrite list_lookup_fmap, Htrue. }
    assert (select ((fun v => bool_decide (v = VBool true)) <$> values key)
              (index processed_data) !! j = Some label) as Hrow.
    { apply select_lookup_Some. by exists i. }
    by rewrite Hnil in Hrow.
  - simpl. intros Hnil%fmap_nil_inv.
    apply lookup_col_Some in Hkey. rewrite Hnil in Hkey. by apply elem_of_nil in Hkey.
Qed.

End MainAffiliations.

Lemma flagged_affiliation_has_file_witness :
  "A/B" ∈ main_affiliations flagged /\
  exists log out,
    save_affiliation_files flagged (main_affiliations flagged)
      "affiliation_layers" ∅ = (log, Ok out) /\
    is_Some (out !! "affiliation_layers/A-B-layer.csv").
Proof.
  apply (flagged_affiliation_has_file flagged "affiliation_layers" ∅ "A/B"
           {| dtype := "bool"; categories := [];
              values := [VBool false; VBool true; VBool false] |} 1%nat 1);
    try reflexivity.
  intros c s Hc Hs. apply getitem_Ok, lookup_col_Some in Hs.
  unfold flagged in Hs. simpl in Hs.
  repeat (apply elem_of_cons in Hs as [[= -> ->]|Hs]);
    [try discriminate Hc; repeat constructor; by eexists ..|].
  by apply elem_of_nil in Hs.
Defined.

(** *** After the early return *)

Section EarlyReturn.
Context `{!Library} `{!Geocoder} `{!Hashing} `{!Setting}.


End EarlyReturn.


(** *** Geocoding to the end *)

Section GeocodingCompletes.
Context `{!Library} `{!Geocoder} `{!Hashing} `{!Setting}.

#[local] Arguments all_res {A} p xs : simpl never.

Lemma all_res_ext {A} (p q : A -> res bool) xs :
  (forall x, p x = q x) -> all_res p xs = all_res q xs.
Proof.
  intros Hext. induction xs as [|x xs IH]; [done|].
  unfold all_res; fold (@all_res A). by rewrite Hext, IH.
Qed.

Lemma collect_row_ext acc label row row' :
  (forall c, lookup_cell c row = lookup_cell c row') ->
  collect_row acc (label, row) = collect_row acc (label, row').
Proof.
  intros Hext.
  assert (forall c, row_getitem row c = row_getitem row' c) as Hget
    by (intros c; unfold row_getitem; by rewrite Hext).
  assert (format_address row = format_address row') as Haddress
    by (unfold format_address; by rewrite !Hget).
  assert (all_res (field_filled row) HOME_FIELDS = all_res (field_filled row') HOME_FIELDS)
    as Hfilled.
  { apply all_res_ext. intros field. unfold field_filled. by rewrite !Hget. }
  unfold collect_row. by rewrite !Hget, Haddress, Hfilled.
Qed.

Lemma collect_row_any acc acc' item m :
  collect_row acc item = Ok m -> exists m', collect_row acc' item = Ok m'.
Proof.
  destruct item as [label row]. unfold collect_row.
  destruct (row_getitem row "Latitude") as [lat|]; [|done]. cbn [mbind res_bind].
  set (missing := if isna lat then _ else _). clearbody missing.
  destruct missing as [[]|]; cbn [mbind res_bind]; [|by eauto|done].
  destruct (format_address row); [|done]. cbn [mbind res_bind].
  destruct (all_res _ _) as [[]|]; cbn [mbind res_bind]; by eauto.
Qed.

Lemma collect_row_unselected items : forall acc m,
  fold_res collect_row acc items = Ok m ->
  forall label row acc',
    (label, row) ∈ items -> label ∉ dom m ->
    collect_row acc' (label, row) = Ok acc'.
Proof.
  intros acc m Hrun label row acc' Hin Hout.
  destruct (collect_rows_each _ _ _ Hrun _ Hin) as (acc0 & m0 & Hrow).
  destruct (collect_row_any acc0 acc' _ _ Hrow) as (m' & Hrow').
  rewrite Hrow'. apply collect_row_Ok in Hrow'.
  destruct (needs_geocoding row) eqn:Hneeds; [|by subst].
  destruct Hout. apply (collect_rows_dom _ _ _ Hrun). right. by exists row.
Qed.

Lemma collect_row_located acc label row y x :
  lookup_cell "Latitude" row = Some y -> lookup_cell "Longitude" row = Some x ->
  isna y = false -> isna x = false ->
  collect_row acc (label, row) = Ok acc.
Proof.
  intros Hy Hx Hna_y Hna_x. unfold collect_row, row_getitem.
  rewrite Hy, Hx. simpl. by rewrite Hna_y, Hna_x.
Qed.

Lemma fold_collect_none items : forall acc,
  (forall item acc', item ∈ items -> collect_row acc' item = Ok acc') ->
  fold_res collect_row acc items = Ok acc.
Proof.
  induction items as [|item items IH]; intros acc Hnone; [done|].
  cbn [fold_res]. rewrite (Hnone item acc) by (by left). cbn [mbind res_bind].
  apply IH. intros item' acc' Hin. apply Hnone. by right.
Qed.

(** X21: geocoding to the end.  When the addresses
    [collect_addresses_to_geocode] found in a table are all answered with
    two coordinates that are not null, the table
    [batch_geocode_addresses] leaves has no address left to geocode:
    [collect_addresses_to_geocode] returns the empty dictionary on it. *)
Theorem geocoding_completes (df : DataFrame) addresses items api_key log out lat lon :
  rectangular df ->
  collect_addresses_to_geocode df = Ok addresses ->
  (forall label a, (label, a) ∈ items <-> addresses !! label = Some a) ->
  NoDup items.*1 ->
  getitem df "Latitude" = Ok lat -> getitem df "Longitude" = Ok lon ->
  (forall label a, (label, a) ∈ items ->
     exists y x cy cx,
       geocode a = GeocodeResult (Some (Some y, Some x)) /\
       stored (dtype lat) (categories lat) y = inr cy /\
       stored (dtype lon) (categories lon) x = inr cx /\
       isna cy = false /\ isna cx = false) ->
  batch_geocode_addresses items api_key df = (log, Ok out) ->
  collect_addresses_to_geocode out = Ok ∅.
Proof.
  intros Hrect Hcollect Hitems Hdistinct Hlat%getitem_Ok Hlon%getitem_Ok Hfound.
  unfold batch_geocode_addresses, lift.
  destruct (GIS api_key) as [[]|e]; [|done].
  unfold mbind, M_bind.
  destruct (for_each geocode_address df items) as [log' r] eqn:Hrun.
  intros [= _ ->].
  assert (Forall (fun item => item.1 ∈ index df) items) as Hlabels.
  { apply Forall_forall. intros [label a] Ha%Hitems. simpl.
    destruct (collect_rows_lookup _ _ _ Hcollect label a Ha)
      as [Hempty|(row & Hin & _)]; [done|].
    apply elem_of_lookup_imap_1 in Hin as (j & label' & [= <- _] & Hj).
    by apply list_elem_of_lookup_2 in Hj. }
  assert ("Latitude" ∈ names df) as Hhas_lat by (by apply (lookup_col_names _ _ lat)).
  assert ("Longitude" ∈ names df) as Hhas_lon by (by apply (lookup_col_names _ _ lon)).
  destruct (for_each_geocode_frame items df log' out Hlabels Hhas_lat Hhas_lon Hrun)
    as (Hindex & Hnames & _ & Hcells).
  unfold collect_addresses_to_geocode. apply fold_collect_none.
  intros [label row] acc' Hin.
  apply elem_of_lookup_imap_1 in Hin as (i & label' & [= <- ->] & Hi).
  rewrite Hindex in Hi.
  destruct (addresses !! label) as [a|] eqn:Ha.
  - apply Hitems in Ha.
    destruct (Hfound label a Ha) as (y & x & cy & cx & Hgeo & Hcy & Hcx & Hna_y & Hna_x).
    assert (forall c s, lookup_col c (columns df) = Some s -> is_Some (values s !! i))
      as Hcell.
    { intros c s Hs%lookup_col_Some. apply lookup_lt_is_Some.
      unfold rectangular in Hrect. rewrite Forall_forall in Hrect.
      pose proof (Hrect (c, s) Hs) as Hlength. simpl in Hlength.
      rewrite Hlength. by apply lookup_lt_Some in Hi. }
    destruct (Hcell _ _ Hlat) as [y0 Hy0]. destruct (Hcell _ _ Hlon) as [x0 Hx0].
    destruct (for_each_geocode_cells i label a items df log' out lat lon y0 x0)
      as (lat' & lon' & Hlat' & Hlon' & Hy & Hx); try done.
    unfold geocoded_cells in Hy, Hx. rewrite Hgeo, Hcy, Hcx in Hy, Hx.
    simpl in Hy, Hx.
    apply (collect_row_located _ _ _ cy cx); [| |done..].
    + rewrite lookup_cell_row_at, Hlat'. simpl.
      by rewrite list_lookup_total_alt, Hy.
    + rewrite lookup_cell_row_at, Hlon'. simpl.
      by rewrite list_lookup_total_alt, Hx.
  - assert (label ∉ items.*1) as Hother.
    { intros ([label' a] & -> & Hin)%list_elem_of_fmap.
      apply Hitems in Hin. simpl in Ha. congruence. }
    rewrite (collect_row_ext _ _ _ (row_at df i)).
    + apply (collect_row_unselected _ _ _ Hcollect).
      * apply (elem_of_lookup_imap_2 (fun i label => (label, row_at df i)) _ _ _ Hi).
      * by apply not_elem_of_dom.
    + intros c. rewrite !lookup_cell_row_at.
      destruct (lookup_col c (columns df)) as [s|] eqn:Hs.
      * destruct (Hcells c s Hs) as (s' & -> & _ & _ & _ & Hkept). simpl.
        by rewrite !list_lookup_total_alt, (Hkept i label Hi Hother).
      * apply lookup_col_None in Hs. fold (names df) in Hs. rewrite <- Hnames in Hs.
        apply lookup_col_None in Hs. by rewrite Hs.
Qed.

End GeocodingCompletes.

Lemma geocoding_completes_witness :
  exists log out,
    batch_geocode_addresses [(0, THOMPSON)] "key" located = (log, Ok out) /\
    collect_addresses_to_geocode out = Ok ∅.
Proof.
  assert (exists log out,
    batch_geocode_addresses [(0, THOMPSON)] "key" located = (log, Ok out))
    as (log & out & Hrun) by (eexists _, _; reflexivity).
  exists log, out. split; [exact Hrun|].
  apply (geocoding_completes located {[ 0 := THOMPSON ]} [(0, THOMPSON)] "key" log out
           (object_column [VNone; VFloat float_1234_5; VNone])
           (object_column [VNone; VFloat float_1234_5; VNone])).
  - by repeat constructor.
  - reflexivity.
  - intros label a. rewrite list_elem_of_singleton, lookup_singleton_Some.
    split; [by intros [= -> ->] | by intros [-> ->]].
  - compute_done.
  - reflexivity.
  - reflexivity.
  - intros label a [= -> ->]%list_elem_of_singleton.
    by exists (VFloat float_1234_5), (VFloat float_zero),
              (VFloat float_1234_5), (VFloat float_zero).
  - exact Hrun.
Defined.
